(** * XAT conversational backend: orchestration core and booking dialog engine

    A shallow embedding of the Python sources
    - [Dialogs/restaurant_booking_script.py], [Dialogs/restaurant_script_engine.py],
    - [backend/app/utils/lang_utils.py], [backend/app/utils/nlp_parser.py],
    - [backend/app/services/language_service.py],
    - [backend/app/services/restaurant_service.py],
    - [backend/app/services/chat_service.py],
    followed by the properties of the specification that concern them.

    Conventions.  A Python [str] is a [string] holding its UTF-8 bytes; a
    [dict] written as a literal is an association list in source order, a
    [dict] built at run time is a [gmap]; the module-level stores
    ([SESSION_STATE], [rag_query_cache]) are passed in and out explicitly;
    a call that may raise returns an [outcome]; the collaborators outside
    the repository (langdetect, the completion service, the retriever, ...)
    are fields of environment records, and so is whether an import made
    inside a function succeeds. *)

From Stdlib Require Import String Ascii List ZArith QArith Lia Bool DecimalString.
From stdpp Require Import base gmap strings list fin_maps.
Open Scope string_scope.
Open Scope list_scope.

(** ** Python values and control flow *)

Module Py.

(** The exception classes that occur in the modelled code.  All of them
    derive from [Exception]; [BaseException]-only signals (interpreter exit,
    task cancellation) are outside the model. *)
Inductive exn : Type :=
| TypeError
| KeyError
| IndexError
| ValueError
| NameError
| ImportError
| AsyncTimeoutError
| TimeoutError
| OtherException (msg : string).

Inductive outcome (A : Type) : Type :=
| Return (a : A)
| Raise (e : exn).
Arguments Return {A} a.
Arguments Raise {A} e.

Definition bind {A B : Type} (m : outcome A) (k : A -> outcome B) : outcome B :=
  match m with
  | Return a => k a
  | Raise e => Raise e
  end.

Definition is_ImportError (e : exn) : bool :=
  match e with ImportError => true | _ => false end.

Definition is_KeyError (e : exn) : bool :=
  match e with KeyError => true | _ => false end.

Definition is_AsyncTimeoutError (e : exn) : bool :=
  match e with AsyncTimeoutError => true | _ => false end.

Definition is_TimeoutError (e : exn) : bool :=
  match e with TimeoutError => true | _ => false end.

(** *** Strings *)

Definition dquote : string := String (ascii_of_nat 34) EmptyString.
Definition nl : string := String (ascii_of_nat 10) EmptyString.

(** [needle in hay] on [str]: substring test.  On well-formed UTF-8 a byte
    substring is a code-point substring. *)
Fixpoint str_in (needle hay : string) : bool :=
  match hay with
  | EmptyString => String.prefix needle hay
  | String _ rest => String.prefix needle hay || str_in needle rest
  end.

(** [x in l] on a list of strings. *)
Definition list_in (x : string) (l : list string) : bool :=
  existsb (String.eqb x) l.

(** [d.get(k)] on a dict literal. *)
Fixpoint dict_get {V : Type} (k : string) (d : list (string * V)) : option V :=
  match d with
  | [] => None
  | (k', v) :: rest => if String.eqb k k' then Some v else dict_get k rest
  end.

(** [d[k]] on a dict literal. *)
Definition dict_getitem {V : Type} (k : string) (d : list (string * V)) : outcome V :=
  match dict_get k d with
  | Some v => Return v
  | None => Raise KeyError
  end.

Definition byte_in (lo hi : nat) (c : ascii) : bool :=
  (lo <=? nat_of_ascii c)%nat && (nat_of_ascii c <=? hi)%nat.

Definition shift_up (k : nat) (c : ascii) : ascii := ascii_of_nat (nat_of_ascii c + k).
Definition shift_down (k : nat) (c : ascii) : ascii := ascii_of_nat (nat_of_ascii c - k).

(** [s.lower()].  Covers the scripts of the supported languages: ASCII,
    the Latin-1 supplement (lead byte C3) and basic Cyrillic (lead byte D0);
    every other code point is kept as it is. *)
Fixpoint lower (s : string) : string :=
  match s with
  | EmptyString => EmptyString
  | String c rest =>
      if byte_in 65 90 c then String (shift_up 32 c) (lower rest)
      else
        match rest with
        | String d rest' =>
            if byte_in 195 195 c && byte_in 128 158 d && negb (byte_in 151 151 d)
            then String c (String (shift_up 32 d) (lower rest'))
            else if byte_in 208 208 c && byte_in 144 159 d
            then String c (String (shift_up 32 d) (lower rest'))
            else if byte_in 208 208 c && byte_in 160 175 d
            then String (ascii_of_nat 209) (String (shift_down 32 d) (lower rest'))
            else if byte_in 208 208 c && byte_in 128 143 d
            then String (ascii_of_nat 209) (String (shift_up 16 d) (lower rest'))
            else String c (lower rest)
        | EmptyString => String c EmptyString
        end
  end.

(** White space removed by [strip()]: the ASCII members of Python's set
    (tab, line feed, vertical tab, form feed, carriage return, the
    separators 28-31 and the blank). *)
Definition is_space (c : ascii) : bool :=
  byte_in 9 13 c || byte_in 28 32 c.

Fixpoint lstrip (s : string) : string :=
  match s with
  | EmptyString => EmptyString
  | String c rest => if is_space c then lstrip rest else s
  end.

Fixpoint rstrip (s : string) : string :=
  match s with
  | EmptyString => EmptyString
  | String c rest =>
      match rstrip rest with
      | EmptyString => if is_space c then EmptyString else String c EmptyString
      | r => String c r
      end
  end.

Definition strip (s : string) : string := rstrip (lstrip s).

Definition is_digit (c : ascii) : bool := byte_in 48 57 c.

Fixpoint all_chars (p : ascii -> bool) (s : string) : bool :=
  match s with
  | EmptyString => true
  | String c rest => p c && all_chars p rest
  end.

Fixpoint any_char (p : ascii -> bool) (s : string) : bool :=
  match s with
  | EmptyString => false
  | String c rest => p c || any_char p rest
  end.

(** [s.isdigit()]: non-empty and decimal digits only (the ASCII digits). *)
Definition isdigit (s : string) : bool :=
  match s with
  | EmptyString => false
  | _ => all_chars is_digit s
  end.

(** [not s] on a string. *)
Definition falsy (s : string) : bool :=
  match s with EmptyString => true | _ => false end.

(** [str(n)] for a non-negative integer. *)
Definition str_of_nat (n : nat) : string := NilEmpty.string_of_uint (Nat.to_uint n).

(** A UTF-8 byte that starts a code point (not of the form 10xxxxxx). *)
Definition is_lead (c : ascii) : bool := negb (byte_in 128 191 c).

(** [len(s)]: the number of code points. *)
Fixpoint len (s : string) : nat :=
  match s with
  | EmptyString => 0
  | String c rest => (if is_lead c then 1 else 0) + len rest
  end.

(** [s[:n]]: the first [n] code points. *)
Fixpoint take_chars (n : nat) (s : string) : string :=
  match s with
  | EmptyString => EmptyString
  | String c rest =>
      if is_lead c then
        match n with
        | O => EmptyString
        | S n' => String c (take_chars n' rest)
        end
      else String c (take_chars n rest)
  end.

(** [str.format] applied to keyword arguments, for templates whose
    replacement fields are plain names: [field] is the name being read, if any.
    A name without a keyword raises [KeyError]; an unbalanced brace raises
    [ValueError]. *)
Fixpoint format_from (kwargs : string -> option string) (field : option string)
    (s : string) : outcome string :=
  match s with
  | EmptyString =>
      match field with
      | None => Return EmptyString
      | Some _ => Raise ValueError
      end
  | String c rest =>
      match field with
      | None =>
          if Ascii.eqb c "{"%char then format_from kwargs (Some EmptyString) rest
          else if Ascii.eqb c "}"%char then Raise ValueError
          else bind (format_from kwargs None rest) (fun r => Return (String c r))
      | Some name =>
          if Ascii.eqb c "}"%char then
            match kwargs name with
            | None => Raise KeyError
            | Some v => bind (format_from kwargs None rest) (fun r => Return (v +:+ r))
            end
          else format_from kwargs (Some (name +:+ String c EmptyString)) rest
      end
  end.

End Py.
Import Py.

(** ** [Dialogs/restaurant_booking_script.py] *)

Module Script.

Record step : Type := {
  id : string;
  expect : option string;
  message : list (string * string)
}.

Definition ask_people : step := {|
  id := "ask_people";
  expect := Some "people";
  message := [
    ("en", "How many people are you booking for?");
    ("ru", "На сколько человек вы хотите забронировать?");
    ("fr", "Pour combien de personnes souhaitez-vous réserver?");
    ("es", "¿Para cuántas personas desea reservar?");
    ("de", "Für wie viele Personen möchten Sie reservieren?");
    ("ca", "Per a quantes persones vols fer la reserva?")
  ]
|}.

Definition ask_time : step := {|
  id := "ask_time";
  expect := Some "time";
  message := [
    ("en", "What time would you like the reservation?");
    ("ru", "На какое время вы хотите забронировать?");
    ("fr", "À quelle heure souhaitez-vous réserver?");
    ("es", "¿A qué hora desea reservar?");
    ("de", "Um wie viel Uhr möchten Sie reservieren?");
    ("ca", "A quina hora vols fer la reserva?")
  ]
|}.

Definition confirm : step := {|
  id := "confirm";
  expect := None;
  message := [
    ("en", "Great, I've booked a table for {people} at {time}. Bon appétit!");
    ("ru", "Отлично, я забронировал столик на {people} в {time}. Приятного аппетита!");
    ("fr", "Parfait, j'ai réservé une table pour {people} à {time}. Bon appétit!");
    ("es", "Genial, he reservado una mesa para {people} a las {time}. ¡Buen provecho!");
    ("de", "Super, ich habe einen Tisch für {people} um {time} reserviert. Guten Appetit!");
    ("ca", "Genial! T'he reservat una taula per a {people} a les {time}. Bon profit!")
  ]
|}.

(** [DIALOG_SCRIPTS["restaurant_booking"]["steps"]] *)
Definition steps : list step := [ask_people; ask_time; confirm].

End Script.

(** ** [backend/app/utils/lang_utils.py] and [backend/app/utils/nlp_parser.py] *)

Module Utils.

(** What the dialog engine finds around it:
    - [nlp_parser_importable]: whether the import of line 27 of the engine,
      [from utils.nlp_parser import extract_people_via_gpt,
      extract_time_via_gpt], succeeds.  With the [utils/nlp_parser.py] of
      the sources it does not: that module defines [extract_time_via_gpt]
      only, and its own first import asks [app.main] for a name it lacks;
    - [langdetect]: the [detect] function of the langdetect package, [None]
      when it raises;
    - [get_chatgpt_response]: the completion call used by the time
      extractor, [None] when it raises;
    - [extract_people_via_gpt]: what the name of the people-count extractor
      is bound to when the import succeeds. *)
Record env : Type := {
  nlp_parser_importable : bool;
  langdetect : string -> option string;
  get_chatgpt_response : string -> string -> option string;
  extract_people_via_gpt : string -> string -> string
}.

(** [lang_utils.detect_language] *)
Definition detect_language (E : env) (text : string) : string :=
  if falsy (strip text) then "en"
  else if isdigit (strip text) then "same_as_before"
  else
    match langdetect E text with
    | Some lang => lang
    | None => "en"
    end.

Definition time_prompt (user_input : string) : string :=
  nl +:+ "We are in a restaurant booking scenario." +:+ nl +:+ nl
  +:+ "The assistant asked: " +:+ dquote +:+ "What time would you like the reservation?"
  +:+ dquote +:+ nl +:+ nl
  +:+ "The user replied: " +:+ dquote +:+ user_input +:+ dquote +:+ nl +:+ nl
  +:+ "Please extract the time from the user's response, in a simple format like "
  +:+ dquote +:+ "19:00" +:+ dquote +:+ " or " +:+ dquote +:+ "7pm" +:+ dquote +:+ "." +:+ nl
  +:+ "If the time is unclear or missing, return " +:+ dquote +:+ "unknown" +:+ dquote
  +:+ "." +:+ nl
  +:+ "Only return the time value, no extra explanation." +:+ nl.

(** [nlp_parser.extract_time_via_gpt] *)
Definition extract_time_via_gpt (E : env) (user_input lang : string) : string :=
  match get_chatgpt_response E (time_prompt user_input) lang with
  | Some r =>
      let response := strip r in
      if any_char is_digit response then response else "unknown"
  | None => "unknown"
  end.

End Utils.

(** ** [Dialogs/restaurant_script_engine.py] *)

Module Engine.
Import Script Utils.

(** An element of a session's [dialog] list: [{"user": raw}] or [{"bot": text}]. *)
Inductive entry : Type :=
| User (text : string)
| Bot (text : string).

(** A value of [SESSION_STATE].  The keys of [data] are the expected slot
    names; the script's last step has none, and its [None] is then the key.
    [reset_session] stores a state without the ["lang"] item. *)
Record session : Type := {
  current_step : nat;
  data : gmap (option string) string;
  dialog : list entry;
  lang : option string
}.

Definition new_session (l : string) : session :=
  {| current_step := 0; data := ∅; dialog := []; lang := Some l |}.

Definition append_dialog (e : entry) (st : session) : session :=
  {| current_step := current_step st; data := data st;
     dialog := dialog st ++ [e]; lang := lang st |}.

(** [state["data"][key] = value; state["current_step"] += 1] *)
Definition store_and_advance (key : option string) (value : string) (st : session) : session :=
  {| current_step := S (current_step st); data := <[key := value]> (data st);
     dialog := dialog st; lang := lang st |}.

(** [list(steps[0]["message"].keys())] *)
Definition supported_langs : list string :=
  match steps !! 0%nat with
  | Some s => (message s).*1
  | None => []
  end.

(** Lines 29-38: the language of this call, taken from the user input. *)
Definition call_lang (E : env) (user_input : string) : string :=
  let l := strip (lower (detect_language E user_input)) in
  if list_in l supported_langs then l else "en".

(** [d.get(lang, d["en"])]: the default is evaluated first and raises
    [KeyError] when the dict has no English text. *)
Definition get_or_en (d : list (string * string)) (l : string) : outcome string :=
  bind (dict_getitem "en" d) (fun en => Return (default en (dict_get l d))).

(** [st["message"].get(lang, st["message"]["en"])] *)
Definition message_for (st : step) (l : string) : outcome string :=
  get_or_en (message st) l.

Definition final_responses : list (string * string) := [
  ("en", "Thanks! Your booking is saved. 🐾");
  ("ru", "Спасибо! Ваш заказ принят. 🐾");
  ("es", "¡Gracias! Su reserva está hecha. 🐾");
  ("fr", "Merci! Votre réservation est faite. 🐾");
  ("de", "Danke! Ihre Reservierung ist abgeschlossen. 🐾");
  ("ca", "Gràcies! La teva reserva està feta. 🐾")
].

(** Lines 55-77.  The second component is [Some r] when the function leaves
    here, by [return] or by an exception. *)
Definition slot_phase (E : env) (l raw : string) (state : session)
    : session * option (outcome string) :=
  let step_idx := current_step state in
  if (0 <? step_idx)%nat then
    match steps !! (step_idx - 1)%nat with
    | None => (state, Some (Raise IndexError))
    | Some prev_step =>
        let expected_key := expect prev_step in
        if bool_decide (expected_key = Some "people") then
          let parsed := extract_people_via_gpt E raw l in
          if negb (String.eqb parsed "unknown")
          then (store_and_advance (Some "people") parsed state, None)
          else (state, Some (message_for prev_step l))
        else if bool_decide (expected_key = Some "time") then
          let parsed := extract_time_via_gpt E raw l in
          if negb (String.eqb parsed "unknown")
          then (store_and_advance (Some "time") parsed state, None)
          else (state, Some (message_for prev_step l))
        else (store_and_advance expected_key raw state, None)
    end
  else (state, None).

(** [msg_template.format( ** state["data"])] with its [except KeyError]:
    a key that is not a string makes the call itself raise [TypeError]. *)
Definition format_confirm (st : step) (msg_template : string)
    (d : gmap (option string) string) : outcome string :=
  match d !! None with
  | Some _ => Raise TypeError
  | None =>
      match format_from (fun name => d !! Some name) None msg_template with
      | Return s => Return s
      | Raise e => if is_KeyError e then dict_getitem "en" (message st) else Raise e
      end
  end.

(** Lines 79-104. *)
Definition reply_phase (l : string) (state : session) : session * outcome string :=
  if (length steps <=? current_step state)%nat then
    match get_or_en final_responses l with
    | Return final => (append_dialog (Bot final) state, Return final)
    | Raise e => (state, Raise e)
    end
  else
    match steps !! current_step state with
    | None => (state, Raise IndexError)
    | Some st =>
        let msg :=
          bind (message_for st l) (fun msg_template =>
          if String.eqb (id st) "confirm"
          then format_confirm st msg_template (data state)
          else Return msg_template) in
        match msg with
        | Return m => (append_dialog (Bot m) state, Return m)
        | Raise e => (state, Raise e)
        end
    end.

(** Lines 29-104: the body of [get_next_step] after its imports. *)
Definition step_body (E : env) (SESSION_STATE : gmap string session)
    (session_id user_input : string) : outcome string * gmap string session :=
  let l := call_lang E user_input in
  let state :=
    match SESSION_STATE !! session_id with
    | Some st => st
    | None => new_session l
    end in
  let raw := strip user_input in
  let state := append_dialog (User raw) state in
  match slot_phase E l raw state with
  | (state, Some r) => (r, <[session_id := state]> SESSION_STATE)
  | (state, None) =>
      let '(state, r) := reply_phase l state in
      (r, <[session_id := state]> SESSION_STATE)
  end.

(** [get_next_step(session_id, user_input)]: the reply (or the exception)
    and [SESSION_STATE] after the call.  The imports of lines 26-27 run
    first; when the second fails the call raises [ImportError] and
    [SESSION_STATE] has not been touched. *)
Definition get_next_step (E : env) (SESSION_STATE : gmap string session)
    (session_id user_input : string) : outcome string * gmap string session :=
  if nlp_parser_importable E then step_body E SESSION_STATE session_id user_input
  else (Raise ImportError, SESSION_STATE).

(** A call [get_next_step( *args)] with positional arguments only: the
    function has two parameters and no defaults, so any other number of
    arguments raises [TypeError] before the body runs. *)
Definition call_get_next_step (E : env) (SESSION_STATE : gmap string session)
    (args : list string) : outcome string * gmap string session :=
  match args with
  | [session_id; user_input] => get_next_step E SESSION_STATE session_id user_input
  | _ => (Raise TypeError, SESSION_STATE)
  end.

Definition get_dialogue_log (SESSION_STATE : gmap string session) (session_id : string)
    : list entry :=
  match SESSION_STATE !! session_id with
  | Some st => dialog st
  | None => []
  end.

Definition reset_session (SESSION_STATE : gmap string session) (session_id : string)
    : bool * gmap string session :=
  match SESSION_STATE !! session_id with
  | Some _ =>
      (true, <[session_id := {| current_step := 0; data := ∅; dialog := []; lang := None |}]>
               SESSION_STATE)
  | None => (false, SESSION_STATE)
  end.

(** The engine driven by a sequence of calls, each with the behaviour of
    the collaborators at that call; the replies are collected in order. *)
Fixpoint run (calls : list (env * string * string)) (SESSION_STATE : gmap string session)
    : list (outcome string) * gmap string session :=
  match calls with
  | [] => ([], SESSION_STATE)
  | (E, session_id, user_input) :: rest =>
      let '(r, S1) := get_next_step E SESSION_STATE session_id user_input in
      let '(rs, S2) := run rest S1 in
      (r :: rs, S2)
  end.

(** The step index of a session, 0 for a session not created yet. *)
Definition step_of (SESSION_STATE : gmap string session) (session_id : string) : nat :=
  match SESSION_STATE !! session_id with
  | Some st => current_step st
  | None => 0
  end.

End Engine.

(** ** The result cache *)

Module Cache.

(** Modelled from the spec: the class [TTLCache] of the cachetools package,
    which [restaurant_service.py] instantiates as [rag_query_cache] and which
    is not part of the sources.  Sections 3 and 4.1 of the specification
    give its contract: an entry holds a key, a value, its insertion time and
    the time-to-live; an entry is never returned once
    [now > insertion + ttl], whether or not it has been evicted; the size is
    bounded, and an insertion beyond the bound evicts the oldest surviving
    entry first.  The clock is read by the caller and passed in. *)
Record TTLCache (V : Type) : Type := {
  maxsize : nat;
  ttl : Z;
  entries : list (string * (V * Z))
}.
Arguments maxsize {V} _.
Arguments ttl {V} _.
Arguments entries {V} _.

(** Modelled from the spec: the expiry test of an entry of the result
    cache, [now > insertion + ttl]. *)
Definition expired {V : Type} (c : TTLCache V) (now : Z) (e : string * (V * Z)) : bool :=
  (e.2.2 + ttl c <? now)%Z.

(** Modelled from the spec: the entry the result cache holds for a key. *)
Fixpoint find_entry {V : Type} (key : string) (l : list (string * (V * Z)))
    : option (string * (V * Z)) :=
  match l with
  | [] => None
  | e :: rest => if String.eqb key e.1 then Some e else find_entry key rest
  end.

(** Modelled from the spec: [get(key)] of the result cache, the value or a
    miss. *)
Definition get {V : Type} (c : TTLCache V) (now : Z) (key : string) : option V :=
  match find_entry key (entries c) with
  | Some e => if expired c now e then None else Some e.2.1
  | None => None
  end.

(** Modelled from the spec: the membership test [key in cache], a [get]
    that hits. *)
Definition contains {V : Type} (c : TTLCache V) (now : Z) (key : string) : bool :=
  match get c now key with Some _ => true | None => false end.

(** Modelled from the spec: [put(key, value, ttl)] of the result cache.  The
    entry replaces an older one for the key; expired entries go, then the
    oldest ones until the new entry fits. *)
Definition put {V : Type} (c : TTLCache V) (now : Z) (key : string) (value : V)
    : TTLCache V :=
  let live :=
    List.filter (fun e => negb (expired c now e) && negb (String.eqb key e.1)) (entries c) in
  let kept := drop (S (length live) - maxsize c) live in
  {| maxsize := maxsize c; ttl := ttl c;
     entries := if (maxsize c =? 0)%nat then kept else kept ++ [(key, (value, now))] |}.

(** Modelled from the spec: [clear()] of the result cache. *)
Definition clear {V : Type} (c : TTLCache V) : TTLCache V :=
  {| maxsize := maxsize c; ttl := ttl c; entries := [] |}.

End Cache.

(** ** [backend/app/services/restaurant_service.py] *)

Module RestaurantService.

Definition FEATURE_KEYWORDS : list (string * list (string * list string)) := [
  ("has_terrace", [
    ("en", ["terrace"; "outdoor"; "patio"]);
    ("es", ["terraza"; "exterior"; "patio"]);
    ("fr", ["terrasse"; "extérieur"]);
    ("de", ["terrasse"; "draußen"]);
    ("it", ["terrazza"; "esterno"]);
    ("ca", ["terrassa"; "exterior"]);
    ("ru", ["террас"; "веранд"; "уличн"])
  ]);
  ("sea_view", [
    ("en", ["sea view"; "ocean view"; "water view"]);
    ("es", ["vista al mar"; "vistas al mar"; "vista al océano"]);
    ("fr", ["vue sur la mer"; "vue sur l'océan"]);
    ("de", ["meerblick"; "ozeanblick"]);
    ("it", ["vista mare"; "vista sull'oceano"]);
    ("ca", ["vistes al mar"; "vista al mar"]);
    ("ru", ["вид на море"; "морской вид"; "вид на океан"])
  ]);
  ("booking", [
    ("en", ["book"; "reserve"; "reservation"]);
    ("es", ["reservar"; "reserva"; "reservación"]);
    ("fr", ["réserver"; "réservation"]);
    ("de", ["buchen"; "reservieren"; "reservierung"]);
    ("it", ["prenotare"; "prenotazione"]);
    ("ca", ["reservar"; "reserva"]);
    ("ru", ["бронир"; "резервир"; "заказ"; "забронировать"])
  ])
].

(** A source node of the retriever's response: the document text, the items
    of its metadata that [query_places] reads ([None] for a missing item)
    and the relevance score the retriever reports, if any. *)
Record node : Type := {
  n_text : string;
  n_name : option string;
  n_category : option string;
  n_direction : option string;
  n_has_booking : option bool;
  n_email : option string;
  n_features : option (gmap string bool);
  n_score : option Q
}.

(** The dict [query_places] builds for a node that passes the filter. *)
Record place : Type := {
  name : string;
  category : string;
  text : string;
  direction : string;
  has_booking : bool;
  email : string;
  features : gmap string bool
}.

Definition place_of (n : node) : place := {|
  name := default "" (n_name n);
  category := default "" (n_category n);
  text := n_text n;
  direction := default "" (n_direction n);
  has_booking := default false (n_has_booking n);
  email := default "" (n_email n);
  features := default ∅ (n_features n)
|}.

(** [any(features.get(key) != val for key, val in required_features.items())] *)
Definition disagrees (feats required_features : gmap string bool) : bool :=
  existsb (fun kv => negb (bool_decide (feats !! kv.1 = Some kv.2)))
          (map_to_list required_features).

(** Lines 210-228: the loop over [response.source_nodes]. *)
Definition filter_nodes (source_nodes : list node) (required_features : gmap string bool)
    : list place :=
  fold_left (fun results n =>
               if disagrees (default ∅ (n_features n)) required_features
               then results
               else results ++ [place_of n])
            source_nodes [].

Fixpoint insert_sorted (kv : string * bool) (l : list (string * bool)) : list (string * bool) :=
  match l with
  | [] => [kv]
  | x :: rest => if String.leb kv.1 x.1 then kv :: l else x :: insert_sorted kv rest
  end.

(** [sorted(required_features.items())] *)
Definition sorted_items (required_features : gmap string bool) : list (string * bool) :=
  foldr insert_sorted [] (map_to_list required_features).

Definition repr_item (kv : string * bool) : string :=
  "('" +:+ kv.1 +:+ "', " +:+ (if kv.2 then "True" else "False") +:+ ")".

Fixpoint join (sep : string) (l : list string) : string :=
  match l with
  | [] => ""
  | [x] => x
  | x :: rest => x +:+ sep +:+ join sep rest
  end.

(** [f"{user_query}:{sorted(required_features.items())}"] *)
Definition cache_key (user_query : string) (required_features : gmap string bool) : string :=
  user_query +:+ ":" +:+ "[" +:+ join ", " (List.map repr_item (sorted_items required_features))
  +:+ "]".

(** What [query_places] finds around it:
    - [metrics_importable]: whether [metrics.inference_metrics] imports;
    - [rag_query_engine]: the engine, [None] when it is not initialised;
      given the query and the number of the attempt it answers with the
      source nodes or raises;
    - [now]: the reading of the clock during the call. *)
Record rag_env : Type := {
  metrics_importable : bool;
  rag_query_engine : option (string -> nat -> outcome (list node));
  now : Z
}.

Definition max_retries : nat := 3.

(** Lines 132-194: the first attempt that answers, among [remaining] ones
    starting at attempt number [retry]; [None] when all of them raise. *)
Fixpoint first_response (query : nat -> outcome (list node)) (retry remaining : nat)
    : option (list node) :=
  match remaining with
  | O => None
  | S r =>
      match query retry with
      | Return source_nodes => Some source_nodes
      | Raise _ => first_response query (S retry) r
      end
  end.

(** [rag_query_cache = TTLCache(maxsize=200, ttl=1800)] *)
Definition rag_query_cache : Cache.TTLCache (list place) :=
  {| Cache.maxsize := 200; Cache.ttl := 1800; Cache.entries := [] |}.

(** [query_places(user_query, required_features)]: the result and the cache
    after the call. *)
Definition query_places (R : rag_env) (cache : Cache.TTLCache (list place))
    (user_query : string) (required_features : gmap string bool)
    : outcome (list place) * Cache.TTLCache (list place) :=
  if negb (metrics_importable R) then (Raise ImportError, cache)
  else
    match rag_query_engine R with
    | None => (Return [], cache)
    | Some engine =>
        let key := cache_key user_query required_features in
        match Cache.get cache (now R) key with
        | Some cached => (Return cached, cache)
        | None =>
            match first_response (engine user_query) 0 max_retries with
            | None => (Return [], cache)
            | Some source_nodes =>
                let results := filter_nodes source_nodes required_features in
                (Return results, Cache.put cache (now R) key results)
            end
        end
    end.

(** [extract_required_features(user_input, lang)] *)
Definition extract_required_features (user_input lang : string) : gmap string bool :=
  let lowered := lower user_input in
  let lang :=
    match dict_get "has_terrace" FEATURE_KEYWORDS with
    | Some by_lang => if list_in lang by_lang.*1 then lang else "en"
    | None => lang
    end in
  fold_left (fun feats entry =>
               let keywords :=
                 default (default [] (dict_get "en" entry.2)) (dict_get lang entry.2) in
               if existsb (fun keyword => str_in keyword lowered) keywords
               then <[entry.1 := true]> feats
               else feats)
            FEATURE_KEYWORDS ∅.

(** [any(keyword in KEYWORDS.get(other_lang, []) for other_lang in KEYWORDS
    if other_lang != lang)] *)
Definition used_in_other_langs (KEYWORDS : gmap string (list string))
    (lang keyword : string) : bool :=
  existsb (fun other_lang =>
             negb (String.eqb other_lang lang)
             && list_in keyword (default [] (KEYWORDS !! other_lang)))
          (map_to_list KEYWORDS).*1.

(** [contains_restaurant_trigger(text, lang)], with the value of
    [RESTAURANT_KEYWORDS_BY_LANG] loaded from the keyword file. *)
Definition contains_restaurant_trigger (KEYWORDS : gmap string (list string))
    (text lang : string) : bool :=
  let lowered := lower text in
  let keywords := default [] (KEYWORDS !! lang) in
  existsb (fun keyword =>
             str_in keyword lowered && negb (used_in_other_langs KEYWORDS lang keyword))
          keywords.

Definition reply_too_long : string :=
  "Sorry, the restaurant booking system is taking too long to respond. Please try again later! 🐱".
Definition reply_maintenance : string :=
  "Sorry, my restaurant booking system needs maintenance. Try again later! 🐱".
Definition reply_unavailable : string :=
  "My restaurant booking system is currently unavailable. Please try again later! 🐱".

(** What [handle_restaurant_dialog] finds around it:
    - [engine_importable]: whether [restaurant_script_engine] imports;
    - [timed_out]: whether the five seconds of [asyncio.wait_for] pass
      before the executor delivers the result of the call;
    - [engine]: the collaborators of the dialog engine. *)
Record dialog_env : Type := {
  engine_importable : bool;
  timed_out : bool;
  engine : Utils.env
}.

(** The inner [try] (lines 366-376).  The call is made with the three
    arguments [session_id, lang, user_input].  In the handler of
    [asyncio.TimeoutError] the name [log_timeout] is not bound in this
    module (only [query_places] imports it, locally), so the handler raises
    [NameError] before its [return]. *)
Definition await_reply (H : dialog_env) (SESSION_STATE : gmap string Engine.session)
    (user_input session_id lang : string) : outcome string * gmap string Engine.session :=
  let '(r, S1) :=
    Engine.call_get_next_step (engine H) SESSION_STATE [session_id; lang; user_input] in
  let awaited := if timed_out H then Raise AsyncTimeoutError else r in
  match awaited with
  | Return reply => (Return reply, S1)
  | Raise e => if is_AsyncTimeoutError e then (Raise NameError, S1) else (Raise e, S1)
  end.

(** [handle_restaurant_dialog(user_input, session_id, lang)]: the value of
    ["response"] and [SESSION_STATE] after the call. *)
Definition handle_restaurant_dialog (H : dialog_env)
    (SESSION_STATE : gmap string Engine.session) (user_input session_id lang : string)
    : string * gmap string Engine.session :=
  let '(r, S1) :=
    if engine_importable H
    then await_reply H SESSION_STATE user_input session_id lang
    else (Raise ImportError, SESSION_STATE) in
  match r with
  | Return reply => (reply, S1)
  | Raise e => if is_ImportError e then (reply_maintenance, S1) else (reply_unavailable, S1)
  end.

End RestaurantService.

(** ** [backend/app/services/language_service.py] *)

Module LanguageService.

Definition EXCEPTION_WORDS : list string :=
  ["Привет"; "Ну"; "Че"; "Чо"; "Емое"; "Ёмое"; "Йо"; "Норм"; "Лол"; "Ок"; "Понял"].

(** [detect_language(text)]; [langdetect] is the [detect] function of the
    langdetect package, [None] when it raises. *)
Definition detect_language (langdetect : string -> option string) (text : string) : string :=
  if falsy (strip text) then "en"
  else if existsb (fun word => str_in (lower word) (lower text)) EXCEPTION_WORDS then "ru"
  else if isdigit (strip text) then "same_as_before"
  else
    match langdetect text with
    | Some detected_lang => if falsy detected_lang then "en" else detected_lang
    | None => "en"
    end.

End LanguageService.

(** ** [backend/app/services/chat_service.py] *)

Module ChatService.
Import RestaurantService.

Definition TRANSLATION_LABELS : list (string * string) := [
  ("en", "Translation");
  ("es", "Traducción");
  ("fr", "Traduction");
  ("de", "Übersetzung");
  ("it", "Traduzione");
  ("pt", "Tradução");
  ("ru", "Перевод");
  ("ca", "Traducció (EN)")
].

Definition SUPPORTED_LANGS : list string := ["en"; "es"; "fr"; "de"; "ca"; "ru"].

Definition fallback_response : string :=
  "Meow... Something went wrong with my whiskers. Try again later! 🐱".

(** [sanitize_input(text)] on a [str]. *)
Definition keep_printable (s : string) : string :=
  string_of_list_ascii
    (List.filter (fun c => (32 <=? nat_of_ascii c)%nat) (list_ascii_of_string s)).

Definition sanitize_input (text : string) : string :=
  let sanitized := keep_printable text in
  if (500 <? len sanitized)%nat then take_chars 500 sanitized else sanitized.

(** The attribute names of a [dict] object, as [hasattr] sees them. *)
Definition dict_attributes : list string := [
  "__class__"; "__class_getitem__"; "__contains__"; "__delattr__"; "__delitem__";
  "__dir__"; "__doc__"; "__eq__"; "__format__"; "__ge__"; "__getattribute__";
  "__getitem__"; "__getstate__"; "__gt__"; "__hash__"; "__init__";
  "__init_subclass__"; "__ior__"; "__iter__"; "__le__"; "__len__"; "__lt__";
  "__ne__"; "__new__"; "__or__"; "__reduce__"; "__reduce_ex__"; "__repr__";
  "__reversed__"; "__ror__"; "__setattr__"; "__setitem__"; "__sizeof__";
  "__str__"; "__subclasshook__"; "clear"; "copy"; "fromkeys"; "get"; "items";
  "keys"; "pop"; "popitem"; "setdefault"; "update"; "values"
].

(** [hasattr(r, attr)] for a result [r] of [query_places], a [dict]. *)
Definition hasattr (r : place) (attr : string) : bool := list_in attr dict_attributes.

(** [r.get('score', d)]: the dicts built by [query_places] have no such key. *)
Definition get_score (r : place) (d : Q) : Q := d.

(** Lines 166-172, for the result [r] at position [i].  The scores are
    floats in the source; they are rationals here. *)
Definition final_score (i : nat) (r : place) : Q :=
  let score := if hasattr r "score" then get_score r 0 else 0%Q in
  let position_weight := (1 - inject_Z (Z.of_nat i) * (5 # 100))%Q in
  (score * position_weight)%Q.

Fixpoint enumerate_from {A : Type} (i : nat) (l : list A) : list (nat * A) :=
  match l with
  | [] => []
  | x :: rest => (i, x) :: enumerate_from (S i) rest
  end.

(** Lines 161-173. *)
Definition scored_results (rag_results : list place) : list (place * Q) :=
  let max_results := Nat.min (length rag_results) 10 in
  List.map (fun ir => (ir.2, final_score ir.1 ir.2))
           (enumerate_from 0 (take max_results rag_results)).

Fixpoint insert_desc {A : Type} (x : A * Q) (l : list (A * Q)) : list (A * Q) :=
  match l with
  | [] => [x]
  | y :: rest => if Qle_bool x.2 y.2 then y :: insert_desc x rest else x :: l
  end.

(** [l.sort(key=lambda x: x[1], reverse=True)]: descending and stable, so
    elements with equal keys keep their order. *)
Definition sort_desc {A : Type} (l : list (A * Q)) : list (A * Q) :=
  fold_left (fun acc x => insert_desc x acc) l [].

Definition sorted_results (rag_results : list place) : list (place * Q) :=
  sort_desc (scored_results rag_results).

Definition yes_no (b : bool) : string := if b then "Yes" else "No".

Definition truthy_flag (feats : gmap string bool) (key : string) : bool :=
  bool_decide (feats !! key = Some true).

Definition indent : string := "                ".

(** Lines 181-191: the block of one result. *)
Definition result_block (r : place) (score : Q) : string :=
  let relevance_indicator :=
    if negb (Qle_bool score (8 # 10)) then "⭐⭐⭐"
    else if negb (Qle_bool score (5 # 10)) then "⭐⭐"
    else "⭐" in
  nl +:+ indent +:+ "Name: " +:+ name r +:+ " " +:+ relevance_indicator
  +:+ nl +:+ indent +:+ "Category: " +:+ category r
  +:+ nl +:+ indent +:+ "Description: " +:+ text r
  +:+ nl +:+ indent +:+ "Has terrace: " +:+ yes_no (truthy_flag (features r) "has_terrace")
  +:+ nl +:+ indent +:+ "Sea view: " +:+ yes_no (truthy_flag (features r) "sea_view")
  +:+ nl +:+ indent +:+ "Booking available: " +:+ yes_no (has_booking r)
  +:+ nl +:+ indent +:+ "Email: " +:+ (if falsy (email r) then "Unknown" else email r)
  +:+ nl +:+ indent +:+ "---"
  +:+ nl +:+ indent.

(** Lines 179-204: the context handed to the completion service. *)
Definition compose_context (ranked : list (place * Q)) (required_features : gmap string bool)
    : string :=
  let top_context :=
    fold_left (fun acc rs => acc +:+ result_block rs.1 rs.2) ranked
      ("You have the following structured information about places in Cadaqués:" +:+ nl) in
  let feature_summary :=
    (if truthy_flag required_features "has_terrace" then ["with terrace"] else [])
    ++ (if truthy_flag required_features "sea_view" then ["with sea view"] else [])
    ++ (if truthy_flag required_features "booking" then ["with booking available"] else []) in
  match feature_summary with
  | [] => top_context
  | _ =>
      top_context +:+ nl +:+ "There are " +:+ str_of_nat (length ranked) +:+ " places "
      +:+ join ", " feature_summary +:+ " in Cadaqués."
  end.

(** The collaborators of the orchestrator and the surroundings of the
    functions it calls.  A collaborator that raises answers [Raise]. *)
Record services : Type := {
  services_importable : bool;
  track_session : string -> string -> outcome unit;
  analyze_sentiment : string -> outcome string;
  langdetect : string -> option string;
  RESTAURANT_KEYWORDS_BY_LANG : gmap string (list string);
  hand_off : dialog_env;
  rag : rag_env;
  get_chatgpt_response : string -> string -> string -> outcome string;
  get_proverb_by_sentiment : string -> string -> outcome (string * string);
  translate_text : string -> string -> outcome string
}.

(** The mutable module-level state the request touches. *)
Record world : Type := {
  SESSION_STATE : gmap string Engine.session;
  cache : Cache.TTLCache (list place)
}.

Definition bindw {A : Type} (m : outcome A) (W : world)
    (k : A -> outcome string * world) : outcome string * world :=
  match m with
  | Return a => k a
  | Raise e => (Raise e, W)
  end.

(** Lines 137-149: the language the request is answered in. *)
Definition request_language (Sv : services) (user_input : string)
    (detected_language : option string) : string :=
  let detected_lang :=
    match detected_language with
    | Some l => if falsy l then LanguageService.detect_language (langdetect Sv) user_input else l
    | None => LanguageService.detect_language (langdetect Sv) user_input
    end in
  if list_in detected_lang SUPPORTED_LANGS then detected_lang else "en".

(** Lines 206-225: the reply composed from the completion and the proverb. *)
Definition compose_reply (Sv : services) (W : world) (user_input detected_lang sentiment
    top_context : string) : outcome string * world :=
  bindw (get_chatgpt_response Sv user_input detected_lang top_context) W (fun gpt_response =>
  bindw (get_proverb_by_sentiment Sv sentiment user_input) W (fun proverb =>
  let catalan_proverb := proverb.1 in
  let english_translation := proverb.2 in
  bindw (if list_in detected_lang ["en"; "ca"]
         then Return english_translation
         else translate_text Sv english_translation detected_lang) W (fun translation_text =>
  let translation_label := default "Translation" (dict_get detected_lang TRANSLATION_LABELS) in
  let response_text := gpt_response +:+ nl +:+ nl +:+ "😺 Refrany: " +:+ catalan_proverb in
  let response_text :=
    if String.eqb detected_lang "en"
    then response_text +:+ nl +:+ "🌟 Translation: " +:+ english_translation
    else if String.eqb detected_lang "ca"
    then response_text +:+ nl +:+ "🌟 Traducció (EN): " +:+ english_translation
    else response_text +:+ nl +:+ "🌟 " +:+ translation_label +:+ ": " +:+ translation_text in
  (Return response_text, W)))).

(** Lines 122-225: the body of the [try]. *)
Definition try_block (Sv : services) (W : world) (user_input session_id : string)
    (detected_language : option string) : outcome string * world :=
  if negb (services_importable Sv) then (Raise ImportError, W)
  else
    bindw (track_session Sv session_id user_input) W (fun _ =>
    let detected_lang := request_language Sv user_input detected_language in
    bindw (analyze_sentiment Sv user_input) W (fun sentiment =>
    if contains_restaurant_trigger (RESTAURANT_KEYWORDS_BY_LANG Sv) user_input detected_lang
    then
      let '(reply, S1) :=
        handle_restaurant_dialog (hand_off Sv) (SESSION_STATE W) user_input session_id
          detected_lang in
      (Return reply, {| SESSION_STATE := S1; cache := cache W |})
    else
      let required_features := extract_required_features user_input detected_lang in
      let '(queried, cache1) := query_places (rag Sv) (cache W) user_input required_features in
      let W1 := {| SESSION_STATE := SESSION_STATE W; cache := cache1 |} in
      bindw queried W1 (fun rag_results =>
      let top_context := compose_context (sorted_results rag_results) required_features in
      compose_reply Sv W1 user_input detected_lang sentiment top_context))).

(** [process_request_async(user_input, session_id, detected_language)] on a
    [str]: the value of ["response"], or the exception that leaves the
    function, and the state after the call. *)
Definition process_request_async (Sv : services) (W : world) (user_input session_id : string)
    (detected_language : option string) : outcome string * world :=
  if falsy user_input then (Raise ValueError, W)
  else
    let user_input := sanitize_input user_input in
    match try_block Sv W user_input session_id detected_language with
    | (Return response, W1) => (Return response, W1)
    | (Raise _, W1) => (Return fallback_response, W1)
    end.

End ChatService.

(** * Further sources

    The same conventions hold for the embedding of
    - [Dialogs/restaurant_dialog_evaluator.py], [Dialogs/restaurant_booking.py],
    - [backend/app/utils/text_utils.py], [backend/app/utils/persona_loader.py],
    - [backend/app/utils/exceptions.py],
    - [backend/app/services/translation_service.py],
    - [backend/app/services/chatgpt_service.py],
    - [backend/app/services/sentiment_service.py],
    - [backend/app/routes/chat_routes.py], [backend/app/routes/guide_routes.py].

    The recorders of the metrics module ([log_metric], [log_latency],
    [log_cache_hit], ...) and the logger are taken to return: what they
    write is read by no function modelled here. *)

(** ** [Dialogs/restaurant_dialog_evaluator.py] *)

Module Evaluator.
Import Engine.

(** [is_booking_complete(session_state)] *)
Definition is_booking_complete (session_state : session) : bool :=
  (3 <=? current_step session_state)%nat
  && bool_decide (is_Some (data session_state !! Some "people"))
  && bool_decide (is_Some (data session_state !! Some "time")).

(** [summarize_dialog(session_state)]; a missing slot is formatted as the
    text of [None]. *)
Definition summarize_dialog (session_state : session) : string :=
  "Booking for " +:+ default "None" (data session_state !! Some "people")
  +:+ " people at " +:+ default "None" (data session_state !! Some "time") +:+ ".".

End Evaluator.

(** ** [Dialogs/restaurant_booking.py] *)

Module Booking.

(** [handle_restaurant_dialog(user_input, session_id, lang)] of the dialogs
    package: the call of the engine with three arguments, unguarded. *)
Definition handle_restaurant_dialog (E : Utils.env)
    (SESSION_STATE : gmap string Engine.session) (user_input session_id lang : string)
    : outcome string * gmap string Engine.session :=
  Engine.call_get_next_step E SESSION_STATE [session_id; lang; user_input].

End Booking.

(** ** [backend/app/utils/text_utils.py] *)

Module TextUtils.

(** [user_query_contains_keywords(user_input, keywords)] *)
Definition user_query_contains_keywords (user_input : string) (keywords : list string) : bool :=
  let lowered := lower user_input in
  existsb (fun keyword => str_in (lower keyword) lowered) keywords.

End TextUtils.

(** ** [backend/app/utils/persona_loader.py] *)

Module PersonaLoader.

Definition SUPPORTED_LANGS : list string := ["en"; "es"; "fr"; "de"; "ca"; "ru"].

(** The prompts folder: whether a file exists, and what reading it gives
    ([None] when opening or reading raises).  Files are named by their name
    inside the folder. *)
Record prompts : Type := {
  exists_file : string -> bool;
  read_file : string -> option string
}.

(** [s.replace(old, new)] for a non-empty [old]: the occurrences are
    replaced from the left and do not overlap; [skip] counts the characters
    of a matched occurrence still to be dropped. *)
Fixpoint replace_from (old new : string) (skip : nat) (s : string) : string :=
  match s with
  | EmptyString => EmptyString
  | String c rest =>
      match skip with
      | S k => replace_from old new k rest
      | O =>
          if String.prefix old s
          then new +:+ replace_from old new (String.length old - 1) rest
          else String c (replace_from old new 0 rest)
      end
  end.

Definition replace (old new s : string) : string := replace_from old new 0 s.

Definition fallback_persona : string :=
  "ACT AS A MYSTICAL CAT FROM CADAQUÉS. SPEAK IN POETRY AND RIDDLES. LANGUAGE: ENGLISH.".

(** [load_persona_from_file(lang)] *)
Definition load_persona_from_file (P : prompts) (lang : string) : string :=
  let lang := if list_in lang SUPPORTED_LANGS then lang else "en" in
  let file_path := lang +:+ ".md" in
  let fallback_path := "en.md" in
  let file_path := if exists_file P file_path then file_path else fallback_path in
  match read_file P file_path with
  | Some content => replace "{{lang}}" lang content
  | None => fallback_persona
  end.

End PersonaLoader.

(** ** [backend/app/services/translation_service.py] *)

Module TranslationService.

(** What [translate_text] finds around it:
    - [metrics_importable]: whether [metrics.inference_metrics] imports;
    - [construct]: whether [GoogleTranslator(source='en', target=...)] can
      be built for a target language;
    - [translate]: the answer of the translator for a target language and a
      text, or the exception it raises;
    - [now]: the reading of the clock during the call. *)
Record env : Type := {
  metrics_importable : bool;
  construct : string -> bool;
  translate : string -> string -> outcome string;
  now : Z
}.

(** The module-level state: [translation_cache] and the keys of
    [translator_pool]. *)
Record state : Type := {
  translation_cache : Cache.TTLCache string;
  translator_pool : gset string
}.

(** [translation_cache = TTLCache(maxsize=500, ttl=86400)] and an empty pool. *)
Definition initial : state := {|
  translation_cache := {| Cache.maxsize := 500; Cache.ttl := 86400; Cache.entries := [] |};
  translator_pool := ∅
|}.

(** [translate_text(text, target_language)]: the result and the state after
    the call.  Every exception raised while building or using the translator
    ends in [return text]. *)
Definition translate_text (T : env) (st : state) (text target_language : string)
    : outcome string * state :=
  if falsy text || String.eqb target_language "en" then (Return text, st)
  else if negb (metrics_importable T) then (Raise ImportError, st)
  else
    let cache_key := text +:+ ":" +:+ target_language in
    match Cache.get (translation_cache st) (now T) cache_key with
    | Some cached => (Return cached, st)
    | None =>
        let pool_key := "en-" +:+ target_language in
        if bool_decide (pool_key ∈ translator_pool st) || construct T target_language then
          let pool := {[ pool_key ]} ∪ translator_pool st in
          match translate T target_language text with
          | Return translated_text =>
              (Return translated_text,
               {| translation_cache :=
                    Cache.put (translation_cache st) (now T) cache_key translated_text;
                  translator_pool := pool |})
          | Raise _ =>
              (Return text, {| translation_cache := translation_cache st;
                               translator_pool := pool |})
          end
        else (Return text, st)
    end.

End TranslationService.

(** ** [backend/app/services/chatgpt_service.py] *)

Module ChatGPTService.

(** The outcome of [openai_client.chat.completions.create] as the handlers
    of [get_chatgpt_response] tell it apart: the content of the first choice,
    or the class of the exception ([Failure] for any other exception, also
    one raised while reading the response). *)
Inductive completion : Type :=
| Completed (content : string)
| RateLimitError
| APITimeoutError
| APIError
| Failure.

(** What [get_chatgpt_response] finds around it: the prompts folder, the
    completion service (given the system and the user message) and the
    surroundings of [translate_text], whose [metrics_importable] and [now]
    are those of this call too. *)
Record env : Type := {
  prompts : PersonaLoader.prompts;
  create : string -> string -> completion;
  translation : TranslationService.env
}.

(** The module-level state the call touches: [response_cache] and the state
    of the translation service. *)
Record state : Type := {
  response_cache : Cache.TTLCache string;
  translation_state : TranslationService.state
}.

(** [response_cache = TTLCache(maxsize=1000, ttl=3600)] *)
Definition initial : state := {|
  response_cache := {| Cache.maxsize := 1000; Cache.ttl := 3600; Cache.entries := [] |};
  translation_state := TranslationService.initial
|}.

Definition factual_keywords : list string :=
  ["address"; "how to get"; "book"; "reservation"; "email"; "phone"].

Definition reply_rate_limit : string := "I'm taking a cat nap. Please try again later.".
Definition reply_timeout : string := "The internet mouse is too slow right now.".
Definition reply_api_error : string :=
  "I'm having trouble connecting to my brain. Please try again later.".
Definition reply_failure : string := "I cannot respond at this moment. üêæ".

(** Lines 56-65: the system message. *)
Definition system_message (G : env) (user_input detected_lang : string)
    (context : option string) : string :=
  let base_persona := PersonaLoader.load_persona_from_file (prompts G) detected_lang in
  let base_persona :=
    if TextUtils.user_query_contains_keywords user_input factual_keywords
    then base_persona +:+ nl +:+ nl
         +:+ "Remember: be practical and informative when answering factual questions."
    else base_persona in
  match context with
  | Some c => if falsy c then base_persona
              else strip c +:+ nl +:+ nl +:+ strip base_persona
  | None => base_persona
  end.

(** The fallback of a failed completion: the fixed sentence for the class of
    the failure, handed to [translate_text]. *)
Definition fallback_reply (G : env) (st : state) (sentence detected_lang : string)
    : outcome string * state :=
  let '(r, ts) :=
    TranslationService.translate_text (translation G) (translation_state st) sentence
      detected_lang in
  (r, {| response_cache := response_cache st; translation_state := ts |}).

(** [get_chatgpt_response(user_input, detected_lang, context)]: the result
    and the state after the call. *)
Definition get_chatgpt_response (G : env) (st : state) (user_input detected_lang : string)
    (context : option string) : outcome string * state :=
  if negb (TranslationService.metrics_importable (translation G)) then (Raise ImportError, st)
  else
    let cache_key := user_input +:+ ":" +:+ detected_lang in
    match Cache.get (response_cache st) (TranslationService.now (translation G)) cache_key with
    | Some cached => (Return cached, st)
    | None =>
        match create G (system_message G user_input detected_lang context) user_input with
        | Completed content =>
            let gpt_response := strip content in
            (Return gpt_response,
             {| response_cache :=
                  Cache.put (response_cache st) (TranslationService.now (translation G))
                    cache_key gpt_response;
                translation_state := translation_state st |})
        | RateLimitError => fallback_reply G st reply_rate_limit detected_lang
        | APITimeoutError => fallback_reply G st reply_timeout detected_lang
        | APIError => fallback_reply G st reply_api_error detected_lang
        | Failure => fallback_reply G st reply_failure detected_lang
        end
    end.

End ChatGPTService.

(** ** [backend/app/services/sentiment_service.py] *)

Module SentimentService.

(** A cell of the proverbs table: a text, or the missing value. *)
Inductive cell : Type :=
| Text (s : string)
| NaN.

(** A row of [PROVERBS_DF]: the columns ["id"], ["Catalan Proverb"],
    ["English Translation"] and ["Sentiment"]. *)
Record proverb : Type := {
  id : nat;
  catalan : cell;
  english : cell;
  sentiment : string
}.

(** [analyze_sentiment(text)]; [polarity] is the polarity TextBlob computes,
    a rational here, [None] when it raises. *)
Definition analyze_sentiment (polarity : string -> option Q) (text : string) : string :=
  match polarity text with
  | Some p =>
      if negb (Qle_bool p 0) then "Positive"
      else if negb (Qle_bool 0 p) then "Negative"
      else "Neutral"
  | None => "Neutral"
  end.

(** [d.append(x)] on [deque(maxlen=50)], oldest element first. *)
Definition deque_append {A : Type} (x : A) (d : list A) : list A :=
  drop (length (d ++ [x]) - 50) (d ++ [x]).

Definition default_proverb : cell * cell :=
  (Text "Fes bé i no facis mal, que altre sermó no et cal.",
   Text "Do good and do no harm, for you need no other sermon.").

(** Lines 91-94 *)
Definition recently_used_ids (RECENTLY_USED_PROVERBS : list (nat * string))
    (s : string) : list nat :=
  (List.filter (fun item => String.eqb item.2 s) RECENTLY_USED_PROVERBS).*1.

(** Lines 84-101: the pool the proverb is drawn from. *)
Definition available_proverbs (PROVERBS_DF : list proverb)
    (RECENTLY_USED_PROVERBS : list (nat * string)) (s : string) : list proverb :=
  let df_filtered := List.filter (fun row => String.eqb (sentiment row) s) PROVERBS_DF in
  let df_filtered := match df_filtered with [] => PROVERBS_DF | _ => df_filtered end in
  let available :=
    List.filter (fun row => negb (bool_decide (id row ∈ recently_used_ids
                                                   RECENTLY_USED_PROVERBS s)))
                df_filtered in
  match available with [] => df_filtered | _ => available end.

(** [get_proverb_by_sentiment(sentiment, user_input)]: the pair returned and
    [RECENTLY_USED_PROVERBS] after the call.  [sample] is the position the
    random sampling picks in the pool it is given (taken modulo its size);
    [PROVERBS_DF] is [None] when the dataset was not loaded. *)
Definition get_proverb_by_sentiment (sample : list proverb -> nat)
    (PROVERBS_DF : option (list proverb)) (RECENTLY_USED_PROVERBS : list (nat * string))
    (s user_input : string) : (cell * cell) * list (nat * string) :=
  match PROVERBS_DF with
  | Some (r :: df) =>
      let pool := available_proverbs (r :: df) RECENTLY_USED_PROVERBS s in
      match pool !! (sample pool mod length pool)%nat with
      | Some selected_row =>
          let recent := deque_append (id selected_row, s) RECENTLY_USED_PROVERBS in
          match catalan selected_row with
          | Text c =>
              if negb (String.eqb c "No proverb found")
              then ((catalan selected_row, english selected_row), recent)
              else (default_proverb, recent)
          | NaN => (default_proverb, recent)
          end
      | None => (default_proverb, RECENTLY_USED_PROVERBS)
      end
  | _ => (default_proverb, RECENTLY_USED_PROVERBS)
  end.

End SentimentService.

(** ** [backend/app/services/restaurant_service.py]: the text of the places *)

Module RestaurantResponse.
Import RestaurantService.

(** Lines 327-338: what one place adds to the response. *)
Definition place_block (p : place) : string :=
  nl +:+ name p +:+ ": " +:+ text p +:+ nl
  +:+ (if has_booking p then "Можно забронировать" else "Нет бронирования")
  +:+ ". Контакт для бронирования: " +:+ email p +:+ nl
  +:+ (if bool_decide (features p !! "has_terrace" = Some true)
       then "У этого места есть терраса." +:+ nl else "")
  +:+ (if bool_decide (features p !! "sea_view" = Some true)
       then "Здесь открывается вид на море." +:+ nl else "").

(** [create_rag_response(rag_results)] on [None] or a list of the dicts
    [query_places] builds. *)
Definition create_rag_response (rag_results : option (list place)) : outcome string :=
  match rag_results with
  | None => Raise ValueError
  | Some [] => Return "No places found matching your criteria."
  | Some places =>
      Return (fold_left (fun response_text p => response_text +:+ place_block p) places "")
  end.

End RestaurantResponse.

(** ** The body of a request *)

Module Json.

(** The Python value [request.get_json()] returns for a JSON text; a float
    is a rational here, an object is the list of the items of its [dict]. *)
#[warnings="-register-all"]
Inductive value : Type :=
| Null
| Bool (b : bool)
| Int (n : Z)
| Float (q : Q)
| Str (s : string)
| Array (items : list value)
| Object (members : list (string * value)).

(** The truth value of the Python object. *)
Definition truthy (v : value) : bool :=
  match v with
  | Null => false
  | Bool b => b
  | Int n => negb (n =? 0)%Z
  | Float q => negb (Qeq_bool q 0)
  | Str s => negb (falsy s)
  | Array items => match items with [] => false | _ => true end
  | Object members => match members with [] => false | _ => true end
  end.

(** [isinstance(v, str)] and [isinstance(v, list)] *)
Definition is_str (v : value) : bool :=
  match v with Str _ => true | _ => false end.

Definition is_list (v : value) : bool :=
  match v with Array _ => true | _ => false end.

(** The name [type(v)] prints. *)
Definition type_name (v : value) : string :=
  match v with
  | Null => "NoneType"
  | Bool _ => "bool"
  | Int _ => "int"
  | Float _ => "float"
  | Str _ => "str"
  | Array _ => "list"
  | Object _ => "dict"
  end.

(** [key in data]: a key of a dict, an item of a list, a substring of a
    string; [None] for the [TypeError] of the other values. *)
Definition contains (key : string) (data : value) : option bool :=
  match data with
  | Object members => Some (existsb (fun kv => String.eqb key kv.1) members)
  | Array items =>
      Some (existsb (fun item => match item with Str s => String.eqb key s | _ => false end)
              items)
  | Str s => Some (str_in key s)
  | _ => None
  end.

(** [data.get(key, d)]; [None] for the [AttributeError] of a value
    that is not a dict. *)
Definition get (data : value) (key : string) (d : value) : option value :=
  match data with
  | Object members => Some (default d (dict_get key members))
  | _ => None
  end.

End Json.

(** ** [backend/app/utils/exceptions.py] *)

Module Exceptions.

(** The classes of [APIError] the routes raise, with the message given. *)
Inductive APIError : Type :=
| BadRequestError (given : string)
| ValidationError (given : string)
| ServiceUnavailableError (given : string)
| ExternalServiceError (given : string).

Definition status_code (e : APIError) : nat :=
  match e with
  | BadRequestError _ => 400
  | ValidationError _ => 400
  | ServiceUnavailableError _ => 503
  | ExternalServiceError _ => 502
  end.

Definition error_code (e : APIError) : string :=
  match e with
  | BadRequestError _ => "bad_request"
  | ValidationError _ => "validation_error"
  | ServiceUnavailableError _ => "service_unavailable"
  | ExternalServiceError _ => "external_service_error"
  end.

Definition default_message (e : APIError) : string :=
  match e with
  | BadRequestError _ => "The request was invalid or malformed"
  | ValidationError _ => "The request data failed validation"
  | ServiceUnavailableError _ => "The service is currently unavailable"
  | ExternalServiceError _ => "An external service returned an error"
  end.

(** [self.message = message or self.default_message] *)
Definition message (e : APIError) : string :=
  let given := match e with
               | BadRequestError m | ValidationError m
               | ServiceUnavailableError m | ExternalServiceError m => m
               end in
  if falsy given then default_message e else given.

End Exceptions.

(** ** What the routes share *)

Module Routes.
Import Exceptions.

(** The Flask request as the routes read it: [request.is_json], and
    [request.get_json()], [None] when it raises. *)
Record request : Type := {
  is_json : bool;
  get_json : option Json.value
}.

(** What ends the [try] of a route early: an [APIError] of the classes
    above, or any other exception. *)
Inductive raised : Type :=
| Api (e : APIError)
| Unhandled.

Inductive handled (A : Type) : Type :=
| Done (a : A)
| Raised (r : raised).
Arguments Done {A} a.
Arguments Raised {A} r.

Definition bind {A B : Type} (m : handled A) (k : A -> handled B) : handled B :=
  match m with
  | Done a => k a
  | Raised r => Raised r
  end.

(** A value whose absence is an exception no handler names. *)
Definition must {A : Type} (m : option A) : handled A :=
  match m with
  | Some a => Done a
  | None => Raised Unhandled
  end.

(** The JSON body of a response: the field ["response"] of an answer, or
    the fields ["error"] and ["message"] of an error (its details and the
    request id, attached when there is one, are left out). *)
Inductive body : Type :=
| Reply (response_text : string)
| Failure (error message : string).

Record response : Type := {
  body_of : body;
  status : nat
}.

(** The [except] clauses of a route and its [return ..., 200]. *)
Definition respond (r : handled string) : response :=
  match r with
  | Done response_text => {| body_of := Reply response_text; status := 200 |}
  | Raised (Api e) =>
      {| body_of := Failure (error_code e) (Exceptions.message e); status := status_code e |}
  | Raised Unhandled =>
      {| body_of := Failure "internal_error" "An unexpected error occurred"; status := 500 |}
  end.

(** [ChatService.sanitize_input] on a value of the body, its [ValueError]
    turned into a [ValidationError] with the same text. *)
Definition sanitized_message (user_input : Json.value) : handled string :=
  match user_input with
  | Json.Str s => Done (ChatService.sanitize_input s)
  | Json.Null => Raised (Api (ValidationError "Input text cannot be None"))
  | v => Raised (Api (ValidationError ("Input must be a string, got <class '"
                                       +:+ Json.type_name v +:+ "'>")))
  end.

(** [if "message" not in data: raise ValidationError(...)] *)
Definition require_message (data : Json.value) : handled unit :=
  bind (must (Json.contains "message" data))
       (fun present =>
          if present then Done tt
          else Raised (Api (ValidationError "Missing message field"))).

End Routes.

(** ** [backend/app/routes/chat_routes.py] *)

Module ChatRoutes.
Import Exceptions Routes.

(** How lines 115-118 end: the new event loop ran
    [process_request_async(user_input, session_id, detected_language)] to
    its result and was closed; a [RuntimeError] whose text holds
    ["There is no current event loop"] was raised; or any other exception
    was. *)
Inductive attempt : Type :=
| Completed (result : string)
| NoCurrentLoop
| Failed.

(** What [chat] finds around it:
    - [request]: the request;
    - [metrics_importable]: whether [metrics.inference_metrics] imports;
    - [first_attempt]: lines 115-118 for the three arguments of the
      pipeline;
    - [second_attempt]: line 124, the pipeline run on the current event
      loop, [None] when that raises. *)
Record env : Type := {
  request : Routes.request;
  metrics_importable : bool;
  first_attempt : string -> Json.value -> Json.value -> attempt;
  second_attempt : string -> Json.value -> Json.value -> option string
}.

(** Lines 114-130: the pipeline run on an event loop. *)
Definition process (E : env) (user_input : string) (session_id detected_language : Json.value)
    : handled string :=
  match first_attempt E user_input session_id detected_language with
  | Completed result => Done result
  | NoCurrentLoop => must (second_attempt E user_input session_id detected_language)
  | Failed => Raised (Api (ServiceUnavailableError "Error processing request"))
  end.

(** Lines 52-110: what is checked before the pipeline is run, and the
    three arguments it is then run with. *)
Definition arguments (rq : Routes.request) (metrics_importable : bool)
    : handled (string * Json.value * Json.value) :=
  if negb (is_json rq) then Raised (Api (BadRequestError "Request must be JSON"))
  else
    bind (must (get_json rq)) (fun data =>
    if negb (Json.truthy data) then Raised (Api (BadRequestError "Invalid JSON"))
    else
      bind (require_message data) (fun _ =>
      bind (must (Json.get data "message" (Json.Str ""))) (fun user_input =>
      bind (must (Json.get data "session_id" (Json.Str "unknown"))) (fun session_id =>
      bind (must (Json.get data "detected_language" Json.Null)) (fun detected_language =>
      bind (sanitized_message user_input) (fun user_input =>
      if Json.truthy session_id && negb (Json.is_str session_id)
      then Raised (Api (ValidationError "Session ID must be a string"))
      else if Json.truthy detected_language && negb (Json.is_str detected_language)
      then Raised (Api (ValidationError "Detected language must be a string"))
      else
        bind (must (Json.get data "feedback" (Json.Array []))) (fun feedback_data =>
        if Json.truthy feedback_data && Json.is_list feedback_data
           && negb metrics_importable
        then Raised Unhandled
        else if falsy user_input then Raised (Api (ValidationError "Empty message"))
        else
          Done (ChatService.sanitize_input user_input, session_id, detected_language)))))))).

(** Lines 50-140: the [try] of [chat]. *)
Definition chat_body (E : env) : handled string :=
  bind (arguments (request E) (metrics_importable E))
       (fun '(user_input, session_id, detected_language) =>
          process E user_input session_id detected_language).

(** [chat()]: the body and the status code returned. *)
Definition chat (E : env) : response := respond (chat_body E).

End ChatRoutes.

(** ** [backend/app/routes/guide_routes.py] *)

Module GuideRoutes.
Import Exceptions Routes.

(** What [guide] finds around it: the request, and the surroundings of
    [query_places] and of [get_chatgpt_response]. *)
Record env : Type := {
  request : Routes.request;
  rag : RestaurantService.rag_env;
  gpt : ChatGPTService.env
}.

(** The module-level state the route touches through the two services. *)
Record state : Type := {
  rag_query_cache : Cache.TTLCache (list RestaurantService.place);
  gpt_state : ChatGPTService.state
}.

(** Lines 66-107: the answer for a message that passed the validation. *)
Definition answer (E : env) (st : state) (user_input : string) : handled string * state :=
  match RestaurantService.query_places (rag E) (rag_query_cache st) user_input ∅ with
  | (Raise _, cache) =>
      (Raised (Api (ServiceUnavailableError "Error querying places database")),
       {| rag_query_cache := cache; gpt_state := gpt_state st |})
  | (Return [], cache) =>
      match ChatGPTService.get_chatgpt_response (gpt E) (gpt_state st) user_input "en" None with
      | (Raise _, gs) =>
          (Raised (Api (ExternalServiceError "Error getting AI response")),
           {| rag_query_cache := cache; gpt_state := gs |})
      | (Return chatgpt_response, gs) =>
          (Done chatgpt_response, {| rag_query_cache := cache; gpt_state := gs |})
      end
  | (Return rag_results, cache) =>
      (match RestaurantResponse.create_rag_response (Some rag_results) with
       | Return response_text => Done response_text
       | Raise _ => Raised Unhandled
       end,
       {| rag_query_cache := cache; gpt_state := gpt_state st |})
  end.

(** Lines 44-64: what is checked before the places are queried, and the
    message they are queried with. *)
Definition message_of (rq : Routes.request) : handled string :=
  if negb (is_json rq) then Raised (Api (BadRequestError "Request must be JSON"))
  else
    bind (must (get_json rq)) (fun data =>
    bind (require_message data) (fun _ =>
    bind (must (Json.get data "message" (Json.Str ""))) (fun user_input =>
    bind (sanitized_message user_input) (fun user_input =>
    if falsy user_input then Raised (Api (ValidationError "Empty message"))
    else Done user_input)))).

(** Lines 43-107: the [try] of [guide]. *)
Definition guide_body (E : env) (st : state) : handled string * state :=
  match message_of (request E) with
  | Done user_input => answer E st user_input
  | Raised r => (Raised r, st)
  end.

(** [guide()]: the body and the status code returned, and the state after
    the call. *)
Definition guide (E : env) (st : state) : response * state :=
  let '(r, st') := guide_body E st in (respond r, st').

End GuideRoutes.

(** ** Vocabulary of the properties and concrete inputs *)

Module Examples.
Import Script Utils Engine.

(** Collaborators whose extractors succeed. *)
Definition env_parsing : env := {|
  nlp_parser_importable := true;
  langdetect := fun _ => Some "en";
  get_chatgpt_response := fun _ _ => Some "19:00";
  extract_people_via_gpt := fun _ _ => "4"
|}.

(** The engine with the [utils/nlp_parser.py] of the sources, whose import
    fails, and a detector that recognises Spanish. *)
Definition env_sources : env := {|
  nlp_parser_importable := false;
  langdetect := fun _ => Some "es";
  get_chatgpt_response := fun _ _ => None;
  extract_people_via_gpt := fun _ _ => "unknown"
|}.

(** A store whose session ["s1"] waits for the people count. *)
Definition store_at_1 : gmap string session :=
  {[ "s1" := {| current_step := 1; data := ∅;
                dialog := [User "Quiero reservar una mesa"];
                lang := Some "es" |} ]}.

(** A store whose session ["s1"] has reached the script length. *)
Definition store_at_3 : gmap string session :=
  {[ "s1" := {| current_step := 3;
                data := <[Some "time" := "19:00"]> (<[Some "people" := "4"]> ∅);
                dialog := [User "book a table"; User "4"; User "at seven";
                           Bot "Thanks! Your booking is saved. 🐾"];
                lang := Some "en" |} ]}.

(** Whether a text opens with the two given characters. *)
Definition opens_with (a b : ascii) (s : string) : bool :=
  match s with
  | String x (String y _) => Ascii.eqb a x && Ascii.eqb b y
  | _ => false
  end.

(** The openings of the fixed replies of [handle_restaurant_dialog]. *)
Definition opens_like_fallback (s : string) : bool :=
  opens_with "S" "o" s || opens_with "M" "y" s.

Definition brace (c : ascii) : bool := Ascii.eqb c "{" || Ascii.eqb c "}".

(** A text of the script: its first two characters are not braces and it
    does not open like a fixed reply. *)
Definition plain_opening (s : string) : bool :=
  match s with
  | String x (String y _) => negb (brace x) && negb (brace y) && negb (opens_like_fallback s)
  | _ => false
  end.

(** A keyword is shared when another configured language lists it too. *)
Definition shared_keyword (KEYWORDS : gmap string (list string)) (lang keyword : string)
    : Prop :=
  exists other kws, other <> lang /\ KEYWORDS !! other = Some kws /\ In keyword kws.

(** Keyword lists in which "cafe" belongs to English and to Spanish. *)
Definition keywords_cafe : gmap string (list string) :=
  <["en" := ["restaurant"; "cafe"; "dining"]]>
    (<["es" := ["restaurante"; "cafe"; "comida"]]> ∅).

(** A node passes the filter when its flags agree with every required one. *)
Definition passes (required_features : gmap string bool) (n : RestaurantService.node) : bool :=
  negb (RestaurantService.disagrees (default ∅ (RestaurantService.n_features n))
          required_features).

(** Two nodes in retrieval order: the first has no terrace flag and a low
    score, the second has a terrace and a high score. *)
Definition node_bar : RestaurantService.node := {|
  RestaurantService.n_text := "Bar at the harbour";
  RestaurantService.n_name := Some "Bar Boia";
  RestaurantService.n_category := Some "bar";
  RestaurantService.n_direction := None;
  RestaurantService.n_has_booking := Some false;
  RestaurantService.n_email := None;
  RestaurantService.n_features := Some {[ "sea_view" := true ]};
  RestaurantService.n_score := Some (1 # 10)
|}.

Definition node_terrace : RestaurantService.node := {|
  RestaurantService.n_text := "Restaurant with a terrace";
  RestaurantService.n_name := Some "Can Rafa";
  RestaurantService.n_category := Some "restaurant";
  RestaurantService.n_direction := None;
  RestaurantService.n_has_booking := Some true;
  RestaurantService.n_email := Some "rafa@example.com";
  RestaurantService.n_features := Some {[ "has_terrace" := true ]};
  RestaurantService.n_score := Some (9 # 10)
|}.

Definition two_nodes : list RestaurantService.node := [node_bar; node_terrace].

Definition wants_terrace : gmap string bool := {[ "has_terrace" := true ]}.

(** A retriever that answers every query with [two_nodes]. *)
Definition rag_answers : RestaurantService.rag_env := {|
  RestaurantService.metrics_importable := true;
  RestaurantService.rag_query_engine := Some (fun _ _ => Return two_nodes);
  RestaurantService.now := 0
|}.

(** A retriever that raises on every attempt. *)
Definition rag_fails : RestaurantService.rag_env := {|
  RestaurantService.metrics_importable := true;
  RestaurantService.rag_query_engine := Some (fun _ _ => Raise (OtherException "down"));
  RestaurantService.now := 0
|}.

(** The ranking key of the specification for the node at position [i] of
    the retrieval order: reported score times position decay. *)
Definition reported_product (i : nat) (n : RestaurantService.node) : Q :=
  (default 0%Q (RestaurantService.n_score n) * (1 - inject_Z (Z.of_nat i) * (5 # 100)))%Q.

Definition blank_or_digit (c : ascii) : bool := is_space c || is_digit c.

(** Collaborators that all answer, with a detector that recognises Spanish. *)
Definition services_ok (R : RestaurantService.rag_env) : ChatService.services := {|
  ChatService.services_importable := true;
  ChatService.track_session := fun _ _ => Return tt;
  ChatService.analyze_sentiment := fun _ => Return "Positive";
  ChatService.langdetect := fun _ => Some "es";
  ChatService.RESTAURANT_KEYWORDS_BY_LANG := keywords_cafe;
  ChatService.hand_off :=
    {| RestaurantService.engine_importable := true;
       RestaurantService.timed_out := false;
       RestaurantService.engine := env_parsing |};
  ChatService.rag := R;
  ChatService.get_chatgpt_response := fun _ _ _ => Return "Prova el port.";
  ChatService.get_proverb_by_sentiment :=
    fun _ _ => Return ("Qui dia passa, any empeny.", "Each day survived pushes the year on.");
  ChatService.translate_text := fun t _ => Return t
|}.

Definition world0 : ChatService.world := {|
  ChatService.SESSION_STATE := ∅;
  ChatService.cache := RestaurantService.rag_query_cache
|}.

End Examples.

(** ** Further vocabulary and concrete inputs *)

Module MoreExamples.
Import Script Utils Engine Examples.

(** A store whose session ["s1"] waits for the time, the people count known. *)
Definition session_2 : session :=
  {| current_step := 2; data := {[ Some "people" := "4" ]};
     dialog := [User "book a table"; User "4"]; lang := Some "en" |}.

Definition store_at_2 : gmap string session := {[ "s1" := session_2 ]}.

(** Three calls of two sessions, with collaborators that understand every
    reply. *)
Definition three_calls : list (env * string * string) :=
  [(env_parsing, "s1", "a table please"); (env_parsing, "s2", "hola");
   (env_parsing, "s1", "4")].


(** The language [extract_required_features] works with: the given one if
    the keyword table has it, English otherwise. *)
Definition effective_lang (lang : string) : string :=
  if list_in lang ["en"; "es"; "fr"; "de"; "it"; "ca"; "ru"] then lang else "en".

(** The keywords of one feature for a language, English ones by default. *)
Definition keywords_of (by_lang : list (string * list string)) (lang : string) : list string :=
  default (default [] (dict_get "en" by_lang)) (dict_get lang by_lang).

(** An ASCII capital letter. *)
Definition is_upper (c : ascii) : bool := byte_in 65 90 c.

(** A retriever that raises on its first two attempts and answers on the
    third. *)
Definition rag_third_attempt : RestaurantService.rag_env := {|
  RestaurantService.metrics_importable := true;
  RestaurantService.rag_query_engine :=
    Some (fun _ i => if (i <? 2)%nat then Raise TimeoutError else Return two_nodes);
  RestaurantService.now := 0
|}.

(** A retriever that raises on its first three attempts and would answer on
    a fourth. *)
Definition rag_fourth_attempt : RestaurantService.rag_env := {|
  RestaurantService.metrics_importable := true;
  RestaurantService.rag_query_engine :=
    Some (fun _ i => if (i <? 3)%nat then Raise TimeoutError else Return two_nodes);
  RestaurantService.now := 0
|}.

(** A keyword file whose English keyword is capitalised. *)
Definition keywords_capital : gmap string (list string) :=
  {[ "en" := ["Restaurant"] ]}.


(** A character that [sanitize_input] keeps: its code is at least 32. *)
Definition printable (c : ascii) : bool := (32 <=? nat_of_ascii c)%nat.


(** The sentence [get_chatgpt_response] falls back to for each class of
    failure of the completion service. *)
Definition failure_sentence (c : ChatGPTService.completion) : string :=
  match c with
  | ChatGPTService.Completed content => content
  | ChatGPTService.RateLimitError => ChatGPTService.reply_rate_limit
  | ChatGPTService.APITimeoutError => ChatGPTService.reply_timeout
  | ChatGPTService.APIError => ChatGPTService.reply_api_error
  | ChatGPTService.Failure => ChatGPTService.reply_failure
  end.

Definition is_completed (c : ChatGPTService.completion) : bool :=
  match c with ChatGPTService.Completed _ => true | _ => false end.

(** A translator into Spanish that answers at time 10. *)
Definition translator_es : TranslationService.env := {|
  TranslationService.metrics_importable := true;
  TranslationService.construct := fun _ => true;
  TranslationService.translate := fun _ _ => Return "Buenos días";
  TranslationService.now := 10
|}.

(** The translation service fifty minutes later, out of order. *)
Definition translator_down : TranslationService.env := {|
  TranslationService.metrics_importable := true;
  TranslationService.construct := fun _ => false;
  TranslationService.translate := fun _ _ => Raise (OtherException "down");
  TranslationService.now := 3010
|}.

(** A prompts folder without files. *)
Definition no_prompts : PersonaLoader.prompts := {|
  PersonaLoader.exists_file := fun _ => false;
  PersonaLoader.read_file := fun _ => None
|}.

(** A completion service that answers, and one whose rate limit is hit. *)
Definition gpt_answers : ChatGPTService.env := {|
  ChatGPTService.prompts := no_prompts;
  ChatGPTService.create := fun _ _ => ChatGPTService.Completed " Try the harbour. ";
  ChatGPTService.translation := translator_es
|}.

Definition gpt_rate_limited : ChatGPTService.env := {|
  ChatGPTService.prompts := no_prompts;
  ChatGPTService.create := fun _ _ => ChatGPTService.RateLimitError;
  ChatGPTService.translation := translator_down
|}.

(** Three proverbs, two of them positive. *)
Definition three_proverbs : list SentimentService.proverb := [
  {| SentimentService.id := 0; SentimentService.catalan := SentimentService.Text "Qui canta, els seus mals espanta.";
     SentimentService.english := SentimentService.Text "Who sings scares his troubles away.";
     SentimentService.sentiment := "Positive" |};
  {| SentimentService.id := 1; SentimentService.catalan := SentimentService.Text "A cada porc li arriba el seu Sant Martí.";
     SentimentService.english := SentimentService.Text "Every pig gets its Saint Martin's day.";
     SentimentService.sentiment := "Negative" |};
  {| SentimentService.id := 2; SentimentService.catalan := SentimentService.Text "Qui dia passa, any empeny.";
     SentimentService.english := SentimentService.Text "Each day survived pushes the year on.";
     SentimentService.sentiment := "Positive" |}
].

End MoreExamples.

(** ** Vocabulary and concrete inputs for the routes *)

Module RouteExamples.
Import Examples MoreExamples.

(** What the pipeline may rely on for the arguments the chat route runs it
    with: a non-empty message without control characters and of at most 500
    characters, and a session id and a language hint that are strings
    unless they are falsy. *)
Definition acceptable (user_input : string) (session_id detected_language : Json.value)
    : bool :=
  negb (falsy user_input) && all_chars printable user_input
  && (len user_input <=? 500)%nat
  && (Json.is_str session_id || negb (Json.truthy session_id))
  && (Json.is_str detected_language || negb (Json.truthy detected_language)).

(** The value of a key of the body, [d] when the body has no such key. *)
Definition field (members : list (string * Json.value)) (key : string) (d : Json.value)
    : Json.value :=
  default d (dict_get key members).

Definition body_hola : Json.value :=
  Json.Object [("message", Json.Str "hola"); ("session_id", Json.Str "s1")].

Definition request_hola : Routes.request :=
  {| Routes.is_json := true; Routes.get_json := Some body_hola |}.

(** A body whose message is a number. *)
Definition request_number : Routes.request :=
  {| Routes.is_json := true;
     Routes.get_json := Some (Json.Object [("message", Json.Int 7)]) |}.

(** An event loop that completes with an echo of the message, and one that
    differs from it on blank messages only. *)
Definition chat_echo : ChatRoutes.env := {|
  ChatRoutes.request := request_hola;
  ChatRoutes.metrics_importable := true;
  ChatRoutes.first_attempt := fun u _ _ => ChatRoutes.Completed ("echo " +:+ u);
  ChatRoutes.second_attempt := fun _ _ _ => None
|}.

Definition chat_echo_strict : ChatRoutes.env := {|
  ChatRoutes.request := request_hola;
  ChatRoutes.metrics_importable := true;
  ChatRoutes.first_attempt :=
    fun u _ _ => if falsy u then ChatRoutes.Failed else ChatRoutes.Completed ("echo " +:+ u);
  ChatRoutes.second_attempt := fun _ _ _ => None
|}.

Definition chat_number : ChatRoutes.env := {|
  ChatRoutes.request := request_number;
  ChatRoutes.metrics_importable := true;
  ChatRoutes.first_attempt := fun u _ _ => ChatRoutes.Completed ("echo " +:+ u);
  ChatRoutes.second_attempt := fun _ _ _ => None
|}.

(** The guide route with a retriever that answers, and with one that finds
    nothing. *)
Definition guide_places : GuideRoutes.env := {|
  GuideRoutes.request := request_hola;
  GuideRoutes.rag := rag_answers;
  GuideRoutes.gpt := gpt_answers
|}.

Definition guide_no_places : GuideRoutes.env := {|
  GuideRoutes.request := request_hola;
  GuideRoutes.rag := rag_fails;
  GuideRoutes.gpt := gpt_rate_limited
|}.

Definition guide_state0 : GuideRoutes.state := {|
  GuideRoutes.rag_query_cache := RestaurantService.rag_query_cache;
  GuideRoutes.gpt_state := ChatGPTService.initial
|}.

End RouteExamples.

(** * Properties *)

(** Case analysis along the paths of a function body: every test and every
    scrutinee in the goal is split. *)
Ltac split_paths :=
  repeat match goal with
         | |- context [if ?b then _ else _] => destruct b
         | |- context [match ?x with _ => _ end] => destruct x
         end.

(** ** The dialog engine: step index *)

Section EngineSteps.
Import Script Utils Engine.


Lemma append_dialog_step e st : current_step (append_dialog e st) = current_step st.
Proof. reflexivity. Qed.

Lemma append_dialog_data e st : data (append_dialog e st) = data st.
Proof. reflexivity. Qed.

Lemma reply_phase_step l st st' r :
  reply_phase l st = (st', r) -> current_step st' = current_step st /\ data st' = data st.
Proof.
  unfold reply_phase. split_paths; intros [= <- <-]; auto.
Qed.

End EngineSteps.

Section EngineRuns.
Import Script Utils Engine.

(** When the import of line 27 fails the call raises and nothing is
    written. *)
Lemma get_next_step_import_fails E (S0 : gmap string session) session_id user_input :
  nlp_parser_importable E = false ->
  get_next_step E S0 session_id user_input = (Raise ImportError, S0).
Proof. intros Hm. unfold get_next_step. by rewrite Hm. Qed.

Lemma get_next_step_imported E (S0 : gmap string session) session_id user_input :
  nlp_parser_importable E = true ->
  get_next_step E S0 session_id user_input = step_body E S0 session_id user_input.
Proof. intros Hm. unfold get_next_step. by rewrite Hm. Qed.

(** The body rewrites the session of [session_id] only. *)
Lemma step_body_other E (S0 : gmap string session) session_id user_input sid :
  sid <> session_id ->
  (step_body E S0 session_id user_input).2 !! sid = S0 !! sid.
Proof.
  intros Hne. unfold step_body.
  destruct (slot_phase E _ _ _) as [st1 [r|]]; [simpl; by rewrite lookup_insert_ne|].
  destruct (reply_phase _ st1) as [st2 r2]. simpl. by rewrite lookup_insert_ne.
Qed.

Lemma get_next_step_other E (S0 : gmap string session) session_id user_input sid :
  sid <> session_id ->
  (get_next_step E S0 session_id user_input).2 !! sid = S0 !! sid.
Proof.
  intros Hne. unfold get_next_step.
  destruct (nlp_parser_importable E); [by apply step_body_other | done].
Qed.

Lemma run_cons E sid ui calls (S0 : gmap string session) :
  (run ((E, sid, ui) :: calls) S0).2 = (run calls (get_next_step E S0 sid ui).2).2.
Proof.
  simpl. destruct (get_next_step E S0 sid ui) as [r S1]. simpl.
  by destruct (run calls S1).
Qed.

Lemma run_app calls : forall more (S0 : gmap string session),
  (run (calls ++ more) S0).2 = (run more (run calls S0).2).2.
Proof.
  induction calls as [|[[E sid] ui] calls IH]; intros more S0; [done|].
  rewrite <- app_comm_cons, !run_cons. apply IH.
Qed.

(** The slot phase does nothing for a session at index 0. *)
Lemma slot_phase_at_0 E l raw st :
  current_step st = 0 -> slot_phase E l raw st = (st, None).
Proof. intros H0. unfold slot_phase. by rewrite H0. Qed.

(** A session created by the engine is created at index 0 and, the advance
    being guarded by [step_idx > 0], is left there by every call. *)
Lemma step_body_at_0 E (S0 : gmap string session) session_id user_input sid :
  step_of S0 sid = 0 ->
  step_of (step_body E S0 session_id user_input).2 sid = 0.
Proof.
  intros H0.
  destruct (decide (sid = session_id)) as [->|Hne].
  - unfold step_body, step_of in *.
    set (st0 := match S0 !! session_id with Some st => st | None => _ end).
    assert (Hst0 : current_step st0 = 0)
      by (subst st0; by destruct (S0 !! session_id)).
    rewrite slot_phase_at_0 by done.
    destruct (reply_phase _ _) as [st2 r2] eqn:Hreply.
    apply reply_phase_step in Hreply as [Hstep _]. simpl.
    by rewrite lookup_insert_eq, Hstep, append_dialog_step.
  - unfold step_of in *. by rewrite step_body_other.
Qed.

Lemma get_next_step_at_0 E (S0 : gmap string session) session_id user_input sid :
  step_of S0 sid = 0 ->
  step_of (get_next_step E S0 session_id user_input).2 sid = 0.
Proof.
  intros H0. unfold get_next_step.
  destruct (nlp_parser_importable E); [by apply step_body_at_0 | done].
Qed.

Lemma run_stays_at_0 calls : forall (S0 : gmap string session),
  (forall sid, step_of S0 sid = 0) ->
  forall sid, step_of (run calls S0).2 sid = 0.
Proof.
  induction calls as [|[[E session_id] ui] calls IH]; intros S0 H0 sid; [apply H0|].
  rewrite run_cons. apply IH. intros sid'. by apply get_next_step_at_0.
Qed.

Lemma step_of_empty sid : step_of (∅ : gmap string session) sid = 0.
Proof. unfold step_of. by rewrite lookup_empty. Qed.

End EngineRuns.

Section EngineClaims.
Import Script Utils Engine Examples.

(** C2.  Over every sequence of calls to [get_next_step], from the empty
    store the module starts with, the step index of every session never
    decreases from one call to a later one and never exceeds the script
    length; an index that has reached the script length is not increased
    by further calls. *)
Theorem step_index_monotone_and_bounded :
  forall (calls more : list (env * string * string)) (sid : string),
    step_of (run calls ∅).2 sid <= step_of (run (calls ++ more) ∅).2 sid
    /\ step_of (run (calls ++ more) ∅).2 sid <= length steps
    /\ (step_of (run calls ∅).2 sid = length steps ->
        step_of (run (calls ++ more) ∅).2 sid = length steps).
Proof.
  intros calls more sid.
  assert (Hlo : step_of (run calls ∅).2 sid <= step_of (run (calls ++ more) ∅).2 sid).
  { rewrite run_app.
    rewrite (run_stays_at_0 calls ∅ step_of_empty sid). lia. }
  assert (Hhi : step_of (run (calls ++ more) ∅).2 sid <= length steps).
  { rewrite (run_stays_at_0 (calls ++ more) ∅ step_of_empty sid). lia. }
  split; [exact Hlo|]. split; [exact Hhi|]. lia.
Qed.

End EngineClaims.

Section EngineTranscript.
Import Script Utils Engine Examples.

(** Every step of the script has an English prompt, so choosing the prompt
    of a step never raises. *)
Lemma message_for_script prev l i :
  steps !! i = Some prev -> exists text, message_for prev l = Return text.
Proof.
  intros Hprev.
  destruct i as [|[|[|i]]]; simpl in Hprev; inversion Hprev; subst;
    unfold message_for; simpl; eauto.
Qed.

(** C9 at the failing input.  The first message of a session, with the
    [utils/nlp_parser.py] of the sources: the import of line 27 raises, the
    session is not created and the transcript receives nothing. *)
Theorem failed_import_appends_nothing :
  let c := get_next_step env_sources ∅ "s1" "Quiero reservar una mesa" in
  c.1 = Raise ImportError
  /\ c.2 = ∅
  /\ get_dialogue_log c.2 "s1" = [].
Proof.
  cbv zeta. rewrite get_next_step_import_fails by reflexivity.
  repeat split.
Qed.

(** On the paths that reach the end of the function the call adds the user
    entry and the bot entry holding the reply. *)
Lemma reply_phase_transcript l st st' text :
  reply_phase l st = (st', Return text) -> dialog st' = dialog st ++ [Bot text].
Proof.
  unfold reply_phase.
  split_paths; intros [= <- <-]; reflexivity.
Qed.

(** Once the import succeeds, a call that returns for a session at index 0,
    the index of every session of a store reached from the empty one, adds
    the user entry and the bot entry holding the reply. *)
Lemma get_next_step_transcript E (S0 : gmap string session) sid ui text S1 :
  step_of S0 sid = 0 ->
  get_next_step E S0 sid ui = (Return text, S1) ->
  get_dialogue_log S1 sid = get_dialogue_log S0 sid ++ [User (strip ui); Bot text].
Proof.
  intros H0. unfold get_next_step.
  destruct (nlp_parser_importable E); [|discriminate].
  unfold step_body, get_dialogue_log, step_of in *.
  set (st0 := match S0 !! sid with Some st => st | None => _ end).
  assert (Hlog : dialog st0 = match S0 !! sid with Some st => dialog st | None => [] end)
    by (subst st0; by destruct (S0 !! sid)).
  assert (Hst0 : current_step st0 = 0) by (subst st0; by destruct (S0 !! sid)).
  rewrite <- Hlog. rewrite slot_phase_at_0 by done.
  destruct (reply_phase _ _) as [st2 r2] eqn:Hreply.
  intros [= -> <-]. rewrite lookup_insert_eq.
  apply reply_phase_transcript in Hreply. rewrite Hreply. simpl.
  by rewrite <- app_assoc.
Qed.

End EngineTranscript.

(** ** The booking hand-off *)

Section HandOff.
Import Script Utils Engine RestaurantService Examples.

Lemma dict_get_in {V : Type} (k : string) (d : list (string * V)) (v : V) :
  dict_get k d = Some v -> In v d.*2.
Proof.
  induction d as [|[k' v'] d IH]; simpl; [discriminate|].
  destruct (String.eqb k k'); [intros [= ->]; by left | intros H; right; auto].
Qed.

Lemma get_or_en_in d l text : get_or_en d l = Return text -> In text d.*2.
Proof.
  unfold get_or_en, dict_getitem.
  destruct (dict_get "en" d) as [en|] eqn:Hen; simpl; [|discriminate].
  intros [= <-].
  destruct (dict_get l d) as [m|] eqn:Hm; simpl; eauto using dict_get_in.
Qed.

Lemma message_for_in st l text :
  message_for st l = Return text -> In text (message st).*2.
Proof. apply get_or_en_in. Qed.

Lemma script_texts_plain :
  forallb plain_opening
    (final_responses.*2 ++ concat (List.map (fun st => (message st).*2) steps)) = true.
Proof. vm_compute. reflexivity. Qed.

Lemma final_text_plain text : In text final_responses.*2 -> plain_opening text = true.
Proof.
  intros Hin. pose proof script_texts_plain as H.
  rewrite forallb_forall in H. apply H. apply in_or_app. by left.
Qed.

Lemma step_text_plain st i text :
  steps !! i = Some st -> In text (message st).*2 -> plain_opening text = true.
Proof.
  intros Hst Hin. pose proof script_texts_plain as H.
  rewrite forallb_forall in H. apply H. apply in_or_app. right.
  apply in_concat. exists (message st).*2. split; [|done].
  apply in_map_iff. exists st. split; [done|].
  apply list_elem_of_In, list_elem_of_lookup. eauto.
Qed.

Lemma plain_not_fallback s : plain_opening s = true -> opens_like_fallback s = false.
Proof.
  destruct s as [|x [|y s]]; simpl; try discriminate.
  intros H. apply andb_true_iff in H as [_ H]. by apply negb_true_iff in H.
Qed.

(** Formatting keeps the first two characters of a template that opens
    with no brace. *)
Lemma format_from_opening kwargs tpl r :
  plain_opening tpl = true ->
  format_from kwargs None tpl = Return r ->
  opens_like_fallback r = false.
Proof.
  destruct tpl as [|x [|y tpl]]; simpl; try discriminate.
  intros H. apply andb_true_iff in H as [H Hfb].
  apply andb_true_iff in H as [Hx Hy].
  unfold brace in Hx, Hy.
  apply negb_true_iff, orb_false_iff in Hx as [Hx1 Hx2].
  apply negb_true_iff, orb_false_iff in Hy as [Hy1 Hy2].
  rewrite Hx1, Hx2, Hy1, Hy2.
  destruct (format_from kwargs None tpl) as [r'|e]; simpl; [|discriminate].
  intros [= <-]. by apply negb_true_iff in Hfb.
Qed.

Lemma reply_phase_opening l st st' text :
  reply_phase l st = (st', Return text) -> opens_like_fallback text = false.
Proof.
  unfold reply_phase.
  destruct (length steps <=? current_step st)%nat.
  - destruct (get_or_en final_responses l) as [final|e] eqn:Hfinal; intros [= _ <-].
    apply plain_not_fallback, final_text_plain.
    by apply get_or_en_in in Hfinal.
  - destruct (steps !! current_step st) as [s|] eqn:Hs; [|intros [=]].
    destruct (message_for s l) as [tpl|e] eqn:Htpl; simpl; [|intros [=]].
    pose proof (step_text_plain s _ tpl Hs (message_for_in _ _ _ Htpl)) as Hplain.
    destruct (String.eqb (id s) "confirm").
    + unfold format_confirm.
      destruct (data st !! None); [intros [=]|].
      destruct (format_from _ None tpl) as [r|e] eqn:Hfmt.
      * intros [= _ <-]. eauto using format_from_opening.
      * destruct (is_KeyError e); [|intros [=]].
        unfold dict_getitem.
        destruct (dict_get "en" (message s)) as [en|] eqn:Hen; intros [= _ <-].
        apply plain_not_fallback. eapply step_text_plain; eauto using dict_get_in.
    + intros [= _ <-]. by apply plain_not_fallback.
Qed.

Lemma slot_phase_opening E l raw st st' text :
  slot_phase E l raw st = (st', Some (Return text)) -> opens_like_fallback text = false.
Proof.
  unfold slot_phase.
  destruct (0 <? current_step st)%nat; [|intros [=]].
  destruct (steps !! (current_step st - 1)%nat) as [prev|] eqn:Hprev; [|intros [=]].
  assert (Hmsg : message_for prev l = Return text -> opens_like_fallback text = false).
  { intros Hm. apply plain_not_fallback.
    eapply step_text_plain; eauto using message_for_in. }
  repeat case_bool_decide;
    repeat match goal with |- context [negb ?b] => destruct b; simpl end;
    intros [= _ Hr]; auto.
Qed.

(** No reply of the dialog engine opens like a fixed reply of the hand-off. *)
Lemma engine_reply_opening E (S0 S1 : gmap string session) sid ui text :
  get_next_step E S0 sid ui = (Return text, S1) -> opens_like_fallback text = false.
Proof.
  unfold get_next_step.
  destruct (nlp_parser_importable E); [|discriminate].
  unfold step_body.
  destruct (slot_phase E _ _ _) as [st1 [r|]] eqn:Hslot.
  - intros [= -> _]. eauto using slot_phase_opening.
  - destruct (reply_phase _ st1) as [st2 r2] eqn:Hreply.
    intros [= -> _]. eauto using reply_phase_opening.
Qed.

(** The hand-off never obtains a reply from the engine. *)
Lemma handle_restaurant_dialog_eq (H : dialog_env) (S0 : gmap string session)
    user_input session_id lang :
  handle_restaurant_dialog H S0 user_input session_id lang
  = (if engine_importable H then reply_unavailable else reply_maintenance, S0).
Proof.
  unfold handle_restaurant_dialog, await_reply. simpl.
  destruct (engine_importable H); [|reflexivity].
  destruct (timed_out H); reflexivity.
Qed.

(** C1.  Whatever the message, the session id and the language tag, the
    hand-off calls the engine with three positional arguments, the call
    raises [TypeError] before the engine runs, and the hand-off answers with
    a fixed reply (the "currently unavailable" one whenever the engine
    module imports) and leaves the session store as it was; that reply is
    not a reply the engine can produce. *)
Theorem handle_restaurant_dialog_fixed_reply :
  forall (H : dialog_env) (S0 : gmap string session) (user_input session_id lang : string),
    call_get_next_step (engine H) S0 [session_id; lang; user_input] = (Raise TypeError, S0)
    /\ handle_restaurant_dialog H S0 user_input session_id lang
       = (if engine_importable H then reply_unavailable else reply_maintenance, S0)
    /\ In (handle_restaurant_dialog H S0 user_input session_id lang).1
          [reply_too_long; reply_maintenance; reply_unavailable]
    /\ forall (E : env) (S1 S2 : gmap string session) (sid ui : string),
         get_next_step E S1 sid ui
         <> (Return (handle_restaurant_dialog H S0 user_input session_id lang).1, S2).
Proof.
  intros H S0 user_input session_id lang.
  split; [reflexivity|]. split; [apply handle_restaurant_dialog_eq|].
  rewrite handle_restaurant_dialog_eq. simpl. split.
  - destruct (engine_importable H); simpl; auto.
  - intros E S1 S2 sid ui Hcall. apply engine_reply_opening in Hcall.
    destruct (engine_importable H); vm_compute in Hcall; discriminate.
Qed.

End HandOff.

(** ** The restaurant trigger *)

Section Trigger.
Import RestaurantService Examples.

Lemma list_in_In x l : list_in x l = true <-> In x l.
Proof.
  unfold list_in. rewrite existsb_exists. split.
  - intros (y & Hin & Heq). apply String.eqb_eq in Heq. by subst.
  - intros Hin. exists x. split; [done|]. apply String.eqb_refl.
Qed.

Lemma used_in_other_langs_shared (KEYWORDS : gmap string (list string)) lang keyword :
  used_in_other_langs KEYWORDS lang keyword = true <-> shared_keyword KEYWORDS lang keyword.
Proof.
  unfold used_in_other_langs, shared_keyword. rewrite existsb_exists. split.
  - intros (other & Hin & Hcond).
    apply andb_true_iff in Hcond as [Hne Hkw].
    apply negb_true_iff, String.eqb_neq in Hne.
    apply list_elem_of_In, list_elem_of_fmap in Hin as ([other' kws] & -> & Hin).
    apply elem_of_map_to_list in Hin. simpl in *.
    exists other', kws. rewrite Hin in Hkw. simpl in Hkw.
    by rewrite list_in_In in Hkw.
  - intros (other & kws & Hne & Hlook & Hin).
    exists other. split.
    + apply list_elem_of_In, list_elem_of_fmap. exists (other, kws).
      split; [done|]. by apply elem_of_map_to_list.
    + apply andb_true_iff. split.
      * by apply negb_true_iff, String.eqb_neq.
      * rewrite Hlook. simpl. by apply list_in_In.
Qed.

Lemma trigger_iff_unique_keyword (KEYWORDS : gmap string (list string)) text lang :
  contains_restaurant_trigger KEYWORDS text lang = true
  <-> exists keyword,
        In keyword (default [] (KEYWORDS !! lang))
        /\ str_in keyword (lower text) = true
        /\ ~ shared_keyword KEYWORDS lang keyword.
Proof.
  unfold contains_restaurant_trigger. rewrite existsb_exists.
  split; intros (keyword & Hin & H); exists keyword; (split; [done|]).
  - apply andb_true_iff in H as [Hsub Hother]. split; [done|].
    apply negb_true_iff in Hother. rewrite <- used_in_other_langs_shared. congruence.
  - destruct H as [Hsub Hother]. apply andb_true_iff. split; [done|].
    apply negb_true_iff. rewrite <- used_in_other_langs_shared in Hother.
    by destruct (used_in_other_langs KEYWORDS lang keyword).
Qed.

(** C5.  If every keyword of the language that occurs in the lowercased
    text is also a keyword of another configured language, the trigger check
    answers [False]; and it answers [True] only when a keyword of the
    language that no other configured language lists occurs in the text. *)
Theorem shared_keywords_never_trigger :
  forall (KEYWORDS : gmap string (list string)) (text lang : string),
    (forall keyword,
        In keyword (default [] (KEYWORDS !! lang)) ->
        str_in keyword (lower text) = true ->
        shared_keyword KEYWORDS lang keyword) ->
    contains_restaurant_trigger KEYWORDS text lang = false
    /\ (forall text',
          contains_restaurant_trigger KEYWORDS text' lang = true ->
          exists keyword,
            In keyword (default [] (KEYWORDS !! lang))
            /\ str_in keyword (lower text') = true
            /\ ~ shared_keyword KEYWORDS lang keyword).
Proof.
  intros KEYWORDS text lang Hshared. split.
  - destruct (contains_restaurant_trigger KEYWORDS text lang) eqn:Htrig; [|done].
    apply trigger_iff_unique_keyword in Htrig as (keyword & Hin & Hsub & Huniq).
    exfalso. eauto.
  - intros text' Htrig. by apply trigger_iff_unique_keyword.
Qed.

Lemma shared_keywords_never_trigger_witness :
  contains_restaurant_trigger keywords_cafe "I want to go to a cafe" "en" = false
  /\ (forall text',
        contains_restaurant_trigger keywords_cafe text' "en" = true ->
        exists keyword,
          In keyword (default [] (keywords_cafe !! "en"))
          /\ str_in keyword (lower text') = true
          /\ ~ shared_keyword keywords_cafe "en" keyword).
Proof.
  apply (shared_keywords_never_trigger keywords_cafe "I want to go to a cafe" "en").
  intros keyword Hin Hsub.
  change (default [] (keywords_cafe !! "en")) with ["restaurant"; "cafe"; "dining"] in Hin.
  destruct Hin as [<- | [<- | [<- | []]]]; try (vm_compute in Hsub; discriminate).
  exists "es", ["restaurante"; "cafe"; "comida"].
  split; [discriminate|]. split; [reflexivity|]. right; left; reflexivity.
Defined.

End Trigger.

(** ** Required-feature filtering *)

Section Filter.
Import RestaurantService Examples.

Lemma disagrees_iff (feats required_features : gmap string bool) :
  disagrees feats required_features = true
  <-> exists key val, required_features !! key = Some val /\ feats !! key <> Some val.
Proof.
  unfold disagrees. rewrite existsb_exists. split.
  - intros ([key val] & Hin & Hne). simpl in Hne.
    apply list_elem_of_In, elem_of_map_to_list in Hin.
    exists key, val. split; [done|].
    apply negb_true_iff in Hne. by apply bool_decide_eq_false in Hne.
  - intros (key & val & Hreq & Hne). exists (key, val). split.
    + by apply list_elem_of_In, elem_of_map_to_list.
    + simpl. apply negb_true_iff. by apply bool_decide_eq_false.
Qed.

Lemma fold_filter_nodes required_features source_nodes : forall acc,
  fold_left (fun results n =>
               if disagrees (default ∅ (n_features n)) required_features
               then results
               else results ++ [place_of n])
            source_nodes acc
  = acc ++ List.map place_of (List.filter (passes required_features) source_nodes).
Proof.
  induction source_nodes as [|n rest IH]; intros acc; simpl.
  - by rewrite app_nil_r.
  - rewrite IH. unfold passes at 2.
    destruct (disagrees (default ∅ (n_features n)) required_features); simpl; [done|].
    by rewrite <- app_assoc.
Qed.

Lemma filter_nodes_passes source_nodes required_features :
  filter_nodes source_nodes required_features
  = List.map place_of (List.filter (passes required_features) source_nodes).
Proof. unfold filter_nodes. by rewrite fold_filter_nodes. Qed.

Lemma disagrees_only_required (feats feats' required_features : gmap string bool) :
  (forall key, is_Some (required_features !! key) -> feats !! key = feats' !! key) ->
  disagrees feats required_features = disagrees feats' required_features.
Proof.
  intros Hsame. apply eq_true_iff_eq. rewrite !disagrees_iff.
  split; intros (key & val & Hreq & Hne); exists key, val; (split; [done|]).
  - rewrite <- Hsame; eauto.
  - rewrite Hsame; eauto.
Qed.

(** C6.  When [query_places] obtains the source nodes from the retriever
    (engine present, no cached entry, an attempt that answers), it returns
    the dicts of the nodes that pass the filter, in order; a node is left out
    if and only if, for some key of [required_features], its feature flags do
    not hold the required value (a missing flag included); and flags under
    keys that [required_features] does not have never change the outcome. *)
Theorem required_features_filter :
  forall (R : rag_env) (cache : Cache.TTLCache (list place)) (user_query : string)
         (required_features : gmap string bool)
         (engine : string -> nat -> outcome (list node)) (source_nodes : list node),
    metrics_importable R = true ->
    rag_query_engine R = Some engine ->
    Cache.get cache (now R) (cache_key user_query required_features) = None ->
    first_response (engine user_query) 0 max_retries = Some source_nodes ->
    (query_places R cache user_query required_features).1
    = Return (List.map place_of (List.filter (passes required_features) source_nodes))
    /\ (forall n, In n source_nodes ->
          (~ In n (List.filter (passes required_features) source_nodes)
           <-> exists key val,
                 required_features !! key = Some val
                 /\ default ∅ (n_features n) !! key <> Some val))
    /\ (forall n n',
          (forall key, is_Some (required_features !! key) ->
             default ∅ (n_features n) !! key = default ∅ (n_features n') !! key) ->
          passes required_features n = passes required_features n').
Proof.
  intros R cache user_query required_features engine source_nodes Hm He Hc Hr.
  split; [|split].
  - unfold query_places. rewrite Hm, He, Hc, Hr. simpl.
    by rewrite filter_nodes_passes.
  - intros n Hin. rewrite filter_In, <- disagrees_iff. unfold passes.
    destruct (disagrees (default ∅ (n_features n)) required_features); simpl.
    + split; [done|]. intros _ [_ [=]].
    + split; [|done]. intros Hout. exfalso. apply Hout. by split.
  - intros n n' Hsame. unfold passes. f_equal. by apply disagrees_only_required.
Qed.

Lemma required_features_filter_witness :
  (query_places rag_answers rag_query_cache "a place with a terrace" wants_terrace).1
  = Return (List.map place_of (List.filter (passes wants_terrace) two_nodes))
  /\ (forall n, In n two_nodes ->
        (~ In n (List.filter (passes wants_terrace) two_nodes)
         <-> exists key val,
               wants_terrace !! key = Some val
               /\ default ∅ (n_features n) !! key <> Some val))
  /\ (forall n n',
        (forall key, is_Some (wants_terrace !! key) ->
           default ∅ (n_features n) !! key = default ∅ (n_features n') !! key) ->
        passes wants_terrace n = passes wants_terrace n').
Proof.
  apply (required_features_filter rag_answers rag_query_cache "a place with a terrace"
           wants_terrace (fun _ _ => Return two_nodes) two_nodes).
  - reflexivity.
  - reflexivity.
  - reflexivity.
  - reflexivity.
Defined.

End Filter.

(** ** Ranking of the retrieval results *)

Section Ranking.
Import RestaurantService ChatService Examples.

Lemma hasattr_score r : hasattr r "score" = false.
Proof. reflexivity. Qed.

(** Every result gets the score 0: a dict has no attribute ["score"]. *)
Lemma final_score_num i r : Qnum (final_score i r) = 0%Z.
Proof. reflexivity. Qed.

Lemma insert_desc_last {A : Type} (x : A * Q) (l : list (A * Q)) :
  Qnum x.2 = 0%Z -> Forall (fun y => Qnum y.2 = 0%Z) l -> insert_desc x l = l ++ [x].
Proof.
  intros Hx. induction 1 as [|y l Hy Hl IH]; simpl; [done|].
  unfold Qle_bool. rewrite Hx, Hy. simpl. by rewrite IH.
Qed.

Lemma sort_desc_zero_keys {A : Type} (l : list (A * Q)) :
  Forall (fun y => Qnum y.2 = 0%Z) l -> sort_desc l = l.
Proof.
  unfold sort_desc.
  enough (Hgen : forall acc, Forall (fun y : A * Q => Qnum y.2 = 0%Z) acc ->
                             Forall (fun y : A * Q => Qnum y.2 = 0%Z) l ->
                             fold_left (fun acc x => insert_desc x acc) l acc = acc ++ l)
    by (intros Hl; by rewrite (Hgen [] (List.Forall_nil _) Hl)).
  induction l as [|x l IH]; intros acc Hacc Hl; simpl.
  - by rewrite app_nil_r.
  - inversion Hl as [|? ? Hx Hl']; subst.
    rewrite insert_desc_last by done.
    rewrite IH; [by rewrite <- app_assoc | | done].
    apply Forall_app. split; [done|]. by constructor.
Qed.

Lemma enumerate_from_fst {A : Type} (f : nat -> A -> Q) (l : list A) : forall i,
  (List.map (fun ir : nat * A => (ir.2, f ir.1 ir.2)) (enumerate_from i l)).*1 = l.
Proof.
  induction l as [|x l IH]; intros i; simpl; [done|]. by rewrite IH.
Qed.

Lemma scored_results_zero rag_results :
  Forall (fun y : place * Q => Qnum y.2 = 0%Z) (scored_results rag_results).
Proof.
  unfold scored_results. apply Forall_forall. intros y Hin.
  apply list_elem_of_In, in_map_iff in Hin as ([i r] & <- & _). apply final_score_num.
Qed.

(** The ranking is the retrieval order of the first ten results, whatever
    the retriever reported. *)
Lemma sorted_results_retrieval_order rag_results :
  (sorted_results rag_results).*1 = take (Nat.min (length rag_results) 10) rag_results.
Proof.
  unfold sorted_results. rewrite sort_desc_zero_keys by apply scored_results_zero.
  unfold scored_results. apply enumerate_from_fst.
Qed.

(** C4 at the failing input.  The retriever reports 0.1 for the first node
    and 0.9 for the second, so the product of score and position decay is
    higher for the second; the context is nevertheless composed with the
    first node first, both with final score 0. *)
Theorem ranking_ignores_reported_scores :
  let rag_results := filter_nodes two_nodes ∅ in
  (reported_product 0 node_bar < reported_product 1 node_terrace)%Q
  /\ List.map name (sorted_results rag_results).*1 = ["Bar Boia"; "Can Rafa"]
  /\ List.map Qnum (sorted_results rag_results).*2 = [0%Z; 0%Z].
Proof.
  vm_compute. repeat split; reflexivity.
Qed.

End Ranking.

(** ** Numeric input and the language of the reply *)

Section Language.
Import LanguageService ChatService Examples.

Lemma all_chars_impl (p q : ascii -> bool) s :
  (forall c, p c = true -> q c = true) -> all_chars p s = true -> all_chars q s = true.
Proof.
  intros Hpq. induction s as [|c s IH]; simpl; [done|].
  intros H. apply andb_true_iff in H as [Hc Hs]. apply andb_true_iff. auto.
Qed.

Lemma all_chars_lstrip p s :
  all_chars p (lstrip s) = true -> all_chars (fun c => is_space c || p c) s = true.
Proof.
  induction s as [|c s IH]; simpl; [done|].
  destruct (is_space c) eqn:Hc; simpl; [auto|].
  intros H. apply andb_true_iff in H as [-> Hs]. simpl.
  eapply all_chars_impl; [|exact Hs]. intros c' ->. apply orb_true_r.
Qed.

Lemma all_chars_rstrip p s :
  all_chars p (rstrip s) = true -> all_chars (fun c => is_space c || p c) s = true.
Proof.
  induction s as [|c s IH]; simpl; [done|].
  destruct (rstrip s) as [|d r] eqn:Hr.
  - destruct (is_space c) eqn:Hc; simpl.
    + intros _. by apply IH.
    + intros H. apply andb_true_iff in H as [-> _]. simpl. by apply IH.
  - simpl. intros H. apply andb_true_iff in H as [-> H]. rewrite orb_true_r. simpl.
    by apply IH.
Qed.

(** A text whose stripped form is all digits consists of blanks and digits. *)
Lemma digits_text_blank_or_digit text :
  isdigit (strip text) = true -> all_chars blank_or_digit text = true.
Proof.
  intros H. unfold isdigit in H.
  assert (Hd : all_chars is_digit (strip text) = true)
    by (destruct (strip text); [discriminate | exact H]).
  unfold strip in Hd. apply all_chars_rstrip, all_chars_lstrip in Hd.
  eapply all_chars_impl; [|exact Hd]. intros c Hc. unfold blank_or_digit.
  cbv beta in Hc. destruct (is_space c); simpl in *; done.
Qed.

Lemma blank_or_digit_bytes c :
  blank_or_digit c = true ->
  byte_in 65 90 c = false /\ byte_in 195 195 c = false /\ byte_in 208 208 c = false.
Proof.
  destruct c as [[] [] [] [] [] [] [] []]; vm_compute; intros H;
    first [discriminate H | repeat split; reflexivity].
Qed.

Lemma lower_blank_or_digit s : all_chars blank_or_digit s = true -> lower s = s.
Proof.
  induction s as [|c s IH]; [done|].
  intros H. simpl in H. apply andb_true_iff in H as [Hc Hs].
  apply blank_or_digit_bytes in Hc as (H1 & H2 & H3).
  simpl. rewrite H1, H2, H3. simpl.
  destruct s as [|d s']; [done|]. by rewrite IH.
Qed.

Lemma prefix_head a w b t : String.prefix (String a w) (String b t) = true -> a = b.
Proof. simpl. by destruct (ascii_dec a b). Qed.

Lemma str_in_head a w t :
  str_in (String a w) t = true -> any_char (Ascii.eqb a) t = true.
Proof.
  induction t as [|b t IH]; [simpl; discriminate|].
  cbn [str_in any_char]. intros H. apply orb_true_iff in H as [H|H].
  - apply prefix_head in H as ->. by rewrite Ascii.eqb_refl.
  - rewrite IH by done. apply orb_true_r.
Qed.

Lemma any_char_all_chars p a t :
  all_chars p t = true -> any_char (Ascii.eqb a) t = true -> p a = true.
Proof.
  induction t as [|b t IH]; simpl; [discriminate|].
  intros H. apply andb_true_iff in H as [Hb Ht].
  intros Hany. apply orb_true_iff in Hany as [Heq|Hany]; [|auto].
  apply Ascii.eqb_eq in Heq. by subst.
Qed.

Lemma exception_words_not_plain :
  forallb (fun word =>
             match lower word with
             | String a _ => negb (blank_or_digit a)
             | EmptyString => false
             end) EXCEPTION_WORDS = true.
Proof. vm_compute. reflexivity. Qed.

Lemma no_exception_word_in_digits text :
  all_chars blank_or_digit text = true ->
  existsb (fun word => str_in (lower word) (lower text)) EXCEPTION_WORDS = false.
Proof.
  intros Htext. rewrite (lower_blank_or_digit _ Htext).
  apply not_true_is_false. intros Hex.
  apply existsb_exists in Hex as (word & Hin & Hsub).
  pose proof exception_words_not_plain as Hall.
  rewrite forallb_forall in Hall. specialize (Hall word Hin).
  destruct (lower word) as [|a w]; [discriminate|].
  apply str_in_head in Hsub.
  apply (any_char_all_chars _ _ _ Htext) in Hsub. by rewrite Hsub in Hall.
Qed.

(** For digits-only input the detector answers with its marker, and the
    orchestrator, finding the marker outside its supported languages,
    answers in English. *)
Lemma numeric_input_language (Sv : services) text :
  isdigit (strip text) = true ->
  detect_language (langdetect Sv) text = "same_as_before"
  /\ request_language Sv text None = "en".
Proof.
  intros Hdigit.
  assert (Hdet : detect_language (langdetect Sv) text = "same_as_before").
  { unfold detect_language.
    assert (Hne : falsy (strip text) = false)
      by (destruct (strip text); [discriminate | reflexivity]).
    rewrite Hne, no_exception_word_in_digits by by apply digits_text_blank_or_digit.
    by rewrite Hdigit. }
  split; [exact Hdet|]. unfold request_language. by rewrite Hdet.
Qed.

(** C7 at the failing input.  A conversation held in Spanish continues
    with the message "12345": the detector answers with its marker and the
    orchestrator answers that message in English, not in Spanish. *)
Theorem numeric_input_drops_previous_language :
  request_language (services_ok rag_answers) "Hola, ¿cómo estás hoy?" None = "es"
  /\ detect_language (langdetect (services_ok rag_answers)) "12345" = "same_as_before"
  /\ request_language (services_ok rag_answers) "12345" None = "en".
Proof.
  vm_compute. repeat split; reflexivity.
Qed.

End Language.

(** ** The orchestrator always replies *)

Section Orchestrator.
Import RestaurantService ChatService Examples.

Lemma append_nonempty (a : string) (c : ascii) (b : string) :
  a +:+ String c b <> "".
Proof. destruct a; simpl; discriminate. Qed.

Lemma compose_reply_nonempty Sv W user_input detected_lang sentiment top_context r W1 :
  compose_reply Sv W user_input detected_lang sentiment top_context = (Return r, W1) ->
  r <> "".
Proof.
  unfold compose_reply, bindw.
  destruct (get_chatgpt_response Sv _ _ _) as [gpt|e]; [|intros [=]].
  destruct (get_proverb_by_sentiment Sv _ _) as [[cat eng]|e]; [|intros [=]].
  destruct (if list_in detected_lang ["en"; "ca"] then _ else _) as [tr|e]; [|intros [=]].
  intros [= <- _].
  destruct (String.eqb detected_lang "en"); [|destruct (String.eqb detected_lang "ca")];
    apply (append_nonempty _ (ascii_of_nat 10)).
Qed.

Lemma try_block_nonempty Sv W user_input session_id detected_language r W1 :
  try_block Sv W user_input session_id detected_language = (Return r, W1) -> r <> "".
Proof.
  unfold try_block, bindw.
  destruct (services_importable Sv); simpl; [|intros [=]].
  destruct (track_session Sv _ _) as [[]|e]; [|intros [=]].
  destruct (analyze_sentiment Sv _) as [sentiment|e]; [|intros [=]].
  destruct (contains_restaurant_trigger _ _ _).
  - rewrite handle_restaurant_dialog_eq. intros [= <- _].
    destruct (engine_importable _); discriminate.
  - destruct (query_places _ _ _ _) as [[rag_results|e] cache1]; [|intros [=]].
    apply compose_reply_nonempty.
Qed.

(** A retriever that raises on every attempt makes [query_places] answer
    with the empty list, not with an exception. *)
Lemma query_places_retriever_down R cache user_query required_features engine :
  metrics_importable R = true ->
  rag_query_engine R = Some engine ->
  (forall i, exists e, engine user_query i = Raise e) ->
  Cache.get cache (now R) (cache_key user_query required_features) = None ->
  query_places R cache user_query required_features = (Return [], cache).
Proof.
  intros Hm He Hdown Hmiss.
  assert (Hnone : forall n i, first_response (engine user_query) i n = None).
  { induction n as [|n IH]; intros i; simpl; [done|].
    destruct (Hdown i) as [e ->]. apply IH. }
  unfold query_places. rewrite Hm, He. cbn -[first_response max_retries Cache.get].
  by rewrite Hmiss, Hnone.
Qed.

(** C8.  For a non-empty input the orchestrator returns a response and
    raises nothing, whatever its collaborators do; the response is not
    empty; and when the body of its [try] raises, at whichever step, the
    response is the fixed fallback string. *)
Theorem process_request_async_always_replies :
  forall (Sv : services) (W : world) (user_input session_id : string)
         (detected_language : option string),
    user_input <> "" ->
    exists (response : string) (W1 : world),
      process_request_async Sv W user_input session_id detected_language
      = (Return response, W1)
      /\ response <> ""
      /\ (forall e W2,
            try_block Sv W (sanitize_input user_input) session_id detected_language
            = (Raise e, W2) ->
            response = fallback_response).
Proof.
  intros Sv W user_input session_id detected_language Hne.
  unfold process_request_async.
  destruct user_input as [|c u]; [done|]. cbn [falsy].
  destruct (try_block Sv W _ session_id detected_language) as [[r|e] W1] eqn:Htry.
  - exists r, W1. split; [done|]. split; [|intros e W2 [=]].
    eauto using try_block_nonempty.
  - exists fallback_response, W1. split; [done|]. split; [discriminate|done].
Qed.

Lemma process_request_async_always_replies_witness :
  exists (response : string) (W1 : world),
    process_request_async (services_ok rag_fails) world0 "Where can we eat?" "s1" None
    = (Return response, W1)
    /\ response <> ""
    /\ (forall e W2,
          try_block (services_ok rag_fails) world0 (sanitize_input "Where can we eat?")
            "s1" None = (Raise e, W2) ->
          response = fallback_response).
Proof.
  apply (process_request_async_always_replies (services_ok rag_fails) world0
           "Where can we eat?" "s1" None).
  discriminate.
Defined.

End Orchestrator.

(** ** The result cache *)

Section CacheRoundTrip.
Import Cache RestaurantService Examples.

Lemma find_entry_last {V : Type} (key : string) (l : list (string * (V * Z)))
    (e : string * (V * Z)) :
  Forall (fun e' => String.eqb key e'.1 = false) l ->
  e.1 = key ->
  find_entry key (l ++ [e]) = Some e.
Proof.
  intros Hl He. induction Hl as [|e' l He' Hl IH]; simpl.
  - by rewrite He, String.eqb_refl.
  - by rewrite He', IH.
Qed.

Lemma put_entries {V : Type} (c : TTLCache V) (t0 : Z) (key : string) (value : V) :
  (0 < maxsize c)%nat ->
  find_entry key (entries (put c t0 key value)) = Some (key, (value, t0)).
Proof.
  intros Hsize. unfold put. cbn [entries].
  destruct (maxsize c =? 0)%nat eqn:Hz; [apply Nat.eqb_eq in Hz; lia|].
  apply find_entry_last; [|done].
  apply Forall_forall. intros e Hin.
  apply list_elem_of_In in Hin.
  assert (Hsub : In e (List.filter (fun e => negb (expired c t0 e) && negb (String.eqb key e.1))
                                  (entries c))).
  { apply list_elem_of_In. eapply subseteq_drop. by apply list_elem_of_In. }
  apply filter_In in Hsub as [_ Hcond].
  apply andb_true_iff in Hcond as [_ Hkey]. by apply negb_true_iff in Hkey.
Qed.

Lemma get_put_live {V : Type} (c : TTLCache V) key (value : V) (t0 t1 : Z) :
  (0 < maxsize c)%nat -> (t1 <= t0 + ttl c)%Z ->
  get (put c t0 key value) t1 key = Some value.
Proof.
  intros Hsize Hlive. unfold get. rewrite (put_entries c t0 key value Hsize).
  unfold expired. cbn.
  destruct (t0 + ttl c <? t1)%Z eqn:Hlt; [apply Z.ltb_lt in Hlt; lia | done].
Qed.

Lemma get_put_expired {V : Type} (c : TTLCache V) key (value : V) (t0 t1 : Z) :
  (0 < maxsize c)%nat -> (t0 + ttl c < t1)%Z ->
  get (put c t0 key value) t1 key = None.
Proof.
  intros Hsize Hdead. unfold get. rewrite (put_entries c t0 key value Hsize).
  unfold expired. cbn.
  destruct (t0 + ttl c <? t1)%Z eqn:Hlt; [done | apply Z.ltb_ge in Hlt; lia].
Qed.

(** C10.  After storing a value under a key at time [t0], a lookup of the
    key at a time [t1] before the time-to-live has elapsed returns the
    value, and a lookup at any time after it has elapsed is a miss, although
    the entry is still held by the cache. *)
Theorem cache_round_trip :
  forall (V : Type) (c : TTLCache V) (key : string) (value : V) (t0 t1 : Z),
    (0 < maxsize c)%nat ->
    ((t1 < t0 + ttl c)%Z -> get (put c t0 key value) t1 key = Some value)
    /\ ((t0 + ttl c < t1)%Z ->
        get (put c t0 key value) t1 key = None
        /\ In (key, (value, t0)) (entries (put c t0 key value))).
Proof.
  intros V c key value t0 t1 Hsize. split.
  - intros Hlive. apply get_put_live; [done | lia].
  - intros Hdead. split; [by apply get_put_expired|].
    unfold put. cbn [entries].
    destruct (maxsize c =? 0)%nat eqn:Hz; [apply Nat.eqb_eq in Hz; lia|].
    apply in_or_app. right. by left.
Qed.

Lemma cache_round_trip_witness :
  get (put rag_query_cache 100 "beach:[]" [place_of node_bar]) 1899 "beach:[]"
  = Some [place_of node_bar]
  /\ get (put rag_query_cache 100 "beach:[]" [place_of node_bar]) 1901 "beach:[]" = None.
Proof.
  split.
  - apply (cache_round_trip (list place) rag_query_cache "beach:[]" [place_of node_bar]
             100 1899); [vm_compute; lia | vm_compute; reflexivity].
  - apply (cache_round_trip (list place) rag_query_cache "beach:[]" [place_of node_bar]
             100 1901); [vm_compute; lia | vm_compute; reflexivity].
Defined.

(** The same round trip seen from [query_places]: the results stored by a
    call that reached the retriever are returned by a later call with the
    same query and features while the time-to-live lasts, and after it the
    cached entry is not used. *)
Lemma query_places_round_trip (R R' : rag_env) (c : TTLCache (list place))
    user_query required_features engine source_nodes :
  (0 < maxsize c)%nat ->
  metrics_importable R = true -> rag_query_engine R = Some engine ->
  get c (now R) (cache_key user_query required_features) = None ->
  first_response (engine user_query) 0 max_retries = Some source_nodes ->
  metrics_importable R' = true -> is_Some (rag_query_engine R') ->
  let first := query_places R c user_query required_features in
  ((now R <= now R')%Z -> (now R' < now R + ttl c)%Z ->
   query_places R' first.2 user_query required_features = first)
  /\ ((now R + ttl c < now R')%Z ->
      get first.2 (now R') (cache_key user_query required_features) = None).
Proof.
  intros Hsize Hm He Hmiss Hresp Hm' [engine' He'].
  assert (Hfirst : query_places R c user_query required_features
                   = (Return (filter_nodes source_nodes required_features),
                      put c (now R) (cache_key user_query required_features)
                        (filter_nodes source_nodes required_features))).
  { unfold query_places. rewrite Hm, He. cbn -[first_response max_retries get put].
    by rewrite Hmiss, Hresp. }
  cbv zeta. rewrite Hfirst. cbn [snd].
  split.
  - intros Hle Hlt. unfold query_places at 1. rewrite Hm', He'.
    cbn -[first_response max_retries get put].
    rewrite get_put_live; [done | done | lia].
  - intros Hdead. by apply get_put_expired.
Qed.

End CacheRoundTrip.

(** ** The dialog engine: further properties *)

Section EngineExtras.
Import Script Utils Engine Examples MoreExamples.

Lemma call_lang_supported E ui : In (call_lang E ui) ["en"; "ru"; "fr"; "es"; "de"; "ca"].
Proof.
  unfold call_lang.
  destruct (list_in _ supported_langs) eqn:Hin; [|by left].
  by apply list_in_In in Hin.
Qed.

Lemma reply_phase_at_0 l st prompt :
  current_step st = 0 ->
  message_for ask_people l = Return prompt ->
  reply_phase l st = (append_dialog (Bot prompt) st, Return prompt).
Proof.
  intros H0 Hp. unfold reply_phase. rewrite H0.
  change (steps !! 0%nat) with (Some ask_people).
  change (length steps <=? 0)%nat with false. cbv iota.
  rewrite Hp. reflexivity.
Qed.


(** The body on a session at index 0, created or not. *)
Lemma step_body_index_0 E (S0 : gmap string session) sid ui prompt :
  step_of S0 sid = 0 ->
  message_for ask_people (call_lang E ui) = Return prompt ->
  step_body E S0 sid ui
  = (Return prompt,
     <[sid := append_dialog (Bot prompt)
                (append_dialog (User (strip ui))
                   (match S0 !! sid with
                    | Some st => st
                    | None => new_session (call_lang E ui)
                    end))]> S0).
Proof.
  intros H0 Hp. unfold step_body, step_of in *.
  set (st := match S0 !! sid with Some st => st | None => new_session _ end).
  assert (Hst : current_step st = 0) by (subst st; by destruct (S0 !! sid)).
  rewrite slot_phase_at_0 by done.
  rewrite (reply_phase_at_0 _ _ prompt) by done. done.
Qed.

(** A call to a session at index 0: the first prompt and both entries of
    the transcript when the import succeeds, [ImportError] and nothing
    written when it fails. *)
Lemma get_next_step_index_0 E (S0 : gmap string session) sid ui prompt :
  step_of S0 sid = 0 ->
  message_for ask_people (call_lang E ui) = Return prompt ->
  get_next_step E S0 sid ui
  = if nlp_parser_importable E
    then (Return prompt,
          <[sid := append_dialog (Bot prompt)
                     (append_dialog (User (strip ui))
                        (match S0 !! sid with
                         | Some st => st
                         | None => new_session (call_lang E ui)
                         end))]> S0)
    else (Raise ImportError, S0).
Proof.
  intros H0 Hp. unfold get_next_step.
  destruct (nlp_parser_importable E); [by apply step_body_index_0 | done].
Qed.

(** X1.  The first message of a session: when the import of line 27
    succeeds, the session is created at index 0 with the language of the
    call, the reply is the first prompt and the transcript holds the
    stripped message and that reply; when the import fails, as it does with
    the [utils/nlp_parser.py] of the sources, the call raises [ImportError]
    and no session is created. *)
Theorem first_message_creates_session :
  forall (E : env) (S0 : gmap string session) (sid ui : string),
    S0 !! sid = None ->
    exists prompt,
      message_for ask_people (call_lang E ui) = Return prompt
      /\ get_next_step E S0 sid ui
         = if nlp_parser_importable E
           then (Return prompt,
                 <[sid := {| current_step := 0; data := ∅;
                             dialog := [User (strip ui); Bot prompt];
                             lang := Some (call_lang E ui) |}]> S0)
           else (Raise ImportError, S0).
Proof.
  intros E S0 sid ui Hnew.
  destruct (message_for_script ask_people (call_lang E ui) 0 eq_refl) as [prompt Hp].
  exists prompt. split; [done|].
  rewrite (get_next_step_index_0 E S0 sid ui prompt);
    [|unfold step_of; by rewrite Hnew | done].
  by rewrite Hnew.
Qed.

Lemma first_message_creates_session_witness :
  exists prompt,
    message_for ask_people (call_lang env_sources "Quiero reservar una mesa") = Return prompt
    /\ get_next_step env_sources ∅ "s1" "Quiero reservar una mesa"
       = if nlp_parser_importable env_sources
         then (Return prompt,
               <["s1" := {| current_step := 0; data := ∅;
                            dialog := [User (strip "Quiero reservar una mesa"); Bot prompt];
                            lang := Some (call_lang env_sources "Quiero reservar una mesa") |}]>
                 ∅)
         else (Raise ImportError, ∅).
Proof.
  apply (first_message_creates_session env_sources ∅ "s1" "Quiero reservar una mesa").
  reflexivity.
Defined.

Lemma run_cons_replies E sid ui calls (S0 : gmap string session) :
  (run ((E, sid, ui) :: calls) S0).1
  = (get_next_step E S0 sid ui).1 :: (run calls (get_next_step E S0 sid ui).2).1.
Proof.
  simpl. destruct (get_next_step E S0 sid ui) as [r S1]. simpl.
  by destruct (run calls S1).
Qed.

Lemma run_at_0 calls : forall (S0 : gmap string session),
  (forall sid, step_of S0 sid = 0) ->
  Forall2 (fun (c : env * string * string) r =>
             if nlp_parser_importable c.1.1
             then exists prompt,
                    message_for ask_people (call_lang c.1.1 c.2) = Return prompt
                    /\ r = Return prompt
             else r = Raise ImportError)
          calls (run calls S0).1.
Proof.
  induction calls as [|[[E sid] ui] calls IH]; intros S0 H0; [constructor|].
  rewrite run_cons_replies.
  destruct (message_for_script ask_people (call_lang E ui) 0 eq_refl) as [prompt Hp].
  constructor.
  - rewrite (get_next_step_index_0 E S0 sid ui prompt (H0 sid) Hp). simpl.
    destruct (nlp_parser_importable E); simpl; eauto.
  - apply IH. intros sid'. by apply get_next_step_at_0.
Qed.

(** X2.  Starting from an empty store, the reply to every call is the first
    prompt of the script in the language of that call when the import of
    line 27 succeeds, and the [ImportError] when it fails; every session
    stays at index 0, and no session is ever a complete booking. *)
Theorem engine_sessions_never_advance :
  forall (calls : list (env * string * string)),
    Forall2 (fun (c : env * string * string) r =>
               if nlp_parser_importable c.1.1
               then exists prompt,
                      message_for ask_people (call_lang c.1.1 c.2) = Return prompt
                      /\ r = Return prompt
               else r = Raise ImportError)
            calls (run calls ∅).1
    /\ (forall sid, step_of (run calls ∅).2 sid = 0)
    /\ (forall sid st, (run calls ∅).2 !! sid = Some st ->
                       Evaluator.is_booking_complete st = false).
Proof.
  intros calls.
  pose proof (run_stays_at_0 calls ∅ step_of_empty) as Hsteps.
  split; [apply run_at_0, step_of_empty|]. split; [exact Hsteps|].
  intros sid st Hst. specialize (Hsteps sid). unfold step_of in Hsteps.
  rewrite Hst in Hsteps. unfold Evaluator.is_booking_complete. by rewrite Hsteps.
Qed.

Lemma slot_phase_frame E l raw st st' r :
  slot_phase E l raw st = (st', r) ->
  dialog st' = dialog st /\ lang st' = lang st
  /\ (data st' = data st \/ exists k v, data st' = <[k := v]> (data st)).
Proof.
  unfold slot_phase. split_paths; intros [= <- <-]; simpl; eauto 6.
Qed.

Lemma reply_phase_frame l st st' r :
  reply_phase l st = (st', r) ->
  lang st' = lang st /\ data st' = data st
  /\ (dialog st' = dialog st \/ exists m, dialog st' = dialog st ++ [Bot m]).
Proof.
  unfold reply_phase. split_paths; intros [= <- <-]; simpl; eauto 6.
Qed.

Lemma get_next_step_history E (S0 : gmap string session) session_id ui sid st :
  S0 !! sid = Some st ->
  exists st',
    (get_next_step E S0 session_id ui).2 !! sid = Some st'
    /\ dialog st `prefix_of` dialog st'
    /\ lang st' = lang st
    /\ dom (data st) ⊆ dom (data st').
Proof.
  intros Hst. destruct (decide (sid = session_id)) as [->|Hne].
  - unfold get_next_step.
    destruct (nlp_parser_importable E); [|by exists st].
    unfold step_body. rewrite Hst.
    destruct (slot_phase E _ _ _) as [st1 r] eqn:Hslot.
    apply slot_phase_frame in Hslot as (Hd1 & Hl1 & Hdata1).
    assert (Hdom1 : dom (data st) ⊆ dom (data st1)).
    { destruct Hdata1 as [->|(k & v & ->)]; simpl; [done|].
      rewrite dom_insert. set_solver. }
    simpl in Hd1, Hl1.
    destruct r as [r|].
    + exists st1. simpl. rewrite lookup_insert_eq. split; [done|].
      split; [rewrite Hd1; by apply prefix_app_r|]. done.
    + destruct (reply_phase _ st1) as [st2 r2] eqn:Hreply.
      apply reply_phase_frame in Hreply as (Hl2 & Hdata2 & Hd2).
      exists st2. simpl. rewrite lookup_insert_eq. split; [done|].
      split; [|split; [congruence | by rewrite Hdata2]].
      destruct Hd2 as [->|[m ->]]; rewrite Hd1.
      * by apply prefix_app_r.
      * rewrite <- app_assoc. by apply prefix_app_r.
  - exists st. by rewrite get_next_step_other.
Qed.

(** X3.  Over every sequence of calls a session is never removed, its
    transcript only grows at the end, its slot map never loses a key, and
    the language stored when it was created is never updated. *)
Theorem session_history_kept :
  forall (calls : list (env * string * string)) (S0 : gmap string session)
         (sid : string) (st : session),
    S0 !! sid = Some st ->
    exists st',
      (run calls S0).2 !! sid = Some st'
      /\ dialog st `prefix_of` dialog st'
      /\ lang st' = lang st
      /\ dom (data st) ⊆ dom (data st').
Proof.
  induction calls as [|[[E session_id] ui] calls IH]; intros S0 sid st Hst.
  - exists st. by simpl.
  - rewrite run_cons.
    destruct (get_next_step_history E S0 session_id ui sid st Hst)
      as (st1 & Hst1 & Hd1 & Hl1 & Hk1).
    destruct (IH _ sid st1 Hst1) as (st2 & Hst2 & Hd2 & Hl2 & Hk2).
    exists st2. split; [done|]. split; [by etrans|]. split; [congruence | by etrans].
Qed.

Lemma session_history_kept_witness :
  exists st',
    (run three_calls store_at_1).2 !! "s1" = Some st'
    /\ [User "Quiero reservar una mesa"] `prefix_of` dialog st'
    /\ lang st' = Some "es"
    /\ dom (∅ : gmap (option string) string) ⊆ dom (data st').
Proof.
  apply (session_history_kept three_calls store_at_1 "s1"
           {| current_step := 1; data := ∅; dialog := [User "Quiero reservar una mesa"];
              lang := Some "es" |}).
  reflexivity.
Defined.

Lemma run_other calls : forall (S0 : gmap string session) sid,
  Forall (fun c : env * string * string => c.1.2 <> sid) calls ->
  (run calls S0).2 !! sid = S0 !! sid.
Proof.
  induction calls as [|[[E session_id] ui] calls IH]; intros S0 sid Hall; [done|].
  inversion Hall as [|? ? Hne Hrest]; subst. simpl in Hne.
  rewrite run_cons, IH by done. by apply get_next_step_other.
Qed.

(** X4.  Calls addressed to other sessions leave a session exactly as it
    is, and leave an absent session absent. *)
Theorem sessions_are_isolated :
  forall (calls : list (env * string * string)) (S0 : gmap string session) (sid : string),
    Forall (fun c : env * string * string => c.1.2 <> sid) calls ->
    (run calls S0).2 !! sid = S0 !! sid.
Proof. intros calls S0 sid Hall. by apply run_other. Qed.

Lemma sessions_are_isolated_witness :
  (run three_calls store_at_3).2 !! "s3" = store_at_3 !! "s3".
Proof.
  apply (sessions_are_isolated three_calls store_at_3 "s3").
  repeat constructor; discriminate.
Defined.

End EngineExtras.

(** ** The dialog engine: the texts of the replies *)

Section EngineSlots.
Import Script Utils Engine Examples MoreExamples.





End EngineSlots.

Section EngineTotality.
Import Script Utils Engine Examples MoreExamples.






(** X8.  Resetting a known session empties it and puts it back at index 0,
    leaves the other sessions alone, and makes the next call answer as it
    answers the first message of a new session. *)
Theorem reset_session_restarts_dialog :
  forall (S0 : gmap string session) (sid : string) (st : session),
    S0 !! sid = Some st ->
    exists S1,
      reset_session S0 sid = (true, S1)
      /\ step_of S1 sid = 0
      /\ get_dialogue_log S1 sid = []
      /\ (forall sid', sid' <> sid -> S1 !! sid' = S0 !! sid')
      /\ (forall E ui,
            (get_next_step E S1 sid ui).1 = (get_next_step E (delete sid S0) sid ui).1
            /\ get_dialogue_log (get_next_step E S1 sid ui).2 sid
               = get_dialogue_log (get_next_step E (delete sid S0) sid ui).2 sid).
Proof.
  intros S0 sid st Hst. unfold reset_session. rewrite Hst. eexists. split; [done|].
  unfold step_of, get_dialogue_log. rewrite lookup_insert_eq.
  split; [done|]. split; [done|]. split.
  - intros sid' Hne. by rewrite lookup_insert_ne.
  - intros E ui.
    destruct (message_for_script ask_people (call_lang E ui) 0 eq_refl) as [prompt Hp].
    rewrite (get_next_step_index_0 E (<[sid := {| current_step := 0; data := ∅;
                                                  dialog := []; lang := None |}]> S0)
               sid ui prompt);
      [|unfold step_of; by rewrite lookup_insert_eq | done].
    rewrite (get_next_step_index_0 E (delete sid S0) sid ui prompt);
      [|unfold step_of; by rewrite lookup_delete_eq | done].
    destruct (nlp_parser_importable E); simpl.
    + rewrite lookup_insert_eq, lookup_delete_eq. simpl.
      by rewrite !lookup_insert_eq.
    + by rewrite lookup_insert_eq, lookup_delete_eq.
Qed.

Lemma reset_session_restarts_dialog_witness :
  exists S1,
    reset_session store_at_2 "s1" = (true, S1)
    /\ step_of S1 "s1" = 0
    /\ get_dialogue_log S1 "s1" = []
    /\ (forall sid', sid' <> "s1" -> S1 !! sid' = store_at_2 !! sid')
    /\ (forall E ui,
          (get_next_step E S1 "s1" ui).1 = (get_next_step E (delete "s1" store_at_2) "s1" ui).1
          /\ get_dialogue_log (get_next_step E S1 "s1" ui).2 "s1"
             = get_dialogue_log (get_next_step E (delete "s1" store_at_2) "s1" ui).2 "s1").
Proof.
  apply (reset_session_restarts_dialog store_at_2 "s1" session_2).
  reflexivity.
Defined.

(** X9.  The engine answers a message that is blank or made of ASCII
    digits only in English, whatever the detector would say and whatever
    the language of the session: for a session at index 0 the reply is the
    English first prompt when the import of line 27 succeeds, the
    [ImportError] when it fails. *)
Theorem engine_answers_digits_in_english :
  forall (E : env) (S0 : gmap string session) (sid ui : string),
    falsy (strip ui) || isdigit (strip ui) = true ->
    step_of S0 sid = 0 ->
    call_lang E ui = "en"
    /\ (get_next_step E S0 sid ui).1
       = if nlp_parser_importable E
         then Return "How many people are you booking for?"
         else Raise ImportError.
Proof.
  intros E S0 sid ui Hinput H0.
  assert (Hlang : call_lang E ui = "en").
  { unfold call_lang, detect_language.
    destruct (falsy (strip ui)); [reflexivity|].
    simpl in Hinput. rewrite Hinput. reflexivity. }
  split; [exact Hlang|].
  rewrite (get_next_step_index_0 E S0 sid ui "How many people are you booking for?");
    [|done | by rewrite Hlang].
  by destruct (nlp_parser_importable E).
Qed.

Lemma engine_answers_digits_in_english_witness :
  call_lang env_sources "4" = "en"
  /\ (get_next_step env_sources ∅ "s9" "4").1
     = if nlp_parser_importable env_sources
       then Return "How many people are you booking for?"
       else Raise ImportError.
Proof.
  apply (engine_answers_digits_in_english env_sources ∅ "s9" "4"); reflexivity.
Defined.

End EngineTotality.

(** ** The restaurant service: further properties *)

Section FeatureExtraction.
Import RestaurantService Examples MoreExamples.

Lemma fold_features (cond : string * list (string * list string) -> bool) l :
  forall (acc : gmap string bool) f,
    fold_left (fun feats entry => if cond entry then <[entry.1 := true]> feats else feats)
              l acc !! f
    = if existsb (fun entry => String.eqb entry.1 f && cond entry) l
      then Some true else acc !! f.
Proof.
  induction l as [|entry l IH]; intros acc f; [done|].
  cbn [fold_left existsb]. rewrite IH.
  destruct (existsb _ l); [by rewrite orb_true_r|]. rewrite orb_false_r.
  destruct (cond entry); [|by rewrite andb_false_r]. rewrite andb_true_r.
  destruct (String.eqb_spec entry.1 f) as [->|Hne].
  - by rewrite lookup_insert_eq.
  - by rewrite lookup_insert_ne.
Qed.

Lemma extract_required_features_lookup user_input lang f :
  extract_required_features user_input lang !! f
  = if existsb (fun entry : string * list (string * list string) =>
                  String.eqb entry.1 f
                  && existsb (fun keyword => str_in keyword (lower user_input))
                             (keywords_of entry.2 (effective_lang lang)))
               FEATURE_KEYWORDS
    then Some true else None.
Proof.
  unfold extract_required_features.
  change (match dict_get "has_terrace" FEATURE_KEYWORDS with
          | Some by_lang => if list_in lang by_lang.*1 then lang else "en"
          | None => lang
          end) with (effective_lang lang).
  rewrite (fold_features
             (fun entry => existsb (fun keyword => str_in keyword (lower user_input))
                                   (keywords_of entry.2 (effective_lang lang)))).
  by rewrite lookup_empty.
Qed.

(** X10.  A feature is required exactly when one of its keywords for the
    language (the English ones for a language the table does not have)
    occurs in the lowercased input; no feature is ever recorded as [False];
    and a language outside the table gives what English gives. *)
Theorem required_features_from_keywords :
  forall (user_input lang f : string),
    (extract_required_features user_input lang !! f = Some true
     <-> exists by_lang keyword,
           In (f, by_lang) FEATURE_KEYWORDS
           /\ In keyword (keywords_of by_lang (effective_lang lang))
           /\ str_in keyword (lower user_input) = true)
    /\ extract_required_features user_input lang !! f <> Some false
    /\ (effective_lang lang = "en" ->
        extract_required_features user_input lang = extract_required_features user_input "en").
Proof.
  intros user_input lang f. split; [|split].
  - rewrite extract_required_features_lookup.
    destruct (existsb _ FEATURE_KEYWORDS) eqn:Hex.
    + split; [intros _|done].
      apply existsb_exists in Hex as ([f' by_lang] & Hin & Hcond).
      apply andb_true_iff in Hcond as [Heq Hkw]. simpl in Heq, Hkw.
      apply String.eqb_eq in Heq as ->.
      apply existsb_exists in Hkw as (keyword & Hkin & Hsub). eauto.
    + split; [discriminate|]. intros (by_lang & keyword & Hin & Hkin & Hsub).
      exfalso. apply not_true_iff_false in Hex. apply Hex.
      apply existsb_exists. exists (f, by_lang). split; [done|].
      simpl. rewrite String.eqb_refl. simpl. apply existsb_exists. eauto.
  - rewrite extract_required_features_lookup. by destruct (existsb _ _).
  - intros Hen. apply map_eq. intros g.
    rewrite !extract_required_features_lookup. by rewrite Hen.
Qed.

Lemma required_features_from_keywords_witness :
  extract_required_features "Una TERRAZA, por favor" "pt" !! "has_terrace" <> Some false
  /\ extract_required_features "Una TERRAZA, por favor" "pt"
     = extract_required_features "Una TERRAZA, por favor" "en".
Proof.
  split.
  - apply (required_features_from_keywords "Una TERRAZA, por favor" "pt" "has_terrace").
  - apply (required_features_from_keywords "Una TERRAZA, por favor" "pt" "has_terrace").
    reflexivity.
Defined.

End FeatureExtraction.

Section Retries.
Import RestaurantService Examples MoreExamples.

Lemma first_response_later (query : nat -> outcome (list node)) i source_nodes :
  forall start remaining,
    i < remaining ->
    (forall j, j < i -> exists e, query (start + j) = Raise e) ->
    query (start + i) = Return source_nodes ->
    first_response query start remaining = Some source_nodes.
Proof.
  induction i as [|i IH]; intros start remaining Hlt Hfail Hok.
  - destruct remaining; [lia|]. simpl. rewrite Nat.add_0_r in Hok. by rewrite Hok.
  - destruct remaining; [lia|]. simpl.
    destruct (Hfail 0) as [e He]; [lia|]. rewrite Nat.add_0_r in He. rewrite He.
    apply IH; [lia| |].
    + intros j Hj. destruct (Hfail (S j)) as [e' He']; [lia|].
      exists e'. by replace (S start + j) with (start + S j) by lia.
    + by replace (S start + i) with (start + S i) by lia.
Qed.

Lemma first_response_none (query : nat -> outcome (list node)) :
  forall remaining start,
    (forall j, j < remaining -> exists e, query (start + j) = Raise e) ->
    first_response query start remaining = None.
Proof.
  induction remaining as [|remaining IH]; intros start Hfail; [done|]. simpl.
  destruct (Hfail 0) as [e He]; [lia|]. rewrite Nat.add_0_r in He. rewrite He.
  apply IH. intros j Hj. destruct (Hfail (S j)) as [e' He']; [lia|].
  exists e'. by replace (S start + j) with (start + S j) by lia.
Qed.

(** X11.  When the retriever raises on its first attempts and answers on
    the second or third, [query_places] returns the filtered answer of that
    attempt and stores it in the cache. *)
Theorem query_places_retries_until_answer :
  forall (R : rag_env) (cache : Cache.TTLCache (list place)) (user_query : string)
         (required_features : gmap string bool)
         (engine : string -> nat -> outcome (list node)) (i : nat)
         (source_nodes : list node),
    metrics_importable R = true ->
    rag_query_engine R = Some engine ->
    Cache.get cache (now R) (cache_key user_query required_features) = None ->
    i < max_retries ->
    (forall j, j < i -> exists e, engine user_query j = Raise e) ->
    engine user_query i = Return source_nodes ->
    query_places R cache user_query required_features
    = (Return (filter_nodes source_nodes required_features),
       Cache.put cache (now R) (cache_key user_query required_features)
         (filter_nodes source_nodes required_features)).
Proof.
  intros R cache user_query required_features engine i source_nodes Hm He Hc Hi Hfail Hok.
  unfold query_places. rewrite Hm, He. cbn -[first_response max_retries Cache.get Cache.put].
  rewrite Hc. by rewrite (first_response_later _ i source_nodes 0 max_retries).
Qed.

Lemma query_places_retries_until_answer_witness :
  query_places rag_third_attempt rag_query_cache "a place with a terrace" wants_terrace
  = (Return (filter_nodes two_nodes wants_terrace),
     Cache.put rag_query_cache (now rag_third_attempt)
       (cache_key "a place with a terrace" wants_terrace)
       (filter_nodes two_nodes wants_terrace)).
Proof.
  apply (query_places_retries_until_answer rag_third_attempt rag_query_cache
           "a place with a terrace" wants_terrace
           (fun _ i => if (i <? 2)%nat then Raise TimeoutError else Return two_nodes)
           2 two_nodes).
  - reflexivity.
  - reflexivity.
  - reflexivity.
  - unfold max_retries. lia.
  - intros j Hj. exists TimeoutError.
    destruct j as [|[|j]]; [reflexivity | reflexivity | lia].
  - reflexivity.
Defined.

(** X12.  When the retriever raises on its first three attempts,
    [query_places] gives up: it returns the empty list and leaves the cache
    as it was, so the failure is not remembered. *)
Theorem query_places_gives_up_after_three :
  forall (R : rag_env) (cache : Cache.TTLCache (list place)) (user_query : string)
         (required_features : gmap string bool)
         (engine : string -> nat -> outcome (list node)),
    metrics_importable R = true ->
    rag_query_engine R = Some engine ->
    Cache.get cache (now R) (cache_key user_query required_features) = None ->
    (forall j, j < 3 -> exists e, engine user_query j = Raise e) ->
    query_places R cache user_query required_features = (Return [], cache).
Proof.
  intros R cache user_query required_features engine Hm He Hc Hfail.
  unfold query_places. rewrite Hm, He. cbn -[first_response max_retries Cache.get Cache.put].
  rewrite Hc. by rewrite (first_response_none _ max_retries 0).
Qed.

Lemma query_places_gives_up_after_three_witness :
  query_places rag_fourth_attempt rag_query_cache "a place with a terrace" wants_terrace
  = (Return [], rag_query_cache).
Proof.
  apply (query_places_gives_up_after_three rag_fourth_attempt rag_query_cache
           "a place with a terrace" wants_terrace
           (fun _ i => if (i <? 3)%nat then Raise TimeoutError else Return two_nodes)).
  - reflexivity.
  - reflexivity.
  - reflexivity.
  - intros j Hj. exists TimeoutError.
    destruct j as [|[|[|j]]]; [reflexivity | reflexivity | reflexivity | lia].
Defined.

End Retries.

Section CapitalKeywords.
Import RestaurantService Examples MoreExamples.

Lemma shifted_high_byte d :
  byte_in 128 255 d = true ->
  is_upper (shift_up 32 d) = false
  /\ is_upper (shift_down 32 d) = false
  /\ is_upper (shift_up 16 d) = false.
Proof.
  destruct d as [[] [] [] [] [] [] [] []]; vm_compute; intros H;
    first [discriminate H | repeat split; reflexivity].
Qed.

Lemma byte_in_high lo hi d :
  128 <= lo -> byte_in lo hi d = true -> byte_in 128 255 d = true.
Proof.
  unfold byte_in. intros Hlo H. apply andb_true_iff in H as [H1 H2].
  apply Nat.leb_le in H1. pose proof (nat_ascii_bounded d).
  apply andb_true_iff. split; apply Nat.leb_le; lia.
Qed.

Lemma shifted_capital c : is_upper c = true -> is_upper (shift_up 32 c) = false.
Proof.
  destruct c as [[] [] [] [] [] [] [] []]; vm_compute; intros H;
    first [discriminate H | reflexivity].
Qed.

(** The lowercased text holds no ASCII capital. *)
Lemma lower_no_capital s : all_chars (fun c => negb (is_upper c)) (lower s) = true.
Proof.
  enough (H : all_chars (fun c => negb (is_upper c)) (lower s) = true
              /\ forall c, all_chars (fun c => negb (is_upper c)) (lower (String c s)) = true)
    by apply H.
  induction s as [|d s [IH1 IH2]].
  - split; [done|]. intros c. cbn [lower].
    fold (is_upper c). destruct (is_upper c) eqn:Hc; cbn [all_chars lower].
    + by rewrite shifted_capital.
    + by rewrite Hc.
  - split; [apply IH2|]. intros c.
    change (lower (String c (String d s)))
      with (if is_upper c then String (shift_up 32 c) (lower (String d s))
            else if byte_in 195 195 c && byte_in 128 158 d && negb (byte_in 151 151 d)
            then String c (String (shift_up 32 d) (lower s))
            else if byte_in 208 208 c && byte_in 144 159 d
            then String c (String (shift_up 32 d) (lower s))
            else if byte_in 208 208 c && byte_in 160 175 d
            then String (ascii_of_nat 209) (String (shift_down 32 d) (lower s))
            else if byte_in 208 208 c && byte_in 128 143 d
            then String (ascii_of_nat 209) (String (shift_up 16 d) (lower s))
            else String c (lower (String d s))).
    destruct (is_upper c) eqn:Hc.
    { cbn [all_chars]. by rewrite shifted_capital, IH2. }
    destruct (byte_in 195 195 c && byte_in 128 158 d && negb (byte_in 151 151 d)) eqn:H1.
    { apply andb_true_iff in H1 as [H1 _]. apply andb_true_iff in H1 as [_ H1].
      apply (byte_in_high 128 158) in H1; [|lia].
      destruct (shifted_high_byte d H1) as (E & _ & _).
      cbn [all_chars]. by rewrite E, Hc, IH1. }
    destruct (byte_in 208 208 c && byte_in 144 159 d) eqn:H2.
    { apply andb_true_iff in H2 as [_ H2].
      apply (byte_in_high 144 159) in H2; [|lia].
      destruct (shifted_high_byte d H2) as (E & _ & _).
      cbn [all_chars]. by rewrite E, Hc, IH1. }
    destruct (byte_in 208 208 c && byte_in 160 175 d) eqn:H3.
    { apply andb_true_iff in H3 as [_ H3].
      apply (byte_in_high 160 175) in H3; [|lia].
      destruct (shifted_high_byte d H3) as (_ & E & _).
      cbn [all_chars]. by rewrite E, IH1. }
    destruct (byte_in 208 208 c && byte_in 128 143 d) eqn:H4.
    { apply andb_true_iff in H4 as [_ H4].
      apply (byte_in_high 128 143) in H4; [|lia].
      destruct (shifted_high_byte d H4) as (_ & _ & E).
      cbn [all_chars]. by rewrite E, IH1. }
    cbn [all_chars]. by rewrite Hc, IH2.
Qed.

Lemma prefix_all_chars p w : forall t,
  String.prefix w t = true -> all_chars p t = true -> all_chars p w = true.
Proof.
  induction w as [|a w IH]; intros [|b t]; simpl; try done.
  destruct (ascii_dec a b) as [->|]; [|done].
  intros Hpre H. apply andb_true_iff in H as [-> Ht]. simpl. eauto.
Qed.

Lemma str_in_all_chars p w t :
  str_in w t = true -> all_chars p t = true -> all_chars p w = true.
Proof.
  induction t as [|b t IH].
  - cbn [str_in]. intros Hpre _. destruct w; [done | simpl in Hpre; discriminate].
  - cbn [str_in]. intros H Ht. apply orb_true_iff in H as [H|H].
    + eauto using prefix_all_chars.
    + apply IH; [done|]. simpl in Ht. by apply andb_true_iff in Ht as [_ Ht].
Qed.

Lemma any_not_all p s :
  any_char p s = true -> all_chars (fun c => negb (p c)) s = false.
Proof.
  induction s as [|c s IH]; simpl; [discriminate|].
  destruct (p c); simpl; [done|]. exact IH.
Qed.

(** X13.  The text is lowercased before the keywords are looked for, the
    keywords are not: a language all of whose keywords hold an ASCII capital
    letter never triggers the booking dialog, whatever the text. *)
Theorem capitalised_keywords_never_trigger :
  forall (KEYWORDS : gmap string (list string)) (text lang : string),
    (forall keyword, In keyword (default [] (KEYWORDS !! lang)) ->
                     any_char is_upper keyword = true) ->
    contains_restaurant_trigger KEYWORDS text lang = false.
Proof.
  intros KEYWORDS text lang Hcap.
  apply not_true_is_false. intros Htrig.
  apply trigger_iff_unique_keyword in Htrig as (keyword & Hin & Hsub & _).
  pose proof (str_in_all_chars _ _ _ Hsub (lower_no_capital text)) as Hall.
  by rewrite (any_not_all _ _ (Hcap keyword Hin)) in Hall.
Qed.

Lemma capitalised_keywords_never_trigger_witness :
  contains_restaurant_trigger keywords_capital "A Restaurant, please" "en" = false.
Proof.
  apply (capitalised_keywords_never_trigger keywords_capital "A Restaurant, please" "en").
  intros keyword Hin.
  change (default [] (keywords_capital !! "en")) with ["Restaurant"] in Hin.
  destruct Hin as [<-|[]]. reflexivity.
Defined.

End CapitalKeywords.

(** ** The orchestrator: further properties *)

Section Sanitize.
Import ChatService Examples MoreExamples.

Lemma keep_printable_cons c s :
  keep_printable (String c s)
  = if printable c then String c (keep_printable s) else keep_printable s.
Proof.
  unfold keep_printable, printable. cbn [list_ascii_of_string List.filter].
  by destruct (32 <=? nat_of_ascii c)%nat.
Qed.

Lemma keep_printable_printable s : all_chars printable (keep_printable s) = true.
Proof.
  induction s as [|c s IH]; [done|]. rewrite keep_printable_cons.
  destruct (printable c) eqn:Hc; [|done]. simpl. by rewrite Hc.
Qed.

Lemma keep_printable_id s : all_chars printable s = true -> keep_printable s = s.
Proof.
  induction s as [|c s IH]; [done|]. simpl. intros H.
  apply andb_true_iff in H as [Hc Hs]. rewrite keep_printable_cons, Hc. by rewrite IH.
Qed.

Lemma len_take_chars s : forall n, len (take_chars n s) <= n.
Proof.
  induction s as [|c s IH]; intros n; simpl; [lia|].
  destruct (is_lead c) eqn:Hc.
  - destruct n; simpl; [lia|]. rewrite Hc. specialize (IH n). lia.
  - simpl. rewrite Hc. apply IH.
Qed.

Lemma take_chars_id s : forall n, len s <= n -> take_chars n s = s.
Proof.
  induction s as [|c s IH]; intros n; simpl; [done|].
  destruct (is_lead c); intros Hle.
  - destruct n; [lia|]. rewrite IH; [done | lia].
  - by rewrite IH.
Qed.

Lemma all_chars_take_chars p s : forall n,
  all_chars p s = true -> all_chars p (take_chars n s) = true.
Proof.
  induction s as [|c s IH]; intros n; simpl; [done|].
  intros H. apply andb_true_iff in H as [Hc Hs].
  destruct (is_lead c); [destruct n; [done|]|]; simpl; rewrite Hc; by apply IH.
Qed.

Lemma sanitize_input_bounds text :
  all_chars printable (sanitize_input text) = true /\ len (sanitize_input text) <= 500.
Proof.
  unfold sanitize_input.
  destruct (500 <? len (keep_printable text))%nat eqn:Hlong.
  - split; [apply all_chars_take_chars, keep_printable_printable | apply len_take_chars].
  - split; [apply keep_printable_printable | by apply Nat.ltb_ge in Hlong].
Qed.

Lemma sanitize_input_clean text :
  all_chars printable text = true -> len text <= 500 -> sanitize_input text = text.
Proof.
  intros Hp Hlen. unfold sanitize_input. rewrite keep_printable_id by done.
  destruct (500 <? len text)%nat eqn:Hlong; [|done].
  apply Nat.ltb_lt in Hlong. lia.
Qed.

(** X14.  The sanitised input holds no control character (no code below
    32) and has at most 500 characters. *)
Theorem sanitize_input_is_bounded :
  forall text : string,
    all_chars printable (sanitize_input text) = true
    /\ len (sanitize_input text) <= 500.
Proof. intros text. apply sanitize_input_bounds. Qed.

(** X15.  Sanitising is idempotent, and it returns a text without control
    characters and of at most 500 characters as it is. *)
Theorem sanitize_input_idempotent :
  forall text : string,
    sanitize_input (sanitize_input text) = sanitize_input text
    /\ (all_chars printable text = true -> len text <= 500 -> sanitize_input text = text).
Proof.
  intros text. split; [|apply sanitize_input_clean].
  destruct (sanitize_input_bounds text). by apply sanitize_input_clean.
Qed.

End Sanitize.

Section RequestLanguage.
Import RestaurantService ChatService Examples MoreExamples.

(** X16.  The language a request is answered in is always one of the six
    supported ones, whatever the hint and the detector give; and a hint that
    is a supported language is used as it is, without detection. *)
Theorem request_language_is_supported :
  forall (Sv : services) (user_input : string) (detected_language : option string),
    In (request_language Sv user_input detected_language) SUPPORTED_LANGS
    /\ (forall l, detected_language = Some l -> In l SUPPORTED_LANGS ->
                  request_language Sv user_input detected_language = l).
Proof.
  intros Sv user_input detected_language. split.
  - unfold request_language.
    destruct (list_in _ SUPPORTED_LANGS) eqn:Hin; [by apply list_in_In | by left].
  - intros l -> Hl. unfold request_language.
    assert (Hne : falsy l = false).
    { simpl in Hl. destruct Hl as [<-|[<-|[<-|[<-|[<-|[<-|[]]]]]]]; reflexivity. }
    rewrite Hne. apply list_in_In in Hl. by rewrite Hl.
Qed.

Lemma compose_reply_world Sv W user_input detected_lang sentiment top_context :
  (compose_reply Sv W user_input detected_lang sentiment top_context).2 = W.
Proof.
  unfold compose_reply, bindw.
  destruct (get_chatgpt_response Sv _ _ _); [|done].
  destruct (get_proverb_by_sentiment Sv _ _); [|done].
  by destruct (if list_in detected_lang ["en"; "ca"] then _ else _).
Qed.

Lemma try_block_sessions Sv W user_input session_id detected_language :
  SESSION_STATE (try_block Sv W user_input session_id detected_language).2 = SESSION_STATE W.
Proof.
  unfold try_block, bindw.
  destruct (services_importable Sv); simpl; [|done].
  destruct (track_session Sv _ _); [|done].
  destruct (analyze_sentiment Sv _); [|done].
  destruct (contains_restaurant_trigger _ _ _).
  - by rewrite handle_restaurant_dialog_eq.
  - destruct (query_places _ _ _ _) as [[rag_results|e] cache1]; [|done].
    by rewrite compose_reply_world.
Qed.

(** X17.  No request changes the session store: whatever the input and the
    collaborators, the sessions after [process_request_async] are the
    sessions before it. *)
Theorem orchestrator_never_changes_sessions :
  forall (Sv : services) (W : world) (user_input session_id : string)
         (detected_language : option string),
    SESSION_STATE (process_request_async Sv W user_input session_id detected_language).2
    = SESSION_STATE W.
Proof.
  intros Sv W user_input session_id detected_language.
  unfold process_request_async. destruct (falsy user_input); [done|].
  pose proof (try_block_sessions Sv W (sanitize_input user_input) session_id
                detected_language) as Hs.
  by destruct (try_block _ _ _ _ _) as [[r|e] W1].
Qed.

(** X18.  A message that triggers the booking dialog is answered with the
    fixed reply of the hand-off and nothing else happens: the retriever, the
    completion service and the proverbs are not consulted, and sessions and
    cache stay as they were. *)
Theorem booking_request_gets_fixed_reply :
  forall (Sv : services) (W : world) (user_input session_id : string)
         (detected_language : option string),
    user_input <> "" ->
    services_importable Sv = true ->
    (exists u, track_session Sv session_id (sanitize_input user_input) = Return u) ->
    (exists s, analyze_sentiment Sv (sanitize_input user_input) = Return s) ->
    contains_restaurant_trigger (RESTAURANT_KEYWORDS_BY_LANG Sv) (sanitize_input user_input)
      (request_language Sv (sanitize_input user_input) detected_language) = true ->
    process_request_async Sv W user_input session_id detected_language
    = (Return (if engine_importable (hand_off Sv) then reply_unavailable
               else reply_maintenance), W).
Proof.
  intros Sv W user_input session_id detected_language Hne Himp [u Htrack] [s Hsent] Htrig.
  unfold process_request_async.
  destruct user_input as [|c rest]; [done|]. cbn [falsy].
  unfold try_block, bindw. rewrite Himp, Htrack, Hsent. cbn [negb].
  rewrite Htrig, handle_restaurant_dialog_eq. by destruct W.
Qed.

Lemma booking_request_gets_fixed_reply_witness :
  process_request_async (services_ok rag_answers) world0 "Quiero un restaurante" "s1" None
  = (Return (if engine_importable (hand_off (services_ok rag_answers))
             then reply_unavailable else reply_maintenance), world0).
Proof.
  apply (booking_request_gets_fixed_reply (services_ok rag_answers) world0
           "Quiero un restaurante" "s1" None).
  - discriminate.
  - reflexivity.
  - exists tt. reflexivity.
  - exists "Positive". reflexivity.
  - vm_compute. reflexivity.
Defined.

End RequestLanguage.

(** ** Translation and completion services *)

Section Translation.
Import TranslationService Examples MoreExamples.

Lemma translate_text_outcome T st text target_language :
  metrics_importable T = true ->
  (translate_text T st text target_language = (Return text, st)
   /\ (falsy text || String.eqb target_language "en" = true
       \/ (Cache.get (translation_cache st) (now T) (text +:+ ":" +:+ target_language) = None
           /\ bool_decide ("en-" +:+ target_language ∈ translator_pool st)
              || construct T target_language = false)))
  \/ (exists cached,
        Cache.get (translation_cache st) (now T) (text +:+ ":" +:+ target_language)
        = Some cached
        /\ translate_text T st text target_language = (Return cached, st))
  \/ (exists st',
        translate_text T st text target_language = (Return text, st')
        /\ translation_cache st' = translation_cache st
        /\ exists e, translate T target_language text = Raise e)
  \/ (exists translated,
        translate T target_language text = Return translated
        /\ translate_text T st text target_language
           = (Return translated,
              {| translation_cache :=
                   Cache.put (translation_cache st) (now T)
                     (text +:+ ":" +:+ target_language) translated;
                 translator_pool := {[ "en-" +:+ target_language ]} ∪ translator_pool st |})).
Proof.
  intros Hm. unfold translate_text.
  destruct (falsy text || String.eqb target_language "en") eqn:Hskip; [left; auto|].
  rewrite Hm. cbn [negb].
  destruct (Cache.get _ _ _) as [cached|] eqn:Hget; [right; left; eauto|].
  destruct (bool_decide _ || construct T target_language) eqn:Hpool; [|left; auto].
  destruct (translate T target_language text) as [translated|e] eqn:Htr.
  - right; right; right. eauto.
  - right; right; left. eexists. split; [done|]. split; [done|]. eauto.
Qed.

(** X19.  Once the metrics module imports, [translate_text] never raises:
    it returns the cached translation, the translator's answer, or the text
    itself; and the cache is written only when the translator answers, so a
    failure is not remembered. *)
Theorem translate_text_never_fails :
  forall (T : env) (st : state) (text target_language : string),
    metrics_importable T = true ->
    exists r,
      (translate_text T st text target_language).1 = Return r
      /\ (r = text
          \/ Cache.get (translation_cache st) (now T) (text +:+ ":" +:+ target_language)
             = Some r
          \/ translate T target_language text = Return r)
      /\ ((forall translated, translate T target_language text <> Return translated) ->
          translation_cache (translate_text T st text target_language).2
          = translation_cache st).
Proof.
  intros T st text target_language Hm.
  destruct (translate_text_outcome T st text target_language Hm)
    as [[-> _]|[(cached & Hget & ->)|[(st' & -> & Hc & _)|(translated & Htr & ->)]]].
  - exists text. auto.
  - exists cached. auto.
  - exists text. auto.
  - exists translated. split; [done|]. split; [auto|]. intros Hnever.
    by destruct (Hnever translated).
Qed.

Lemma translate_text_never_fails_witness :
  exists r,
    (translate_text translator_down initial "Good morning" "es").1 = Return r
    /\ (r = "Good morning"
        \/ Cache.get (translation_cache initial) (now translator_down)
             ("Good morning" +:+ ":" +:+ "es") = Some r
        \/ translate translator_down "es" "Good morning" = Return r)
    /\ ((forall translated,
            translate translator_down "es" "Good morning" <> Return translated) ->
        translation_cache (translate_text translator_down initial "Good morning" "es").2
        = translation_cache initial).
Proof.
  apply (translate_text_never_fails translator_down initial "Good morning" "es").
  reflexivity.
Defined.

(** X20.  A translation obtained from the translator is served from the
    cache while its time-to-live lasts: a later call with the same text and
    target returns it and changes nothing, whatever the translator would do
    then. *)
Theorem translate_text_serves_from_cache :
  forall (T T' : env) (st : state) (text target_language translated : string),
    metrics_importable T = true ->
    metrics_importable T' = true ->
    falsy text || String.eqb target_language "en" = false ->
    (0 < Cache.maxsize (translation_cache st))%nat ->
    Cache.get (translation_cache st) (now T) (text +:+ ":" +:+ target_language) = None ->
    bool_decide ("en-" +:+ target_language ∈ translator_pool st)
    || construct T target_language = true ->
    translate T target_language text = Return translated ->
    (now T' < now T + Cache.ttl (translation_cache st))%Z ->
    let first := translate_text T st text target_language in
    first.1 = Return translated
    /\ translate_text T' first.2 text target_language = (Return translated, first.2).
Proof.
  intros T T' st text target_language translated Hm Hm' Hskip Hsize Hmiss Hpool Htr Hlive.
  assert (Hfirst : translate_text T st text target_language
                   = (Return translated,
                      {| translation_cache :=
                           Cache.put (translation_cache st) (now T)
                             (text +:+ ":" +:+ target_language) translated;
                         translator_pool :=
                           {[ "en-" +:+ target_language ]} ∪ translator_pool st |})).
  { unfold translate_text. rewrite Hskip, Hm. cbn [negb]. by rewrite Hmiss, Hpool, Htr. }
  cbv zeta. rewrite Hfirst. cbn [fst snd]. split; [done|].
  unfold translate_text. rewrite Hskip, Hm'. cbn [negb translation_cache].
  rewrite get_put_live; [done | done | lia].
Qed.

Lemma translate_text_serves_from_cache_witness :
  (translate_text translator_es initial "Good morning" "es").1 = Return "Buenos días"
  /\ translate_text translator_down (translate_text translator_es initial "Good morning" "es").2
       "Good morning" "es"
     = (Return "Buenos días", (translate_text translator_es initial "Good morning" "es").2).
Proof.
  apply (translate_text_serves_from_cache translator_es translator_down initial
           "Good morning" "es" "Buenos días").
  - reflexivity.
  - reflexivity.
  - reflexivity.
  - vm_compute. lia.
  - reflexivity.
  - reflexivity.
  - reflexivity.
  - vm_compute. reflexivity.
Defined.

End Translation.

Section Completion.
Import ChatGPTService Examples MoreExamples.

(** The answer of a failed completion is what [translate_text] makes of
    the fixed sentence: the sentence itself, its cached translation or the
    translator's answer for it. *)
Lemma fallback_reply_outcome G st sentence detected_lang :
  TranslationService.metrics_importable (translation G) = true ->
  fallback_reply G st sentence detected_lang
  = ((TranslationService.translate_text (translation G) (translation_state st)
        sentence detected_lang).1,
     {| response_cache := response_cache st;
        translation_state :=
          (TranslationService.translate_text (translation G) (translation_state st)
             sentence detected_lang).2 |})
  /\ (exists r,
        (TranslationService.translate_text (translation G) (translation_state st)
           sentence detected_lang).1 = Return r
        /\ (r = sentence
            \/ Cache.get (TranslationService.translation_cache (translation_state st))
                 (TranslationService.now (translation G))
                 (sentence +:+ ":" +:+ detected_lang) = Some r
            \/ TranslationService.translate (translation G) detected_lang sentence
               = Return r))
  /\ (detected_lang = "en" ->
      fallback_reply G st sentence detected_lang = (Return sentence, st)).
Proof.
  intros Hm. split; [|split].
  - unfold fallback_reply. by destruct (TranslationService.translate_text _ _ _ _).
  - destruct (translate_text_outcome (translation G) (translation_state st) sentence
                detected_lang Hm)
      as [[Heq _]|[(cached & Hc & Heq)|[(st' & Heq & _)|(translated & Ht & Heq)]]];
      rewrite Heq; simpl; eauto 6.
  - intros ->. unfold fallback_reply, TranslationService.translate_text.
    rewrite orb_true_r. by destruct st.
Qed.

(** X21.  When the completion service fails, [get_chatgpt_response] does
    not raise: its answer is what [translate_text] returns for the sentence
    fixed for that class of failure and the language of the request (that
    sentence itself, its cached translation or the translator's answer for
    it), the translation state is the one [translate_text] leaves, and
    nothing is stored in the response cache; for English the answer is the
    sentence itself and the state is left as it was. *)
Theorem completion_failure_gets_fixed_sentence :
  forall (G : env) (st : state) (user_input detected_lang : string)
         (context : option string),
    TranslationService.metrics_importable (translation G) = true ->
    Cache.get (response_cache st) (TranslationService.now (translation G))
      (user_input +:+ ":" +:+ detected_lang) = None ->
    is_completed (create G (system_message G user_input detected_lang context) user_input)
    = false ->
    let sentence :=
      failure_sentence (create G (system_message G user_input detected_lang context)
                          user_input) in
    let translated :=
      TranslationService.translate_text (translation G) (translation_state st)
        sentence detected_lang in
    get_chatgpt_response G st user_input detected_lang context
    = (translated.1,
       {| response_cache := response_cache st; translation_state := translated.2 |})
    /\ (exists r,
          translated.1 = Return r
          /\ (r = sentence
              \/ Cache.get (TranslationService.translation_cache (translation_state st))
                   (TranslationService.now (translation G))
                   (sentence +:+ ":" +:+ detected_lang) = Some r
              \/ TranslationService.translate (translation G) detected_lang sentence
                 = Return r))
    /\ (detected_lang = "en" ->
        get_chatgpt_response G st user_input detected_lang context
        = (Return sentence, st)).
Proof.
  intros G st user_input detected_lang context Hm Hmiss Hfail. cbv zeta.
  unfold get_chatgpt_response. rewrite Hm, Hmiss. cbn [negb].
  destruct (create G _ user_input); [discriminate|..];
    by apply fallback_reply_outcome.
Qed.

Lemma completion_failure_gets_fixed_sentence_witness :
  let sentence :=
    failure_sentence (create gpt_rate_limited
                        (system_message gpt_rate_limited "Hola" "es" None) "Hola") in
  let translated :=
    TranslationService.translate_text (translation gpt_rate_limited)
      (translation_state initial) sentence "es" in
  get_chatgpt_response gpt_rate_limited initial "Hola" "es" None
  = (translated.1,
     {| response_cache := response_cache initial; translation_state := translated.2 |})
  /\ (exists r,
        translated.1 = Return r
        /\ (r = sentence
            \/ Cache.get (TranslationService.translation_cache (translation_state initial))
                 (TranslationService.now (translation gpt_rate_limited))
                 (sentence +:+ ":" +:+ "es") = Some r
            \/ TranslationService.translate (translation gpt_rate_limited) "es" sentence
               = Return r))
  /\ ("es" = "en" ->
      get_chatgpt_response gpt_rate_limited initial "Hola" "es" None
      = (Return sentence, initial)).
Proof.
  apply (completion_failure_gets_fixed_sentence gpt_rate_limited initial "Hola" "es" None).
  - reflexivity.
  - reflexivity.
  - reflexivity.
Defined.

(** X22.  The response cache is keyed by the user input and the language
    only: after a completed call, a later call with the same input and
    language returns the stored response while the time-to-live lasts,
    whatever context it is given and whatever the completion service would
    answer, and it changes nothing. *)
Theorem response_cache_ignores_context :
  forall (G G' : env) (st : state) (user_input detected_lang content : string)
         (context context' : option string),
    TranslationService.metrics_importable (translation G) = true ->
    TranslationService.metrics_importable (translation G') = true ->
    (0 < Cache.maxsize (response_cache st))%nat ->
    Cache.get (response_cache st) (TranslationService.now (translation G))
      (user_input +:+ ":" +:+ detected_lang) = None ->
    create G (system_message G user_input detected_lang context) user_input
    = Completed content ->
    (TranslationService.now (translation G')
     < TranslationService.now (translation G) + Cache.ttl (response_cache st))%Z ->
    let first := get_chatgpt_response G st user_input detected_lang context in
    first.1 = Return (strip content)
    /\ get_chatgpt_response G' first.2 user_input detected_lang context'
       = (Return (strip content), first.2).
Proof.
  intros G G' st user_input detected_lang content context context' Hm Hm' Hsize Hmiss
         Hdone Hlive.
  assert (Hfirst : get_chatgpt_response G st user_input detected_lang context
                   = (Return (strip content),
                      {| response_cache :=
                           Cache.put (response_cache st)
                             (TranslationService.now (translation G))
                             (user_input +:+ ":" +:+ detected_lang) (strip content);
                         translation_state := translation_state st |})).
  { unfold get_chatgpt_response. rewrite Hm, Hmiss. cbn [negb]. by rewrite Hdone. }
  cbv zeta. rewrite Hfirst. cbn [fst snd]. split; [done|].
  unfold get_chatgpt_response. rewrite Hm'. cbn [negb response_cache].
  rewrite get_put_live; [done | done | lia].
Qed.

Lemma response_cache_ignores_context_witness :
  (get_chatgpt_response gpt_answers initial "Where to eat?" "en" (Some "Bar Boia")).1
  = Return (strip " Try the harbour. ")
  /\ get_chatgpt_response gpt_rate_limited
       (get_chatgpt_response gpt_answers initial "Where to eat?" "en" (Some "Bar Boia")).2
       "Where to eat?" "en" (Some "Can Rafa")
     = (Return (strip " Try the harbour. "),
        (get_chatgpt_response gpt_answers initial "Where to eat?" "en" (Some "Bar Boia")).2).
Proof.
  apply (response_cache_ignores_context gpt_answers gpt_rate_limited initial
           "Where to eat?" "en" " Try the harbour. " (Some "Bar Boia") (Some "Can Rafa")).
  - reflexivity.
  - reflexivity.
  - vm_compute. lia.
  - reflexivity.
  - reflexivity.
  - vm_compute. reflexivity.
Defined.

End Completion.

(** ** Proverb selection *)

Section Proverbs.
Import SentimentService Examples MoreExamples.

Lemma deque_append_length {A : Type} (x : A) (d : list A) :
  length d <= 50 -> length (deque_append x d) <= 50.
Proof.
  intros Hd. unfold deque_append. rewrite length_drop, length_app. simpl. lia.
Qed.

Lemma deque_append_last {A : Type} (x : A) (d : list A) :
  last (deque_append x d) = Some x.
Proof.
  unfold deque_append.
  rewrite last_lookup, lookup_drop, length_drop, length_app. simpl.
  replace (length d + 1 - 50 + Nat.pred (length d + 1 - (length d + 1 - 50)))
    with (length d) by lia.
  by rewrite lookup_app_r, Nat.sub_diag.
Qed.

(** The pool is never empty, holds rows of the dataset only, holds rows of
    the sentiment only if the dataset has one, and rows not recently used
    only if the dataset has one for the sentiment. *)
Lemma available_proverbs_pool df recent s :
  df <> [] ->
  available_proverbs df recent s <> []
  /\ (forall row, In row (available_proverbs df recent s) -> In row df)
  /\ ((exists row, In row df /\ sentiment row = s) ->
      forall row, In row (available_proverbs df recent s) -> sentiment row = s)
  /\ ((exists row, In row df /\ sentiment row = s
                   /\ ~ id row ∈ recently_used_ids recent s) ->
      forall row, In row (available_proverbs df recent s) ->
                  ~ id row ∈ recently_used_ids recent s).
Proof.
  intros Hdf. unfold available_proverbs.
  remember (List.filter (fun row => String.eqb (sentiment row) s) df) as by_sentiment
    eqn:Hby.
  assert (Hby_in : forall row, In row by_sentiment <-> In row df /\ sentiment row = s).
  { intros row. subst by_sentiment. rewrite filter_In. by rewrite String.eqb_eq. }
  clear Hby.
  remember (match by_sentiment with [] => df | _ => by_sentiment end) as filtered
    eqn:Hfiltered.
  assert (Hfiltered_ne : filtered <> []) by (subst filtered; by destruct by_sentiment).
  assert (Hfiltered_in : forall row, In row filtered -> In row df).
  { subst filtered. intros row Hin. destruct by_sentiment; [done|]. by apply Hby_in. }
  assert (Hfiltered_s : forall r0, In r0 df -> sentiment r0 = s ->
                          In r0 filtered
                          /\ forall row, In row filtered -> sentiment row = s).
  { intros r0 Hr0 Hs0. assert (In r0 by_sentiment) as Hr0' by by apply Hby_in.
    subst filtered. destruct by_sentiment; [done|]. split; [done|].
    intros row Hin. by apply Hby_in. }
  clear Hfiltered.
  remember (List.filter
              (fun row => negb (bool_decide (id row ∈ recently_used_ids recent s)))
              filtered) as unused eqn:Hunused.
  assert (Hunused_in : forall row, In row unused
                                   <-> In row filtered
                                       /\ ~ id row ∈ recently_used_ids recent s).
  { intros row. subst unused. rewrite filter_In, negb_true_iff.
    by rewrite bool_decide_eq_false. }
  clear Hunused.
  split; [|split; [|split]].
  - by destruct unused.
  - intros row Hin. destruct unused; [auto|]. apply Hfiltered_in. by apply Hunused_in.
  - intros (r0 & Hr0 & Hs0) row Hin.
    destruct (Hfiltered_s r0 Hr0 Hs0) as [_ Hall].
    destruct unused; [auto|]. apply Hall. by apply Hunused_in.
  - intros (r0 & Hr0 & Hs0 & Hfresh) row Hin.
    destruct (Hfiltered_s r0 Hr0 Hs0) as [Hr0f _].
    assert (In r0 unused) as Hr0u by by apply Hunused_in.
    destruct unused; [done|]. by apply Hunused_in.
Qed.

Lemma get_proverb_selected sample df recent s user_input :
  df <> [] ->
  exists row,
    In row (available_proverbs df recent s)
    /\ (get_proverb_by_sentiment sample (Some df) recent s user_input).2
       = deque_append (id row, s) recent
    /\ (get_proverb_by_sentiment sample (Some df) recent s user_input).1
       = match catalan row with
         | Text c => if String.eqb c "No proverb found" then default_proverb
                     else (Text c, english row)
         | NaN => default_proverb
         end.
Proof.
  intros Hdf. destruct df as [|r df]; [done|].
  destruct (available_proverbs_pool (r :: df) recent s Hdf) as (Hne & _).
  unfold get_proverb_by_sentiment.
  set (pool := available_proverbs (r :: df) recent s) in *.
  assert (Hlt : (sample pool mod length pool < length pool)%nat).
  { apply Nat.mod_upper_bound. destruct pool; [done | simpl; lia]. }
  destruct (lookup_lt_is_Some_2 pool _ Hlt) as [row Hrow]. rewrite Hrow.
  exists row. split; [apply list_elem_of_In; by eapply list_elem_of_lookup_2|].
  destruct (catalan row) as [c|] eqn:Hc; [|done].
  destruct (String.eqb c "No proverb found"); done.
Qed.

(** X23.  While the dataset has a proverb of the sentiment that is not
    among those recently used for it, the proverb drawn is such a one; it is
    recorded as the most recent use, and the pair returned is its two
    texts, unless its Catalan text is missing or is the placeholder
    ["No proverb found"], in which case and in no other the pair is the
    default one. *)
Theorem proverb_avoids_recent_ones :
  forall (sample : list proverb -> nat) (df : list proverb)
         (recent : list (nat * string)) (s user_input : string),
    (exists row, In row df /\ sentiment row = s
                 /\ ~ id row ∈ recently_used_ids recent s) ->
    exists row,
      In row df /\ sentiment row = s /\ ~ id row ∈ recently_used_ids recent s
      /\ (get_proverb_by_sentiment sample (Some df) recent s user_input).2
         = deque_append (id row, s) recent
      /\ (get_proverb_by_sentiment sample (Some df) recent s user_input).1
         = match catalan row with
           | Text c => if String.eqb c "No proverb found" then default_proverb
                       else (Text c, english row)
           | NaN => default_proverb
           end.
Proof.
  intros sample df recent s user_input Hex.
  assert (Hdf : df <> []) by (destruct Hex as (r0 & Hr0 & _); by destruct df).
  destruct (available_proverbs_pool df recent s Hdf) as (_ & Hin & Hsent & Hfresh).
  destruct (get_proverb_selected sample df recent s user_input Hdf)
    as (row & Hrow & Hrecent & Hpair).
  exists row. split; [auto|]. split.
  - apply Hsent; [|done]. destruct Hex as (r0 & ? & ? & _). eauto.
  - split; [by apply Hfresh|]. done.
Qed.

Lemma proverb_avoids_recent_ones_witness :
  exists row,
    In row three_proverbs /\ sentiment row = "Positive"
    /\ ~ id row ∈ recently_used_ids [(0, "Positive"); (2, "Negative")] "Positive"
    /\ (get_proverb_by_sentiment (fun _ => 0) (Some three_proverbs)
          [(0, "Positive"); (2, "Negative")] "Positive" "hello").2
       = deque_append (id row, "Positive") [(0, "Positive"); (2, "Negative")]
    /\ (get_proverb_by_sentiment (fun _ => 0) (Some three_proverbs)
          [(0, "Positive"); (2, "Negative")] "Positive" "hello").1
       = match catalan row with
         | Text c => if String.eqb c "No proverb found" then default_proverb
                     else (Text c, english row)
         | NaN => default_proverb
         end.
Proof.
  apply (proverb_avoids_recent_ones (fun _ => 0) three_proverbs
           [(0, "Positive"); (2, "Negative")] "Positive" "hello").
  exists {| id := 2; catalan := Text "Qui dia passa, any empeny.";
            english := Text "Each day survived pushes the year on.";
            sentiment := "Positive" |}.
  split; [right; right; left; reflexivity|]. split; [reflexivity|].
  vm_compute. intros H. inversion H as [|? ? ? H']; inversion H'.
Defined.

(** X24.  Whenever the dataset has a proverb of the sentiment, the proverb
    drawn has that sentiment, also when all of them were used recently (the
    exclusion is then dropped for the call); the draw is appended to the
    record of recent uses, which stays within its bound of 50 entries. *)
Theorem proverb_matches_sentiment :
  forall (sample : list proverb -> nat) (df : list proverb)
         (recent : list (nat * string)) (s user_input : string),
    (exists row, In row df /\ sentiment row = s) ->
    length recent <= 50 ->
    exists row,
      In row df /\ sentiment row = s
      /\ (get_proverb_by_sentiment sample (Some df) recent s user_input).2
         = deque_append (id row, s) recent
      /\ length (get_proverb_by_sentiment sample (Some df) recent s user_input).2 <= 50
      /\ last (get_proverb_by_sentiment sample (Some df) recent s user_input).2
         = Some (id row, s).
Proof.
  intros sample df recent s user_input Hex Hlen.
  assert (Hdf : df <> []) by (destruct Hex as (r0 & Hr0 & _); by destruct df).
  destruct (available_proverbs_pool df recent s Hdf) as (_ & Hin & Hsent & _).
  destruct (get_proverb_selected sample df recent s user_input Hdf)
    as (row & Hrow & Hrecent & _).
  exists row. rewrite Hrecent.
  split; [auto|]. split; [auto|]. split; [done|].
  split; [by apply deque_append_length | apply deque_append_last].
Qed.

Lemma proverb_matches_sentiment_witness :
  exists row,
    In row three_proverbs /\ sentiment row = "Negative"
    /\ (get_proverb_by_sentiment (fun _ => 0) (Some three_proverbs)
          [(1, "Negative")] "Negative" "hello").2
       = deque_append (id row, "Negative") [(1, "Negative")]
    /\ length (get_proverb_by_sentiment (fun _ => 0) (Some three_proverbs)
                 [(1, "Negative")] "Negative" "hello").2 <= 50
    /\ last (get_proverb_by_sentiment (fun _ => 0) (Some three_proverbs)
               [(1, "Negative")] "Negative" "hello").2
       = Some (id row, "Negative").
Proof.
  apply (proverb_matches_sentiment (fun _ => 0) three_proverbs
           [(1, "Negative")] "Negative" "hello").
  - exists {| id := 1; catalan := Text "A cada porc li arriba el seu Sant Martí.";
              english := Text "Every pig gets its Saint Martin's day.";
              sentiment := "Negative" |}.
    split; [right; left; reflexivity | reflexivity].
  - simpl. lia.
Defined.

End Proverbs.

(** ** The chat route *)

Section ChatRoute.
Import ChatService Exceptions Routes ChatRoutes Examples MoreExamples RouteExamples.

Lemma falsy_iff s : falsy s = true <-> s = "".
Proof. by destruct s. Qed.

(** The arguments the pipeline is run with come from a JSON object whose
    message is a string that sanitising leaves non-empty. *)
Lemma arguments_done rq m u s d :
  arguments rq m = Done (u, s, d) ->
  exists members t,
    is_json rq = true /\ get_json rq = Some (Json.Object members) /\ members <> []
    /\ dict_get "message" members = Some (Json.Str t)
    /\ sanitize_input t <> "" /\ u = sanitize_input t
    /\ s = field members "session_id" (Json.Str "unknown")
    /\ d = field members "detected_language" Json.Null
    /\ (Json.is_str s || negb (Json.truthy s) = true)
    /\ (Json.is_str d || negb (Json.truthy d) = true).
Proof.
  unfold arguments. destruct (is_json rq); [|discriminate]. cbn [negb].
  destruct (get_json rq) as [data|]; [|discriminate]. cbn [must bind].
  destruct (Json.truthy data) eqn:Htruthy; [|discriminate]. cbn [negb].
  destruct data as [| | | | |items|members];
    try (unfold require_message; cbn; discriminate).
  - unfold require_message. cbn. by destruct (str_in _ _).
  - unfold require_message. cbn. by destruct (existsb _ items).
  - unfold require_message. cbn [Json.contains must bind Json.get].
    destruct (existsb _ members); [|discriminate].
    fold (field members "message" (Json.Str "")).
    fold (field members "session_id" (Json.Str "unknown")).
    fold (field members "detected_language" Json.Null).
    fold (field members "feedback" (Json.Array [])).
    unfold field at 1.
    destruct (dict_get "message" members) as [v|] eqn:Hmsg; cbn [default from_option id].
    2:{ cbn. repeat (match goal with |- context [if ?b then _ else _] => destruct b end;
                     try discriminate). }
    destruct v as [| | | |t| |]; try (cbn; discriminate).
    cbn [sanitized_message bind].
    destruct (Json.truthy (field members "session_id" _)
              && negb (Json.is_str (field members "session_id" _))) eqn:Hs; [discriminate|].
    destruct (Json.truthy (field members "detected_language" _)
              && negb (Json.is_str (field members "detected_language" _))) eqn:Hd;
      [discriminate|].
    destruct (_ && _ && negb m); [discriminate|].
    destruct (falsy (sanitize_input t)) eqn:Hempty; [discriminate|].
    intros [= <- <- <-]. exists members, t.
    destruct (sanitize_input_bounds t) as [Hp Hlen].
    rewrite (sanitize_input_clean (sanitize_input t) Hp Hlen).
    repeat split; try done.
    + by destruct members.
    + intros Heq. by rewrite Heq in Hempty.
    + apply andb_false_iff in Hs as [Hs|Hs].
      * rewrite Hs. apply orb_true_r.
      * apply negb_false_iff in Hs. by rewrite Hs.
    + apply andb_false_iff in Hd as [Hd|Hd].
      * rewrite Hd. apply orb_true_r.
      * apply negb_false_iff in Hd. by rewrite Hd.
Qed.

Lemma arguments_acceptable rq m u s d :
  arguments rq m = Done (u, s, d) -> acceptable u s d = true.
Proof.
  intros H. apply arguments_done in H
    as (members & t & _ & _ & _ & _ & Hne & -> & _ & _ & Hs & Hd).
  destruct (sanitize_input_bounds t) as [Hp Hlen].
  unfold acceptable. rewrite Hp, Hs, Hd.
  apply Nat.leb_le in Hlen. rewrite Hlen.
  destruct (falsy (sanitize_input t)) eqn:Hf; [|done].
  by apply falsy_iff in Hf.
Qed.

(** What the validation raises is a client error or an exception no handler
    names; it never is one of the two service errors. *)
Lemma arguments_raised rq m r :
  arguments rq m = Raised r ->
  r = Unhandled \/ exists given, given <> "" /\
                   (r = Api (BadRequestError given) \/ r = Api (ValidationError given)).
Proof.
  unfold arguments, require_message, sanitized_message.
  intros H.
  repeat match type of H with
         | Raised _ = Raised _ => injection H as <-
         | Done _ = Raised _ => discriminate H
         | context [if ?b then _ else _] => destruct b
         | context [bind (must ?o) _] => destruct o; cbn [must bind] in H
         | context [bind (match ?v with _ => _ end) _] => destruct v; cbn [bind] in H
         | context [bind (Done _) _] => cbn [bind] in H
         | context [bind (Raised _) _] => cbn [bind] in H
         end;
    first [ by left
          | right; eexists; split; [|first [left; reflexivity | right; reflexivity]];
            cbv; discriminate ].
Qed.

Lemma process_status E u s d :
  In (status (respond (process E u s d))) [200; 500; 503].
Proof.
  unfold process.
  destruct (first_attempt E u s d); cbn; [tauto| |tauto].
  destruct (second_attempt E u s d); cbn; tauto.
Qed.

Lemma dict_get_present {V : Type} key (members : list (string * V)) :
  existsb (fun kv => String.eqb key kv.1) members = true <-> is_Some (dict_get key members).
Proof.
  induction members as [|[k v] members IH]; simpl.
  - split; [discriminate | by intros [? ?]].
  - destruct (String.eqb key k); simpl; [|done]. split; eauto.
Qed.

(** X25.  The pipeline is only ever run with arguments that passed the
    validation: a non-empty message without control characters and of at
    most 500 characters, a session id and a language hint that are strings
    unless they are falsy.  What the event loop and the pipeline would do
    with other arguments has no influence on the answer of the route. *)
Theorem chat_validates_before_processing :
  forall E E' : env,
    request E' = request E ->
    metrics_importable E' = metrics_importable E ->
    (forall u s d, acceptable u s d = true ->
       first_attempt E' u s d = first_attempt E u s d
       /\ second_attempt E' u s d = second_attempt E u s d) ->
    chat E' = chat E.
Proof.
  intros E E' Hrq Hm Hsame. unfold chat, chat_body. rewrite Hrq, Hm.
  destruct (arguments _ _) as [[[u s] d]|r] eqn:Ha; cbn [bind]; [|done].
  apply arguments_acceptable in Ha. destruct (Hsame u s d Ha) as [H1 H2].
  unfold process. by rewrite H1, H2.
Qed.

Lemma chat_validates_before_processing_witness : chat chat_echo_strict = chat chat_echo.
Proof.
  apply (chat_validates_before_processing chat_echo chat_echo_strict).
  - reflexivity.
  - reflexivity.
  - intros u s d Ha. split; [|reflexivity]. by destruct u.
Defined.

(** X26.  A request whose body is a non-empty JSON object without a usable
    message is a client error: when the message is missing, is not a
    string, or is empty once sanitised (the metrics module importing, for
    that last case), the status is 400 and the error is a validation
    error, whatever the other fields and the pipeline. *)
Theorem chat_rejects_unusable_message :
  forall (E : env) (members : list (string * Json.value)),
    is_json (request E) = true ->
    get_json (request E) = Some (Json.Object members) ->
    members <> [] ->
    match dict_get "message" members with
    | Some (Json.Str t) => sanitize_input t = "" /\ metrics_importable E = true
    | _ => True
    end ->
    status (chat E) = 400
    /\ exists message, body_of (chat E) = Failure "validation_error" message.
Proof.
  intros E members Hjson Hbody Hne Hmsg.
  unfold chat, chat_body, arguments. rewrite Hjson, Hbody. cbn [negb must bind Json.truthy].
  destruct members as [|m0 members0] eqn:Hmembers; [done|]. rewrite <- Hmembers in *.
  cbn [negb]. unfold require_message. cbn [Json.contains must bind Json.get].
  destruct (existsb _ members) eqn:Hpresent.
  2:{ cbn. eauto. }
  apply dict_get_present in Hpresent as [v Hv]. rewrite Hv in Hmsg |- *.
  cbn [default from_option id bind].
  destruct v as [| | | |t| |]; try (cbn; eauto).
  destruct Hmsg as [Hempty Hm]. cbn [sanitized_message bind]. rewrite Hempty, Hm.
  rewrite andb_false_r. cbn [must bind falsy].
  repeat match goal with |- context [if ?b then _ else _] => destruct b end; cbn; eauto.
Qed.

Lemma chat_rejects_unusable_message_witness :
  status (chat chat_number) = 400
  /\ exists message, body_of (chat chat_number) = Failure "validation_error" message.
Proof.
  apply (chat_rejects_unusable_message chat_number [("message", Json.Int 7)]).
  - reflexivity.
  - reflexivity.
  - discriminate.
  - simpl. exact I.
Defined.

(** X27.  The route answers with one of the status codes 200, 400, 500 and
    503.  A 200 always carries the result the pipeline gave for the
    sanitised message of a JSON object, on the first attempt or, after the
    missing event loop, on the second; a 503 always comes from a failed
    first attempt on arguments that passed the validation. *)
Theorem chat_answers_with_pipeline_result :
  forall E : env,
    In (status (chat E)) [200; 400; 500; 503]
    /\ (status (chat E) = 200 ->
        exists members t result,
          get_json (request E) = Some (Json.Object members)
          /\ dict_get "message" members = Some (Json.Str t)
          /\ sanitize_input t <> ""
          /\ body_of (chat E) = Reply result
          /\ (first_attempt E (sanitize_input t)
                (field members "session_id" (Json.Str "unknown"))
                (field members "detected_language" Json.Null) = Completed result
              \/ (first_attempt E (sanitize_input t)
                    (field members "session_id" (Json.Str "unknown"))
                    (field members "detected_language" Json.Null) = NoCurrentLoop
                  /\ second_attempt E (sanitize_input t)
                       (field members "session_id" (Json.Str "unknown"))
                       (field members "detected_language" Json.Null) = Some result)))
    /\ (status (chat E) = 503 ->
        exists u s d, acceptable u s d = true /\ first_attempt E u s d = Failed).
Proof.
  intros E. unfold chat, chat_body.
  destruct (arguments _ _) as [[[u s] d]|r] eqn:Ha; cbn [bind].
  - pose proof (arguments_acceptable _ _ _ _ _ Ha) as Hacc.
    apply arguments_done in Ha
      as (members & t & _ & Hbody & _ & Hmsg & Hne & -> & -> & -> & _ & _).
    unfold process.
    destruct (first_attempt E _ _ _) as [result| |] eqn:H1; cbn.
    + split; [tauto|]. split; [|discriminate].
      intros _. exists members, t, result. rewrite H1. eauto 10.
    + destruct (second_attempt E _ _ _) as [result|] eqn:H2; cbn.
      * split; [tauto|]. split; [|discriminate].
        intros _. exists members, t, result. rewrite H1, H2. eauto 10.
      * split; [tauto|]. split; discriminate.
    + split; [tauto|]. split; [discriminate|]. intros _. eauto.
  - apply arguments_raised in Ha as [->|(given & Hne & [->| ->])]; cbn;
      (split; [tauto|]); split; discriminate.
Qed.

End ChatRoute.

(** ** The guide route and the text of the places *)

Section PlacesText.
Import RestaurantService RestaurantResponse Examples MoreExamples RouteExamples.

Lemma append_assoc (a b c : string) : (a +:+ b) +:+ c = a +:+ (b +:+ c).
Proof.
  induction a as [|x a IH]; [done|].
  change (String x ((a +:+ b) +:+ c) = String x (a +:+ (b +:+ c))). by rewrite IH.
Qed.

Lemma append_empty_r (a : string) : a +:+ "" = a.
Proof.
  induction a as [|x a IH]; [done|].
  change (String x (a +:+ "") = String x a). by rewrite IH.
Qed.

Lemma prefix_refl x : String.prefix x x = true.
Proof. induction x as [|c x IH]; [done|]. simpl. by destruct (ascii_dec c c). Qed.

Lemma prefix_empty t : String.prefix "" t = true.
Proof. by destruct t. Qed.

Lemma prefix_append x : forall a b, String.prefix x a = true -> String.prefix x (a +:+ b) = true.
Proof.
  induction x as [|c x IH]; intros a b; [intros _; apply prefix_empty|].
  destruct a as [|c' a]; [done|].
  change (String c' a +:+ b) with (String c' (a +:+ b)). simpl.
  destruct (ascii_dec c c'); [apply IH | done].
Qed.

Lemma str_in_empty t : str_in "" t = true.
Proof. by destruct t. Qed.

Lemma str_in_refl x : str_in x x = true.
Proof.
  destruct x as [|c x]; [done|]. cbn [str_in]. by rewrite prefix_refl.
Qed.

Lemma str_in_append_l x a b : str_in x a = true -> str_in x (a +:+ b) = true.
Proof.
  induction a as [|c a IH]; cbn [str_in].
  - destruct x; [intros _; apply str_in_empty | simpl; discriminate].
  - intros H. apply orb_true_iff in H as [H|H].
    + change (String c a +:+ b) with (String c (a +:+ b)). cbn [str_in].
      change (String c (a +:+ b)) with (String c a +:+ b).
      by rewrite (prefix_append _ _ b H).
    + change (String c a +:+ b) with (String c (a +:+ b)). cbn [str_in].
      rewrite IH by done. apply orb_true_r.
Qed.

Lemma str_in_append_r x a b : str_in x b = true -> str_in x (a +:+ b) = true.
Proof.
  intros H. induction a as [|c a IH]; [done|].
  change (String c a +:+ b) with (String c (a +:+ b)). cbn [str_in].
  rewrite IH. apply orb_true_r.
Qed.

Lemma fold_blocks (places : list place) : forall acc,
  fold_left (fun response_text p => response_text +:+ place_block p) places acc
  = acc +:+ fold_left (fun response_text p => response_text +:+ place_block p) places "".
Proof.
  induction places as [|p places IH]; intros acc; cbn [fold_left].
  - by rewrite append_empty_r.
  - rewrite IH. rewrite (IH ("" +:+ place_block p)).
    change ("" +:+ place_block p) with (place_block p). by rewrite append_assoc.
Qed.

Lemma place_block_head p : exists rest, place_block p = String (ascii_of_nat 10) rest.
Proof. eexists. reflexivity. Qed.

Lemma blocks_hold_each (places : list place) p :
  In p places ->
  str_in (place_block p)
    (fold_left (fun response_text q => response_text +:+ place_block q) places "") = true.
Proof.
  induction places as [|q places IH]; [done|]. cbn [fold_left].
  rewrite fold_blocks. change ("" +:+ place_block q) with (place_block q).
  intros [->|Hin].
  - apply str_in_append_l, str_in_refl.
  - by apply str_in_append_r, IH.
Qed.

(** X28.  [create_rag_response] returns a text for every list of places;
    the text is the sentence for no places exactly when the list is empty,
    and otherwise it holds the block of every place of the list: its name
    and description, the booking line with the contact, and the sentences
    for the terrace and the sea view the place has. *)
Theorem create_rag_response_holds_every_place :
  forall places : list place,
    exists response_text,
      create_rag_response (Some places) = Return response_text
      /\ (response_text = "No places found matching your criteria." <-> places = [])
      /\ (forall p, In p places -> str_in (place_block p) response_text = true).
Proof.
  intros [|q places].
  - eexists. split; [reflexivity|]. split; [done|]. by intros p [].
  - eexists. split; [reflexivity|]. split.
    + split; [|discriminate]. cbn [fold_left]. rewrite fold_blocks.
      change ("" +:+ place_block q) with (place_block q).
      destruct (place_block_head q) as [rest ->]. discriminate.
    + apply blocks_hold_each.
Qed.

End PlacesText.

Section GuideRoute.
Import ChatService RestaurantService RestaurantResponse Exceptions Routes GuideRoutes.
Import Examples MoreExamples RouteExamples.

Lemma message_of_done rq u :
  message_of rq = Done u ->
  exists members t,
    is_json rq = true /\ get_json rq = Some (Json.Object members)
    /\ dict_get "message" members = Some (Json.Str t)
    /\ u = sanitize_input t /\ u <> "".
Proof.
  unfold message_of. destruct (is_json rq); [|discriminate]. cbn [negb].
  destruct (get_json rq) as [data|]; [|discriminate]. cbn [must bind].
  destruct data as [| | | | |items|members];
    try (unfold require_message; cbn; discriminate).
  - unfold require_message. cbn. by destruct (str_in _ _).
  - unfold require_message. cbn. by destruct (existsb _ items).
  - unfold require_message. cbn [Json.contains must bind Json.get].
    destruct (existsb _ members) eqn:Hpresent; [|discriminate].
    apply dict_get_present in Hpresent as [v Hv]. rewrite Hv.
    cbn [default from_option id].
    destruct v as [| | | |t| |]; try (cbn; discriminate).
    cbn [sanitized_message bind].
    destruct (falsy (sanitize_input t)) eqn:Hempty; [discriminate|].
    intros [= <-]. exists members, t. repeat split; try done.
    intros Heq. by rewrite Heq in Hempty.
Qed.

Lemma message_of_valid rq members t :
  is_json rq = true -> get_json rq = Some (Json.Object members) ->
  dict_get "message" members = Some (Json.Str t) -> sanitize_input t <> "" ->
  message_of rq = Done (sanitize_input t).
Proof.
  intros Hjson Hbody Hmsg Hne. unfold message_of, require_message.
  rewrite Hjson, Hbody. cbn [negb must bind Json.contains Json.get].
  assert (Hpresent : existsb (fun kv => String.eqb "message" kv.1) members = true)
    by (apply dict_get_present; eauto).
  rewrite Hpresent, Hmsg. cbn [default from_option id sanitized_message bind].
  destruct (falsy (sanitize_input t)) eqn:Hempty; [|done].
  by apply falsy_iff in Hempty.
Qed.

Lemma message_of_raised rq r :
  message_of rq = Raised r ->
  r = Unhandled \/ exists given, r = Api (BadRequestError given) \/ r = Api (ValidationError given).
Proof.
  unfold message_of, require_message, sanitized_message.
  intros H.
  repeat match type of H with
         | Raised _ = Raised _ => injection H as <-
         | Done _ = Raised _ => discriminate H
         | context [if ?b then _ else _] => destruct b
         | context [bind (must ?o) _] => destruct o; cbn [must bind] in H
         | context [bind (match ?v with _ => _ end) _] => destruct v; cbn [bind] in H
         | context [bind (Done _) _] => cbn [bind] in H
         | context [bind (Raised _) _] => cbn [bind] in H
         end;
    first [ by left | right; eexists; first [left; reflexivity | right; reflexivity] ].
Qed.

(** [query_places] raises only when the metrics module does not import. *)
Lemma query_places_raises R cache user_query required_features e cache' :
  query_places R cache user_query required_features = (Raise e, cache') ->
  RestaurantService.metrics_importable R = false.
Proof.
  unfold query_places.
  destruct (RestaurantService.metrics_importable R); [|done]. cbn [negb].
  destruct (rag_query_engine R); [|discriminate].
  destruct (Cache.get _ _ _); [discriminate|].
  destruct (first_response _ _ _); discriminate.
Qed.

(** For English, [get_chatgpt_response] raises only when the metrics module
    does not import. *)
Lemma get_chatgpt_response_en_raises G st user_input context e st' :
  ChatGPTService.get_chatgpt_response G st user_input "en" context = (Raise e, st') ->
  TranslationService.metrics_importable (ChatGPTService.translation G) = false.
Proof.
  unfold ChatGPTService.get_chatgpt_response.
  destruct (TranslationService.metrics_importable _); [|done]. cbn [negb].
  destruct (Cache.get _ _ _); [discriminate|].
  unfold ChatGPTService.fallback_reply, TranslationService.translate_text.
  rewrite !orb_true_r.
  destruct (ChatGPTService.create _ _ _); discriminate.
Qed.

Lemma answer_status E st user_input :
  RestaurantService.metrics_importable (rag E)
  = TranslationService.metrics_importable (ChatGPTService.translation (gpt E)) ->
  status (respond (answer E st user_input).1)
  = if RestaurantService.metrics_importable (rag E) then 200 else 503.
Proof.
  intros Hsame. unfold answer.
  destruct (query_places _ _ _ _) as [[places|e] cache] eqn:Hq.
  - assert (Hm : RestaurantService.metrics_importable (rag E) = true).
    { unfold query_places in Hq.
      by destruct (RestaurantService.metrics_importable (rag E)). }
    rewrite Hm. destruct places as [|p places].
    + destruct (ChatGPTService.get_chatgpt_response _ _ _ _ _) as [[r|e] gs] eqn:Hg; [done|].
      apply get_chatgpt_response_en_raises in Hg. congruence.
    + done.
  - apply query_places_raises in Hq. by rewrite Hq.
Qed.

(** X29.  [query_places] and [get_chatgpt_response] importing the same
    metrics module, the guide route never answers 502: its handler for a
    failing completion service cannot be reached.  With the module
    importing it never answers 503 either, and a message that is a string
    and is not empty once sanitised is answered 200; without the module
    such a message is answered 503. *)
Theorem guide_never_reports_external_error :
  forall (E : env) (st : state),
    RestaurantService.metrics_importable (rag E)
    = TranslationService.metrics_importable (ChatGPTService.translation (gpt E)) ->
    status (guide E st).1 <> 502
    /\ (RestaurantService.metrics_importable (rag E) = true ->
        status (guide E st).1 <> 503)
    /\ (forall members t,
          is_json (request E) = true ->
          get_json (request E) = Some (Json.Object members) ->
          dict_get "message" members = Some (Json.Str t) ->
          sanitize_input t <> "" ->
          status (guide E st).1
          = if RestaurantService.metrics_importable (rag E) then 200 else 503).
Proof.
  intros E st Hsame.
  assert (Hguide : (guide E st).1 = respond (guide_body E st).1)
    by (unfold guide; by destruct (guide_body E st)).
  rewrite Hguide. unfold guide_body.
  split; [|split].
  - destruct (message_of (request E)) as [u|r] eqn:Hm.
    + rewrite answer_status by done. by destruct (RestaurantService.metrics_importable _).
    + apply message_of_raised in Hm as [->|(given & [->| ->])]; cbn; discriminate.
  - intros Himp. destruct (message_of (request E)) as [u|r] eqn:Hm.
    + rewrite answer_status by done. by rewrite Himp.
    + apply message_of_raised in Hm as [->|(given & [->| ->])]; cbn; discriminate.
  - intros members t Hjson Hbody Hmsg Hne.
    rewrite (message_of_valid _ members t) by done. by apply answer_status.
Qed.

Lemma guide_never_reports_external_error_witness :
  status (guide guide_no_places guide_state0).1 <> 502
  /\ (RestaurantService.metrics_importable (rag guide_no_places) = true ->
      status (guide guide_no_places guide_state0).1 <> 503)
  /\ (forall members t,
        is_json (request guide_no_places) = true ->
        get_json (request guide_no_places) = Some (Json.Object members) ->
        dict_get "message" members = Some (Json.Str t) ->
        sanitize_input t <> "" ->
        status (guide guide_no_places guide_state0).1
        = if RestaurantService.metrics_importable (rag guide_no_places) then 200 else 503).
Proof.
  apply (guide_never_reports_external_error guide_no_places guide_state0).
  reflexivity.
Defined.

(** X30.  When the retriever finds places for a valid message, the guide
    route answers 200 with the text [create_rag_response] makes of them
    and stores them in the cache; the completion service is not consulted:
    its state is left as it was and the answer is the same whatever that
    service would do. *)
Theorem guide_answers_with_places :
  forall (E : env) (st : state) (members : list (string * Json.value)) (t : string)
         (p : place) (places : list place) (cache : Cache.TTLCache (list place)),
    is_json (request E) = true ->
    get_json (request E) = Some (Json.Object members) ->
    dict_get "message" members = Some (Json.Str t) ->
    sanitize_input t <> "" ->
    query_places (rag E) (rag_query_cache st) (sanitize_input t) ∅
    = (Return (p :: places), cache) ->
    exists response_text,
      create_rag_response (Some (p :: places)) = Return response_text
      /\ (forall G : ChatGPTService.env,
            guide {| request := request E; rag := rag E; gpt := G |} st
            = ({| body_of := Reply response_text; status := 200 |},
               {| rag_query_cache := cache; gpt_state := gpt_state st |})).
Proof.
  intros E st members t p places cache Hjson Hbody Hmsg Hne Hq.
  eexists. split; [reflexivity|].
  intros G. unfold guide, guide_body. cbn [request rag gpt].
  rewrite (message_of_valid _ members t) by done.
  unfold answer. cbn [request rag gpt]. by rewrite Hq.
Qed.

Lemma guide_answers_with_places_witness :
  exists response_text,
    create_rag_response (Some (filter_nodes two_nodes ∅)) = Return response_text
    /\ (forall G : ChatGPTService.env,
          guide {| request := request guide_places; rag := rag guide_places; gpt := G |}
            guide_state0
          = ({| body_of := Reply response_text; status := 200 |},
             {| rag_query_cache :=
                  Cache.put RestaurantService.rag_query_cache 0
                    (cache_key "hola" ∅) (filter_nodes two_nodes ∅);
                gpt_state := gpt_state guide_state0 |})).
Proof.
  apply (guide_answers_with_places guide_places guide_state0
           [("message", Json.Str "hola"); ("session_id", Json.Str "s1")] "hola"
           (place_of node_bar) [place_of node_terrace]).
  - reflexivity.
  - reflexivity.
  - reflexivity.
  - vm_compute. discriminate.
  - vm_compute. reflexivity.
Defined.

End GuideRoute.
